(** * Keyword search over text files: sequential, threaded and multi-process

    A shallow embedding of [searcher.py].  Text is modelled as ASCII
    strings; the file system is a function from paths to what [open] and the
    iteration over the file deliver; the workers of the concurrent searchers
    are traces of events that a schedule interleaves.  The wall-clock time
    that [search] stores in [self.time] is left out. *)

From Stdlib Require Import List String Ascii ZArith NArith Lia Bool Arith.
From Stdlib Require Import Permutation Sorted DecimalString DecimalNat.
Import ListNotations.

Local Open Scope string_scope.
Local Open Scope list_scope.

(** ** Text *)

Module Text.

(** [str.lower] on ASCII text: the letters A-Z go to a-z. *)
Definition lower_char (c : ascii) : ascii :=
  let n := nat_of_ascii c in
  if (65 <=? n)%nat && (n <=? 90)%nat then ascii_of_nat (n + 32) else c.

Fixpoint lower (s : string) : string :=
  match s with
  | EmptyString => EmptyString
  | String c s' => String (lower_char c) (lower s')
  end.

(** [word in line]: [word] occurs in [line] as a contiguous substring. *)
Fixpoint contains (word line : string) : bool :=
  String.prefix word line ||
  match line with
  | EmptyString => false
  | String _ line' => contains word line'
  end.

Definition Substring (word line : string) : Prop :=
  exists pre post, line = (pre ++ word ++ post)%string.

Definition LF : ascii := "010"%char.
Definition CR : ascii := "013"%char.

Definition cons_line (c : ascii) (ls : list string) : list string :=
  match ls with
  | [] => [String c EmptyString]
  | l :: ls' => String c l :: ls'
  end.

(** The lines a text-mode file object yields: each line keeps its
    terminator, and (universal newlines) a CR LF or a lone CR is read as
    LF. *)
Fixpoint readlines (s : string) : list string :=
  match s with
  | EmptyString => []
  | String c s' =>
      if Ascii.eqb c LF then String LF EmptyString :: readlines s'
      else if Ascii.eqb c CR then
        match s' with
        | String c' s'' =>
            if Ascii.eqb c' LF then String LF EmptyString :: readlines s''
            else String LF EmptyString :: readlines s'
        | EmptyString => [String LF EmptyString]
        end
      else cons_line c (readlines s')
  end.

End Text.

(** ** Matches and their order *)

(** A match is the tuple [(word, file_name, i)]. *)
Definition Match : Type := string * string * nat.

Definition kword (m : Match) : string := fst (fst m).
Definition fname (m : Match) : string := snd (fst m).
Definition lineno (m : Match) : nat := snd m.

(** Tuple comparison: the first component that differs decides. *)
Definition lex {A B : Type} (cA : A -> A -> comparison)
    (cB : B -> B -> comparison) (x y : A * B) : comparison :=
  match cA (fst x) (fst y) with
  | Eq => cB (snd x) (snd y)
  | c => c
  end.

Definition match_compare : Match -> Match -> comparison :=
  lex (lex String.compare String.compare) Nat.compare.

(** What the proofs need of a three-way comparison. *)
Class TotalOrder {A : Type} (cmp : A -> A -> comparison) : Prop := {
  cmp_eq : forall x y, cmp x y = Eq -> x = y;
  cmp_refl : forall x, cmp x x = Eq;
  cmp_antisym : forall x y, cmp y x = CompOpp (cmp x y);
  cmp_trans : forall x y z, cmp x y = Lt -> cmp y z = Lt -> cmp x z = Lt
}.

Definition match_leb (a b : Match) : bool :=
  match match_compare a b with Gt => false | _ => true end.

Definition match_le (a b : Match) : Prop := match_leb a b = true.

(** [list.sort()]: a stable sort by [match_leb]. *)
Fixpoint insert (m : Match) (l : list Match) : list Match :=
  match l with
  | [] => [m]
  | x :: l' => if match_leb m x then m :: l else x :: insert m l'
  end.

(* insertion from the right keeps equal elements in their order *)
Definition sort (l : list Match) : list Match :=
  fold_right insert [] l.

(** ** Files *)

(** What happens when a path is opened and read. *)
Inductive file : Type :=
| Missing                                  (* open raises FileNotFoundError *)
| Readable (content : string)               (* read to the end *)
| Faulty (content : string) (err : string). (* [content] is read, then another
                                               exception [err] is raised; with
                                               empty [content], by open itself *)

Definition filesystem : Type := string -> file.

Definition file_lines (f : file) : list string :=
  match f with
  | Missing => []
  | Readable c => Text.readlines c
  | Faulty c _ => Text.readlines c
  end.

Definition is_faulty (f : file) : bool :=
  match f with Faulty _ _ => true | _ => false end.

Definition is_missing (f : file) : bool :=
  match f with Missing => true | _ => false end.

(** ** What a worker does *)

(** The effects of the search code: a match handed to [push_results], or a
    line logged with [logging.error]. *)
Inductive event : Type :=
| Push (m : Match)
| LogError (msg : string).

Definition pushes (evs : list event) : list Match :=
  flat_map (fun e => match e with Push m => [m] | LogError _ => [] end) evs.

Definition logged (evs : list event) : list string :=
  flat_map (fun e => match e with Push _ => [] | LogError s => [s] end) evs.

Module SearcherBase.

(** Lines 46-49: the matches of one line. *)
Definition match_line (file_name : string) (key_words : list string)
    (i : nat) (line : string) : list Match :=
  let line := Text.lower line in
  flat_map
    (fun word => if Text.contains word line then [(word, file_name, i)] else [])
    key_words.

(** Lines 45-49: [for i, line in enumerate(f)], counting from [i]. *)
Fixpoint scan (file_name : string) (key_words : list string)
    (i : nat) (lines : list string) : list Match :=
  match lines with
  | [] => []
  | line :: rest =>
      match_line file_name key_words i line
      ++ scan file_name key_words (S i) rest
  end.

Definition not_found_msg (file_name : string) : string :=
  ("File " ++ file_name ++ " not found")%string.

Definition worker_error_msg (err : string) : string :=
  ("Worker error: " ++ err)%string.

(** [search_words]: the events of one file, and the exception that leaves
    the function, if any. *)
Definition search_words (fs : filesystem) (file_name : string)
    (key_words : list string) : list event * option string :=
  match fs file_name with
  | Missing => ([LogError (not_found_msg file_name)], None)
  | Readable c =>
      (map Push (scan file_name key_words 0 (Text.readlines c)), None)
  | Faulty c err =>
      (map Push (scan file_name key_words 0 (Text.readlines c)), Some err)
  end.

(** [worker]: the files in order; an exception out of [search_words] is
    logged and ends the loop. *)
Fixpoint worker (fs : filesystem) (files : list string)
    (key_words : list string) : list event :=
  match files with
  | [] => []
  | f :: rest =>
      match search_words fs f key_words with
      | (evs, None) => evs ++ worker fs rest key_words
      | (evs, Some err) => evs ++ [LogError (worker_error_msg err)]
      end
  end.

End SearcherBase.

(** ** Python's integers, ranges and slices *)

Module Py.

(** [range(n)] *)
Definition range (n : Z) : list Z :=
  map Z.of_nat (seq 0 (Z.to_nat n)).

(** A slice bound, as [l[lo:hi]] reads it: a negative bound counts from the
    end, and every bound is clipped to the list. *)
Definition clamp (len k : Z) : Z :=
  if (k <? 0)%Z then Z.max 0 (len + k) else Z.min k len.

(** [l[lo:hi]] *)
Definition slice {A : Type} (l : list A) (lo hi : Z) : list A :=
  let len := Z.of_nat (List.length l) in
  let lo' := clamp len lo in
  let hi' := clamp len hi in
  firstn (Z.to_nat (hi' - lo')) (skipn (Z.to_nat lo') l).

End Py.

(** ** The searchers *)

Inductive strategy : Type :=
| SingleThreadSearcher
| MultiThreadSearcher
| MultiProcessSearcher
| MultiProcessSearcher2.

Record searcher : Type := mkSearcher {
  cls : strategy;
  files : list string;
  key_words : list string;
  results : list Match
}.

(** [__init__] *)
Definition init (c : strategy) (files key_words : list string) : searcher :=
  mkSearcher c files key_words [].

Definition with_results (self : searcher) (r : list Match) : searcher :=
  mkSearcher (cls self) (files self) (key_words self) r.

Inductive exn : Type :=
| ZeroDivisionError.

Inductive outcome (A : Type) : Type :=
| Return (a : A)
| Raise (e : exn).

Arguments Return {A} a.
Arguments Raise {A} e.

(** Who runs next.  A schedule is the list of these choices; when it is
    used up, the workers that are left run to their end in index order,
    which is what joining them waits for.

    [Miss i] is the call [files.get(block=False)] of child [i] of
    [MultiProcessSearcher2] that raises [Empty] although file names are
    still queued: the call does not wait, so it raises when another child
    holds the read lock of the queue, and when the feeder thread of the
    parent has not yet written to the pipe the names that [put] has
    buffered.  The other searchers have no such call; for them [Miss i]
    is a turn in which nothing happens. *)
Inductive actor : Type :=
| Main
| Child (i : nat)
| Miss (i : nat).

Definition schedule : Type := list actor.

(** The next event of worker [i], if it has one left. *)
Fixpoint take (i : nat) (ws : list (list event))
    : option (event * list (list event)) :=
  match ws, i with
  | [], _ => None
  | w :: ws', O =>
      match w with
      | [] => None
      | e :: w' => Some (e, w' :: ws')
      end
  | w :: ws', S j =>
      match take j ws' with
      | Some (e, ws'') => Some (e, w :: ws'')
      | None => None
      end
  end.

(** Lines 173-183 and 225-236: the slice of files of each worker. *)
Definition files_per_worker (n_files : nat) (n_workers : Z) : Z :=
  (Z.of_nat n_files + n_workers - 1) / n_workers.

Definition worker_files (files : list string) (n_workers i : Z) : list string :=
  let fpw := files_per_worker (List.length files) n_workers in
  Py.slice files (i * fpw) ((i + 1) * fpw).

Definition partition (files : list string) (n_workers : Z)
    : list (list string) :=
  map (worker_files files n_workers) (Py.range n_workers).

Module SingleThread.

(** [push_results] appends to [self.results]; the log line goes to the
    log. *)
Definition perform (e : event) (st : list Match * list string)
    : list Match * list string :=
  match e with
  | Push m => (fst st ++ [m], snd st)
  | LogError s => (fst st, snd st ++ [s])
  end.

Definition perform_all (evs : list event) (st : list Match * list string)
    : list Match * list string :=
  fold_left (fun st e => perform e st) evs st.

(** [start_workers]: one worker over all the files; [n_workers] is not
    read. *)
Definition start_workers (fs : filesystem) (self : searcher)
    : list Match * list string :=
  perform_all (SearcherBase.worker fs (files self) (key_words self))
    (results self, []).

End SingleThread.

Module MultiThread.

(** The threads share [self.results]; each append is under the lock, so
    the appends of the threads interleave one event at a time. *)
Fixpoint run (sched : schedule) (threads : list (list event))
    (st : list Match * list string) : list Match * list string :=
  match sched with
  | [] => SingleThread.perform_all (List.concat threads) st
  | Main :: sched' => run sched' threads st
  | Child i :: sched' =>
      match take i threads with
      | Some (e, threads') => run sched' threads' (SingleThread.perform e st)
      | None => run sched' threads st
      end
  | Miss _ :: sched' => run sched' threads st
  end.

Definition start_workers (fs : filesystem) (sched : schedule)
    (self : searcher) (n_workers : Z) : outcome (list Match * list string) :=
  if (n_workers =? 0)%Z then Raise ZeroDivisionError
  else
    let threads :=
      map (fun fl => SearcherBase.worker fs fl (key_words self))
          (partition (files self) n_workers) in
    Return (run sched threads (results self, [])).

End MultiThread.

Module MultiProcess.

(** The parent's view: what the children still have to do, the queue the
    children put matches on, the parent's [self.results] and the log. *)
Record state : Type := mkState {
  children : list (list event);
  queue : list Match;
  collected : list Match;
  log : list string
}.

(** [push_results] in a child is [queue.put]. *)
Definition emit (e : event) (q : list Match) (lg : list string)
    : list Match * list string :=
  match e with
  | Push m => (q ++ [m], lg)
  | LogError s => (q, lg ++ [s])
  end.

Definition emit_all (evs : list event) (q : list Match) (lg : list string)
    : list Match * list string :=
  (q ++ pushes evs, lg ++ logged evs).

(** One turn of either loop of lines 239-243: if the queue is not empty,
    one item moves to [self.results]. *)
Definition poll (st : state) : state :=
  match queue st with
  | [] => st
  | m :: q => mkState (children st) q (collected st ++ [m]) (log st)
  end.

Definition step (a : actor) (st : state) : state :=
  match a with
  | Main => poll st
  | Child i =>
      match take i (children st) with
      | Some (e, cs) =>
          let (q, lg) := emit e (queue st) (log st) in
          mkState cs q (collected st) lg
      | None => st
      end
  | Miss _ => st
  end.

(** The children run to their end, then the last loop empties the
    queue. *)
Definition finish (st : state) : list Match * list string :=
  let (q, lg) := emit_all (List.concat (children st)) (queue st) (log st) in
  (collected st ++ q, lg).

Definition run (sched : schedule) (st : state) : list Match * list string :=
  finish (fold_left (fun st a => step a st) sched st).

Definition start_workers (fs : filesystem) (sched : schedule)
    (self : searcher) (n_workers : Z) : outcome (list Match * list string) :=
  if (n_workers =? 0)%Z then Raise ZeroDivisionError
  else
    let procs :=
      map (fun fl => SearcherBase.worker fs fl (key_words self))
          (partition (files self) n_workers) in
    Return (run sched (mkState procs [] (results self) [])).

End MultiProcess.

Module MultiProcess2.

(** A child of [MultiProcessSearcher2]: about to call [files.get], in
    [search_words] with some events still to come (and the exception that
    will leave it afterwards, if any), or gone. *)
Inductive proc : Type :=
| Idle
| Busy (todo : list event) (exc : option string)
| Exited.

(** [taken] is not in the program: it records which child took which file
    from the queue of files, in the order of the calls. *)
Record state : Type := mkState {
  procs : list proc;
  files_queue : list string;
  queue : list Match;
  collected : list Match;
  log : list string;
  taken : list (nat * string)
}.

Fixpoint set_proc (i : nat) (p : proc) (ps : list proc) : list proc :=
  match ps, i with
  | [], _ => []
  | _ :: ps', O => p :: ps'
  | q :: ps', S j => q :: set_proc j p ps'
  end.

Definition poll (st : state) : state :=
  match queue st with
  | [] => st
  | m :: q =>
      mkState (procs st) (files_queue st) q (collected st ++ [m]) (log st)
        (taken st)
  end.

(** One step of child [i] in the loop of lines 279-285.  Here the call
    [files.get(block=False)] finds what is queued: the name at the head of
    the queue, or nothing, which raises [Empty] and ends the loop.  The
    call that raises [Empty] with names still queued is [miss_step]. *)
Definition child_step (fs : filesystem) (kws : list string) (i : nat)
    (st : state) : state :=
  match nth_error (procs st) i with
  | Some Idle =>
      match files_queue st with
      | [] =>                                              (* Empty: pass *)
          mkState (set_proc i Exited (procs st)) [] (queue st) (collected st)
            (log st) (taken st)
      | f :: fq =>
          let (evs, exc) := SearcherBase.search_words fs f kws in
          mkState (set_proc i (Busy evs exc) (procs st)) fq (queue st)
            (collected st) (log st) (taken st ++ [(i, f)])
      end
  | Some (Busy (e :: todo) exc) =>
      let (q, lg) := MultiProcess.emit e (queue st) (log st) in
      mkState (set_proc i (Busy todo exc) (procs st)) (files_queue st) q
        (collected st) lg (taken st)
  | Some (Busy [] None) =>
      mkState (set_proc i Idle (procs st)) (files_queue st) (queue st)
        (collected st) (log st) (taken st)
  | Some (Busy [] (Some err)) =>
      mkState (set_proc i Exited (procs st)) (files_queue st) (queue st)
        (collected st) (log st ++ [SearcherBase.worker_error_msg err])
        (taken st)
  | Some Exited => st
  | None => st
  end.

(** Child [i] is about to call [files.get(block=False)] and the call
    raises [Empty] whatever is queued (the lock is taken, or the pipe has
    not been fed yet): [except Empty: pass] ends the loop of the worker,
    and the names stay where they are.  A child that is inside
    [search_words] or gone is not at the call. *)
Definition miss_step (i : nat) (st : state) : state :=
  match nth_error (procs st) i with
  | Some Idle =>
      mkState (set_proc i Exited (procs st)) (files_queue st) (queue st)
        (collected st) (log st) (taken st)
  | _ => st
  end.

Definition step (fs : filesystem) (kws : list string) (a : actor)
    (st : state) : state :=
  match a with
  | Main => poll st
  | Child i => child_step fs kws i st
  | Miss i => miss_step i st
  end.

(** The loop of a child that runs alone from the head of the queue of
    files and finds at every call of [get] what is queued: its events, the
    files it takes and the files it leaves. *)
Fixpoint drain (fs : filesystem) (kws : list string) (fq : list string)
    : list event * list string * list string :=
  match fq with
  | [] => ([], [], [])
  | f :: fq' =>
      match SearcherBase.search_words fs f kws with
      | (evs, None) =>
          let '(evs', took, rest) := drain fs kws fq' in
          (evs ++ evs', f :: took, rest)
      | (evs, Some err) =>
          (evs ++ [LogError (SearcherBase.worker_error_msg err)], [f], fq')
      end
  end.

Definition run_proc (fs : filesystem) (kws : list string) (p : proc)
    (fq : list string) : list event * list string * list string :=
  match p with
  | Idle => drain fs kws fq
  | Busy todo None =>
      let '(evs, took, rest) := drain fs kws fq in (todo ++ evs, took, rest)
  | Busy todo (Some err) =>
      (todo ++ [LogError (SearcherBase.worker_error_msg err)], [], fq)
  | Exited => ([], [], fq)
  end.

(** The children from index [i] on run to their end, one after the
    other.  This is how a run goes on when its schedule is used up: from
    there on no call of [get] raises [Empty] before the queue is empty.
    A run in which one does so has the [Miss] steps in its schedule: the
    child is then gone when the schedule ends, and has nothing left to do
    here. *)
Fixpoint run_rest (fs : filesystem) (kws : list string) (i : nat)
    (ps : list proc) (st : state) : state :=
  match ps with
  | [] => st
  | p :: ps' =>
      let '(evs, took, rest) := run_proc fs kws p (files_queue st) in
      let (q, lg) := MultiProcess.emit_all evs (queue st) (log st) in
      run_rest fs kws (S i) ps'
        (mkState (set_proc i Exited (procs st)) rest q (collected st) lg
           (taken st ++ map (pair i) took))
  end.

(** The children end, then the last loop empties the queue. *)
Definition finish (fs : filesystem) (kws : list string) (st : state)
    : state :=
  let st' := run_rest fs kws 0 (procs st) st in
  mkState (procs st') (files_queue st') [] (collected st' ++ queue st')
    (log st') (taken st').

Definition run (fs : filesystem) (kws : list string) (sched : schedule)
    (st : state) : state :=
  finish fs kws (fold_left (fun st a => step fs kws a st) sched st).

(** Lines 292-302: [put] is called for every file, then [n_workers]
    children start.  [files_queue] holds the names that were put and not
    yet taken, those in the pipe and those still in the buffer of the
    feeder thread alike; that a child does not see the latter is a [Miss]
    step of the schedule. *)
Definition start (self : searcher) (n_workers : Z) : state :=
  mkState (map (fun _ => Idle) (Py.range n_workers)) (files self) []
    (results self) [] [].

Definition final (fs : filesystem) (sched : schedule) (self : searcher)
    (n_workers : Z) : state :=
  run fs (key_words self) sched (start self n_workers).

Definition start_workers (fs : filesystem) (sched : schedule)
    (self : searcher) (n_workers : Z) : outcome (list Match * list string) :=
  let st := final fs sched self n_workers in
  Return (collected st, log st).

End MultiProcess2.

(** [start_workers], by the class of [self]. *)
Definition start_workers (fs : filesystem) (sched : schedule)
    (self : searcher) (n_workers : Z) : outcome (list Match * list string) :=
  match cls self with
  | SingleThreadSearcher => Return (SingleThread.start_workers fs self)
  | MultiThreadSearcher => MultiThread.start_workers fs sched self n_workers
  | MultiProcessSearcher => MultiProcess.start_workers fs sched self n_workers
  | MultiProcessSearcher2 =>
      MultiProcess2.start_workers fs sched self n_workers
  end.

(** [search]: the workers run, then [self.results] is sorted.  The result
    is the searcher and the lines logged during the call. *)
Definition search (fs : filesystem) (sched : schedule) (self : searcher)
    (n_workers : Z) : outcome (searcher * list string) :=
  match start_workers fs sched self n_workers with
  | Return (raw, lg) => Return (with_results self (sort raw), lg)
  | Raise e => Raise e
  end.

(** ** A small file system to run the searchers on *)

Module Demo.

Definition fs : filesystem := fun path =>
  if String.eqb path "a.txt" then
    Readable ("The Go team builds tools." ++ String Text.LF "Rust is fast.")%string
  else if String.eqb path "b.txt" then Readable "Going, going, gone"
  else if String.eqb path "locked.txt" then Faulty "" "Permission denied"
  else Missing.

Definition kws : list string := ["go"; "fast"].

End Demo.

(** ** Notions of the statements *)

(** The matches of one file: the pushes of [search_words]. *)
Definition file_matches (fs : filesystem) (kws : list string)
    (f : string) : list Match :=
  SearcherBase.scan f kws 0 (file_lines (fs f)).

Definition all_matches (fs : filesystem) (kws : list string)
    (fl : list string) : list Match :=
  flat_map (file_matches fs kws) fl.

(** No file of the list raises anything but [FileNotFoundError]. *)
Definition no_faults (fs : filesystem) (fl : list string) : Prop :=
  Forall (fun f => is_faulty (fs f) = false) fl.

(** The file system in which the missing paths are empty files. *)
Definition missing_as_empty (fs : filesystem) : filesystem := fun path =>
  match fs path with
  | Missing => Readable EmptyString
  | f => f
  end.

(** The paths of the list that do not exist. *)
Definition missing_files (fs : filesystem) (fl : list string) : list string :=
  filter (fun f => is_missing (fs f)) fl.

(** [ceil(a / b)] for a positive [b]. *)
Definition ceil_div (a b : Z) : Z :=
  (a / b + if (a mod b =? 0)%Z then 0 else 1)%Z.

(** The result list of a call of [search], when it returns. *)
Definition results_of (o : outcome (searcher * list string))
    : option (list Match) :=
  match o with
  | Return (s, _) => Some (results s)
  | Raise _ => None
  end.

Definition log_of (o : outcome (searcher * list string))
    : option (list string) :=
  match o with
  | Return (_, lg) => Some lg
  | Raise _ => None
  end.

(** The files a worker opens: those up to the first one that faults. *)
Fixpoint reached (fs : filesystem) (fl : list string) : list string :=
  match fl with
  | [] => []
  | f :: rest => if is_faulty (fs f) then [f] else f :: reached fs rest
  end.

(** The files the child processes took from the queue of files. *)
Definition taken_files (st : MultiProcess2.state) : list string :=
  map snd (MultiProcess2.taken st).

(** The matches a child of [MultiProcessSearcher2] has found in the file it
    is in and has not put on the queue yet. *)
Definition pending_proc (p : MultiProcess2.proc) : list Match :=
  match p with
  | MultiProcess2.Busy todo _ => pushes todo
  | _ => []
  end.

Definition alive (p : MultiProcess2.proc) : bool :=
  match p with
  | MultiProcess2.Exited => false
  | _ => true
  end.

Definition will_fault (p : MultiProcess2.proc) : bool :=
  match p with
  | MultiProcess2.Busy _ (Some _) => true
  | _ => false
  end.

(** What every state of a run of [MultiProcessSearcher2] satisfies: the
    matches collected, on the queue and still to be put are those of the
    files taken so far (after the results [r0] the searcher started with),
    and the files taken and the files left are the files [fl] of the
    searcher, in order. *)
Definition dyn_inv (fs : filesystem) (kws : list string) (r0 : list Match)
    (fl : list string) (st : MultiProcess2.state) : Prop :=
  Permutation
    (MultiProcess2.collected st ++ MultiProcess2.queue st
     ++ flat_map pending_proc (MultiProcess2.procs st))
    (r0 ++ all_matches fs kws (taken_files st))
  /\ taken_files st ++ MultiProcess2.files_queue st = fl.

(** When no file faults and no call of [get] raises [Empty] with names
    still queued: no child is about to fault, and as long as files are left
    some child is there to take them. *)
Definition dyn_live (fs : filesystem) (st : MultiProcess2.state) : Prop :=
  no_faults fs (MultiProcess2.files_queue st)
  /\ Forall (fun p => will_fault p = false) (MultiProcess2.procs st)
  /\ (MultiProcess2.files_queue st = []
      \/ existsb alive (MultiProcess2.procs st) = true).

(** What is left of [dyn_live] when calls of [get] may raise [Empty] with
    names still queued. *)
Definition dyn_sound (fs : filesystem) (st : MultiProcess2.state) : Prop :=
  no_faults fs (MultiProcess2.files_queue st)
  /\ Forall (fun p => will_fault p = false) (MultiProcess2.procs st).

(** The calls of [search] that divide by zero in [start_workers]. *)
Definition divides_by_zero (self : searcher) (n_workers : Z) : bool :=
  match cls self with
  | MultiThreadSearcher | MultiProcessSearcher => (n_workers =? 0)%Z
  | _ => false
  end.

(** The lexicographic order written out: by keyword, then by file name,
    then by line number. *)
Definition lexicographic_le (a b : Match) : Prop :=
  String.ltb (kword a) (kword b) = true \/
  (kword a = kword b /\
   (String.ltb (fname a) (fname b) = true \/
    (fname a = fname b /\ (lineno a <= lineno b)%nat))).

Definition match_eq_dec (a b : Match) : {a = b} + {a <> b}.
Proof.
  decide equality; [apply Nat.eq_dec|].
  decide equality; apply string_dec.
Defined.

(** The lines a child of [MultiProcessSearcher2] has still to log for the
    file it is in. *)
Definition pending_log (p : MultiProcess2.proc) : list string :=
  match p with
  | MultiProcess2.Busy todo _ => logged todo
  | _ => []
  end.

(** When no file faults, the lines logged and still to be logged by the
    children [ps] are the "not found" lines of the missing files taken so
    far. *)
Definition dyn_log_inv (fs : filesystem) (ps : list MultiProcess2.proc)
    (st : MultiProcess2.state) : Prop :=
  Permutation
    (MultiProcess2.log st ++ flat_map pending_log ps)
    (map SearcherBase.not_found_msg (missing_files fs (taken_files st))).

(** Two files that differ at most in the case of their letters. *)
Definition same_but_case (a b : file) : Prop :=
  match a, b with
  | Missing, Missing => True
  | Readable c1, Readable c2 => Text.lower c1 = Text.lower c2
  | Faulty c1 e1, Faulty c2 e2 => Text.lower c1 = Text.lower c2 /\ e1 = e2
  | _, _ => False
  end.

(** The demonstration files in capital letters. *)
Definition shouting_fs : filesystem := fun path =>
  if String.eqb path "a.txt" then
    Readable ("THE GO TEAM BUILDS TOOLS." ++ String Text.LF "RUST IS FAST.")%string
  else if String.eqb path "b.txt" then Readable "GOING, GOING, GONE"
  else if String.eqb path "locked.txt" then Faulty "" "Permission denied"
  else Missing.

(** How many files of a list raise another exception than
    [FileNotFoundError]. *)
Definition faulty_count (fs : filesystem) (fl : list string) : nat :=
  List.length (filter (fun f => is_faulty (fs f)) fl).

(** A child of [MultiProcessSearcher2] that will ask for another file. *)
Definition healthy (p : MultiProcess2.proc) : bool :=
  match p with
  | MultiProcess2.Idle => true
  | MultiProcess2.Busy _ None => true
  | _ => false
  end.

Definition healthy_count (ps : list MultiProcess2.proc) : nat :=
  List.length (filter healthy ps).

(** There are more children that go on than faulting files left. *)
Definition dyn_spare (fs : filesystem) (ps : list MultiProcess2.proc)
    (fq : list string) : Prop :=
  fq = [] \/ (faulty_count fs fq < healthy_count ps)%nat.

Definition is_static (c : strategy) : bool :=
  match c with
  | MultiThreadSearcher | MultiProcessSearcher => true
  | _ => false
  end.

(** [MultiProcessSearcher2] with a single child, as long as no call of
    [get] raises [Empty] with names still queued: the files taken so far,
    and those the child will still reach if it goes on, are the files a
    worker reaches that goes through the list alone. *)
Definition dyn_alone (fs : filesystem) (fl : list string)
    (st : MultiProcess2.state) : Prop :=
  exists p,
    MultiProcess2.procs st = [p] /\
    reached fs fl
    = taken_files st
      ++ (if healthy p then reached fs (MultiProcess2.files_queue st) else []).

(** ** Strings of Python used by the tests and the data generator *)

Module PyStr.

(** [str(n)] for a natural number: its decimal digits. *)
Definition str_nat (n : nat) : string :=
  NilZero.string_of_uint (Nat.to_uint n).

(** [str(z)] for an integer. *)
Definition str_int (z : Z) : string :=
  if (z <? 0)%Z then String "-" (str_nat (Z.to_nat (- z)))
  else str_nat (Z.to_nat z).

(** [s.replace(c, "")] for a string [c] of one character. *)
Fixpoint remove_char (c : ascii) (s : string) : string :=
  match s with
  | EmptyString => EmptyString
  | String a s' =>
      if Ascii.eqb a c then remove_char c s' else String a (remove_char c s')
  end.

(** The white space of [str.split()] among the ASCII characters: tab to
    carriage return, the four separators 28-31 and the space. *)
Definition is_space (c : ascii) : bool :=
  let n := nat_of_ascii c in
  ((9 <=? n)%nat && (n <=? 13)%nat) || ((28 <=? n)%nat && (n <=? 32)%nat).

Definition cons_char (c : ascii) (ws : list string) : list string :=
  match ws with
  | [] => [String c EmptyString]
  | w :: ws' => String c w :: ws'
  end.

(** [s.split()]: the maximal runs of characters that are not white
    space. *)
Fixpoint split (s : string) : list string :=
  match s with
  | EmptyString => []
  | String c s' =>
      if is_space c then split s'
      else
        match s' with
        | EmptyString => [String c EmptyString]
        | String c' _ =>
            if is_space c' then String c EmptyString :: split s'
            else cons_char c (split s')
        end
  end.

(** [f.read()] on a file opened in text mode: the lines, put together. *)
Definition read_text (content : string) : string :=
  String.concat EmptyString (Text.readlines content).

(** Every character of [s] satisfies [p]. *)
Fixpoint all_chars (p : ascii -> bool) (s : string) : bool :=
  match s with
  | EmptyString => true
  | String c s' => p c && all_chars p s'
  end.

End PyStr.

(** ** [test.py]: saving the results *)

Module Test.

(** Lines 53-54: the line of one result. *)
Definition result_line (m : Match) : string :=
  (kword m ++ " " ++ fname m ++ " " ++ PyStr.str_nat (lineno m))%string.

(** Lines 51-56: the text that [save_results] writes. *)
Definition results_text (results : list Match) : string :=
  String.concat (String Text.LF EmptyString) (map result_line results).

(** [save_results]: the file written and its text. *)
Definition save_results (fname : string) (results : list Match)
    : string * string :=
  (fname, results_text results).

(** A string without a space and without a line feed. *)
Definition plain (s : string) : bool :=
  PyStr.all_chars
    (fun c => negb (Ascii.eqb c " ") && negb (Ascii.eqb c Text.LF)) s.

Definition plain_match (m : Match) : Prop :=
  plain (kword m) = true /\ plain (fname m) = true.

End Test.

(** ** [prepare_data.py]: the file of keywords *)

Module PrepareData.

(** Line 40: a word without its full stops and commas, in lower case. *)
Definition normal (w : string) : string :=
  Text.lower (PyStr.remove_char "," (PyStr.remove_char "." w)).

(** Lines 38-41: the text written to the file of keywords, for the words
    of [set(kwords)] in the order in which the set gives them. *)
Definition key_words_text (words : list string) : string :=
  Text.lower
    (PyStr.remove_char ","
       (PyStr.remove_char "."
          (String.concat (String Text.LF EmptyString) words))).

(** A word as [str.split()] gives it: without white space. *)
Definition is_word (w : string) : bool :=
  PyStr.all_chars (fun c => negb (PyStr.is_space c)) w.

End PrepareData.

(** ** [print_results] and [run_tests] *)

Module RunTests.

Inductive level : Type :=
| INFO
| ERROR.

(** A call of [logging.info] or [logging.error].  The line of
    [print_results] that shows the time is kept apart: it ends with
    [round(self.time, 4)], a float taken from the clock, of which only the
    class name before it is kept. *)
Inductive record : Type :=
| Logged (lv : level) (msg : string)
| LoggedTime (class_name : string).

(** [self.__class__.__name__] *)
Definition class_name (c : strategy) : string :=
  match c with
  | SingleThreadSearcher => "SingleThreadSearcher"
  | MultiThreadSearcher => "MultiThreadSearcher"
  | MultiProcessSearcher => "MultiProcessSearcher"
  | MultiProcessSearcher2 => "MultiProcessSearcher2"
  end.

Definition found_line (m : Match) : string :=
  ("'" ++ kword m ++ "' found in " ++ fname m ++ "["
   ++ PyStr.str_nat (lineno m) ++ "]")%string.

(** [SearcherBase.print_results], lines 93-97 of [searcher.py]. *)
Definition print_results (self : searcher) (detailed : bool) : list record :=
  [LoggedTime (class_name (cls self));
   Logged INFO
     ("Total number of found words: "
      ++ PyStr.str_nat (List.length (results self)))%string]
  ++ (if detailed then map (fun m => Logged INFO (found_line m)) (results self)
      else []).

(** What ends [run_tests] early. *)
Inductive failure : Type :=
| SearchRaised (e : exn)
| KeyWordsNotFound
| KeyWordsUnreadable (err : string)
| WriteFailed (path err : string)
| FormatNotModelled.

(** The files as they are now, the records logged and the files written
    so far. *)
Record progress : Type := mkProgress {
  fs_now : filesystem;
  records : list record;
  written : list (string * string)
}.

(** A step of [run_tests]: it gives a value or ends the run, and moves the
    progress on. *)
Definition M (A : Type) : Type := progress -> (A + failure) * progress.

Definition ret {A : Type} (a : A) : M A := fun p => (inl a, p).

Definition bind {A B : Type} (c : M A) (k : A -> M B) : M B := fun p =>
  match c p with
  | (inl a, p') => k a p'
  | (inr f, p') => (inr f, p')
  end.

Definition fail {A : Type} (f : failure) : M A := fun p => (inr f, p).

Definition log_records (rs : list record) : M unit := fun p =>
  (inl tt, mkProgress (fs_now p) (records p ++ rs) (written p)).

Definition log_info (msg : string) : M unit := log_records [Logged INFO msg].

Definition log_error (msg : string) : M unit := log_records [Logged ERROR msg].

Definition put_file (fs : filesystem) (path text : string) : filesystem :=
  fun p => if String.eqb p path then Readable text else fs p.

(** [save_results]: [open(fname, "w")] raises [err] when [write_error]
    says so; otherwise the file holds the text from now on. *)
Definition save (write_error : string -> option string) (path : string)
    (results : list Match) : M unit := fun p =>
  match write_error path with
  | Some err => (inr (WriteFailed path err), p)
  | None =>
      let (name, text) := Test.save_results path results in
      (inl tt,
       mkProgress (put_file (fs_now p) name text) (records p)
         (written p ++ [(name, text)]))
  end.

(** Lines 106-107: the keywords are the words of the file of keywords. *)
Definition read_key_words (path : string) : M (list string) := fun p =>
  match fs_now p path with
  | Missing => (inr KeyWordsNotFound, p)
  | Faulty _ err => (inr (KeyWordsUnreadable err), p)
  | Readable content => (inl (PyStr.split (PyStr.read_text content)), p)
  end.

Definition has_brace (s : string) : bool :=
  negb
    (PyStr.all_chars
       (fun c => negb (Ascii.eqb c "{") && negb (Ascii.eqb c "}")) s).

Definition data_file_name (test_name : string) (i : Z) : string :=
  (test_name ++ "_data_" ++ PyStr.str_int i ++ ".txt")%string.

(** Lines 95 and 108: [(test_name + "_data_{}.txt").format(i)] for [i] in
    [range(files_number)].  What [str.format] does with braces in
    [test_name] is not modelled. *)
Definition data_files (test_name : string) (files_number : Z)
    : M (list string) :=
  match Py.range files_number with
  | [] => ret []
  | indices =>
      if has_brace test_name then fail FormatNotModelled
      else ret (map (data_file_name test_name) indices)
  end.

(** [Searcher(files, key_words).search(n_workers)], what the workers log
    going to the records, followed by [print_results()]. *)
Definition run_search (c : strategy) (sched : schedule)
    (files key_words : list string) (n_workers : Z) : M searcher := fun p =>
  match search (fs_now p) sched (init c files key_words) n_workers with
  | Raise e => (inr (SearchRaised e), p)
  | Return (s, lg) =>
      (inl s,
       mkProgress (fs_now p)
         (records p ++ map (Logged ERROR) lg ++ print_results s false)
         (written p))
  end.

Definition results_differ (a b : searcher) : bool :=
  if list_eq_dec match_eq_dec (results a) (results b) then false else true.

(** Lines 120-128, and the like for the other two searchers. *)
Definition compare_results (write_error : string -> option string)
    (test_name infix : string) (other_class : strategy)
    (single other : searcher) : M bool :=
  if results_differ single other then
    bind (save write_error (test_name ++ infix ++ "_results.txt")%string
            (results other)) (fun _ =>
    bind (log_error
            (class_name other_class
             ++ " results are not equal to SingleThreadSearcher results")%string)
         (fun _ => ret true))
  else ret false.

(** [run_tests] with [generate_data=False], its default: the data and the
    file of keywords are those of the file system.  The three schedules are
    those of the threaded and the two multi-process searchers. *)
Definition run_tests (write_error : string -> option string)
    (sched1 sched2 sched3 : schedule)
    (files_number lines_number_max n_workers : Z) (test_name : string)
    : M unit :=
  bind (log_info ("Run test " ++ test_name)%string) (fun _ =>
  bind (log_info
          ("files_number: " ++ PyStr.str_int files_number
           ++ ", lines_number_max: " ++ PyStr.str_int lines_number_max
           ++ ", n_workers: " ++ PyStr.str_int n_workers)%string) (fun _ =>
  bind (read_key_words (test_name ++ "_key_words.txt")%string)
       (fun key_words =>
  bind (data_files test_name files_number) (fun files =>
  bind (run_search SingleThreadSearcher [] files key_words n_workers)
       (fun single =>
  bind (run_search MultiThreadSearcher sched1 files key_words n_workers)
       (fun multi_thread =>
  bind (compare_results write_error test_name "_multi_thread_searcher"
          MultiThreadSearcher single multi_thread) (fun failed1 =>
  bind (run_search MultiProcessSearcher sched2 files key_words n_workers)
       (fun multi_process =>
  bind (compare_results write_error test_name "_multi_process_searcher"
          MultiProcessSearcher single multi_process) (fun failed2 =>
  bind (run_search MultiProcessSearcher2 sched3 files key_words n_workers)
       (fun multi_process2 =>
  bind (compare_results write_error test_name "_multi_process_searcher2"
          MultiProcessSearcher2 single multi_process2) (fun failed3 =>
  let failed := failed1 || failed2 || failed3 in
  bind (if failed
        then save write_error
               (test_name ++ "_single_thread_searcher_results.txt")%string
               (results single)
        else ret tt) (fun _ =>
  log_info
    ("Test '" ++ test_name ++ "': "
     ++ (if failed then "FAILED" else "PASSED")
     ++ String Text.LF EmptyString)%string)))))))))))).

(** The state in which [run_tests] starts. *)
Definition start (fs : filesystem) : progress := mkProgress fs [] [].

End RunTests.

(** The files of a test named "T": the keywords, two data files and, for
    [files_number] = 3, a third one that is missing. *)
Definition test_fs : filesystem := fun path =>
  if String.eqb path "T_key_words.txt" then
    Readable ("go" ++ String Text.LF "fast")%string
  else if String.eqb path "T_data_0.txt" then
    Readable ("The Go team builds tools." ++ String Text.LF "Rust is fast.")%string
  else if String.eqb path "T_data_1.txt" then Readable "Going, going, gone"
  else Missing.

(** The files that [k] workers taking turns at one queue get through when
    each of them goes on until the queue is empty or a file faults: the list
    up to its [k]-th file that faults. *)
Fixpoint reached_by (fs : filesystem) (k : nat) (fl : list string)
    : list string :=
  match k, fl with
  | O, _ => []
  | _, [] => []
  | S k', f :: rest =>
      f :: (if is_faulty (fs f) then reached_by fs k' rest
            else reached_by fs k rest)
  end.

(** In every state of [MultiProcessSearcher2] over the files [fl] with [n]
    children, as long as no call of [get] raises [Empty] with names still
    queued: the files taken, and then those that the children still going
    will get through, are the files that [n] workers get through. *)
Definition dyn_upto (fs : filesystem) (n : nat) (fl : list string)
    (st : MultiProcess2.state) : Prop :=
  reached_by fs n fl
  = taken_files st
    ++ reached_by fs (healthy_count (MultiProcess2.procs st))
         (MultiProcess2.files_queue st).


(** A schedule in which no call of [files.get(block=False)] raises [Empty]
    while file names are still queued. *)
Definition is_miss (a : actor) : bool :=
  match a with
  | Miss _ => true
  | _ => false
  end.

Definition quiet (sched : schedule) : Prop :=
  Forall (fun a => is_miss a = false) sched.

(** The runs of a searcher of class [c] in which that does not happen:
    every run of the three searchers that have no queue of files. *)
Definition steady (c : strategy) (sched : schedule) : Prop :=
  c = MultiProcessSearcher2 -> quiet sched.

(** The files that a searcher of class [c] opens in such a run. *)
Definition searched_files (fs : filesystem) (c : strategy) (n_workers : Z)
    (fl : list string) : list string :=
  match c with
  | SingleThreadSearcher => reached fs fl
  | MultiThreadSearcher | MultiProcessSearcher =>
      flat_map (reached fs) (partition fl n_workers)
  | MultiProcessSearcher2 => reached_by fs (Z.to_nat n_workers) fl
  end.

(** ** The order of matches *)

Section Comparisons.

Lemma ascii_compare_refl (a : ascii) : Ascii.compare a a = Eq.
Proof. unfold Ascii.compare. apply N.compare_refl. Qed.

Lemma ascii_compare_trans (a b c : ascii) :
  Ascii.compare a b = Lt -> Ascii.compare b c = Lt -> Ascii.compare a c = Lt.
Proof.
  unfold Ascii.compare. rewrite !N.compare_lt_iff. lia.
Qed.

Lemma string_compare_refl (s : string) : String.compare s s = Eq.
Proof.
  induction s as [|a s IH]; simpl; [reflexivity|].
  now rewrite ascii_compare_refl.
Qed.

Lemma string_compare_trans (s1 s2 s3 : string) :
  String.compare s1 s2 = Lt -> String.compare s2 s3 = Lt ->
  String.compare s1 s3 = Lt.
Proof.
  revert s2 s3.
  induction s1 as [|a s1 IH]; intros [|b s2] [|c s3]; simpl;
    try discriminate; try reflexivity.
  destruct (Ascii.compare a b) eqn:Hab; try discriminate;
    destruct (Ascii.compare b c) eqn:Hbc; try discriminate; intros H1 H2.
  - apply Ascii.compare_eq_iff in Hab, Hbc. subst.
    rewrite ascii_compare_refl. eauto.
  - apply Ascii.compare_eq_iff in Hab. subst. now rewrite Hbc.
  - apply Ascii.compare_eq_iff in Hbc. subst. now rewrite Hab.
  - now rewrite (ascii_compare_trans a b c).
Qed.

#[export] Instance string_order : TotalOrder String.compare.
Proof.
  split.
  - apply String.compare_eq_iff.
  - apply string_compare_refl.
  - intros x y. apply String.compare_antisym.
  - apply string_compare_trans.
Qed.

#[export] Instance nat_order : TotalOrder Nat.compare.
Proof.
  split.
  - intros x y. apply Nat.compare_eq.
  - apply Nat.compare_refl.
  - intros x y. apply Nat.compare_antisym.
  - intros x y z. rewrite !Nat.compare_lt_iff. lia.
Qed.

#[export] Instance lex_order {A B : Type} (cA : A -> A -> comparison)
    (cB : B -> B -> comparison) `{!TotalOrder cA} `{!TotalOrder cB} :
  TotalOrder (lex cA cB).
Proof.
  split; unfold lex.
  - intros [a b] [a' b']; simpl.
    destruct (cA a a') eqn:Ha; try discriminate.
    intros Hb. apply cmp_eq in Ha, Hb. now subst.
  - intros [a b]; simpl. now rewrite !cmp_refl.
  - intros [a b] [a' b']; simpl. rewrite (cmp_antisym a a').
    destruct (cA a a'); simpl; auto using cmp_antisym.
  - intros [a b] [a' b'] [a'' b'']; simpl.
    destruct (cA a a') eqn:H1; try discriminate;
      destruct (cA a' a'') eqn:H2; try discriminate; intros Hb Hb'.
    + apply cmp_eq in H1, H2. subst. rewrite cmp_refl. eauto using cmp_trans.
    + apply cmp_eq in H1. subst. now rewrite H2.
    + apply cmp_eq in H2. subst. now rewrite H1.
    + now rewrite (cmp_trans _ _ _ H1 H2).
Qed.

#[export] Instance match_order : TotalOrder match_compare.
Proof. unfold match_compare. typeclasses eauto. Qed.

End Comparisons.

Lemma match_le_refl (a : Match) : match_le a a.
Proof. unfold match_le, match_leb. now rewrite cmp_refl. Qed.

Lemma match_le_total (a b : Match) : match_le a b \/ match_le b a.
Proof.
  unfold match_le, match_leb. rewrite (cmp_antisym a b).
  destruct (match_compare a b); simpl; auto.
Qed.

Lemma match_le_antisym (a b : Match) : match_le a b -> match_le b a -> a = b.
Proof.
  unfold match_le, match_leb. rewrite (cmp_antisym a b).
  destruct (match_compare a b) eqn:H; simpl; try discriminate.
  intros _ _. now apply cmp_eq in H.
Qed.

Lemma match_le_trans (a b c : Match) :
  match_le a b -> match_le b c -> match_le a c.
Proof.
  unfold match_le, match_leb.
  destruct (match_compare a b) eqn:H1; try discriminate;
    destruct (match_compare b c) eqn:H2; try discriminate; intros _ _.
  - apply cmp_eq in H1. subst. now rewrite H2.
  - apply cmp_eq in H1. subst. now rewrite H2.
  - apply cmp_eq in H2. subst. now rewrite H1.
  - now rewrite (cmp_trans _ _ _ H1 H2).
Qed.

Lemma match_leb_false (a b : Match) : match_leb a b = false -> match_le b a.
Proof.
  intros H. destruct (match_le_total a b) as [H'|H']; [|exact H'].
  unfold match_le in H'. congruence.
Qed.

(** ** The sort *)

Lemma insert_perm (m : Match) (l : list Match) :
  Permutation (insert m l) (m :: l).
Proof.
  induction l as [|x l IH]; simpl; [reflexivity|].
  destruct (match_leb m x); [reflexivity|].
  rewrite IH. apply perm_swap.
Qed.

Lemma sort_perm (l : list Match) : Permutation (sort l) l.
Proof.
  induction l as [|x l IH]; simpl; [reflexivity|].
  rewrite insert_perm. now constructor.
Qed.

Lemma insert_sorted (m : Match) (l : list Match) :
  StronglySorted match_le l -> StronglySorted match_le (insert m l).
Proof.
  induction 1 as [|x l Hl IH Hx]; simpl.
  - repeat constructor.
  - destruct (match_leb m x) eqn:Hmx.
    + constructor; [now constructor|].
      constructor; [exact Hmx|].
      eapply Forall_impl; [|exact Hx].
      intros y Hy. eapply match_le_trans; eassumption.
    + constructor; [exact IH|].
      eapply Permutation_Forall.
      * symmetry. apply insert_perm.
      * constructor; [now apply match_leb_false|exact Hx].
Qed.

Lemma sort_sorted (l : list Match) : StronglySorted match_le (sort l).
Proof.
  induction l as [|x l IH]; simpl; [constructor|].
  now apply insert_sorted.
Qed.

Lemma sorted_perm_eq (l1 l2 : list Match) :
  StronglySorted match_le l1 -> StronglySorted match_le l2 ->
  Permutation l1 l2 -> l1 = l2.
Proof.
  intros H1. revert l2.
  induction H1 as [|a l1 Hl1 IH Ha]; intros l2 H2 HP.
  - apply Permutation_nil in HP. now subst.
  - destruct H2 as [|b l2 Hl2 Hb].
    + symmetry in HP. now apply Permutation_nil in HP.
    + assert (a = b) as ->.
      { apply match_le_antisym.
        - assert (Hin : In b (a :: l1))
            by (eapply Permutation_in; [symmetry; exact HP|now left]).
          destruct Hin as [->|Hin]; [apply match_le_refl|].
          rewrite Forall_forall in Ha. now apply Ha.
        - assert (Hin : In a (b :: l2))
            by (eapply Permutation_in; [exact HP|now left]).
          destruct Hin as [->|Hin]; [apply match_le_refl|].
          rewrite Forall_forall in Hb. now apply Hb. }
      f_equal. apply IH; [exact Hl2|].
      eapply Permutation_cons_inv. exact HP.
Qed.

Lemma sort_unique (l1 l2 : list Match) :
  Permutation l1 l2 -> sort l1 = sort l2.
Proof.
  intros HP. apply sorted_perm_eq; try apply sort_sorted.
  now rewrite !sort_perm.
Qed.

Lemma sort_sorted_id (l : list Match) :
  StronglySorted match_le l -> sort l = l.
Proof.
  intros H. apply sorted_perm_eq; [apply sort_sorted|exact H|apply sort_perm].
Qed.

Lemma sort_idem (l : list Match) : sort (sort l) = sort l.
Proof. apply sort_sorted_id, sort_sorted. Qed.

(** ** Events *)

Lemma pushes_app (a b : list event) : pushes (a ++ b) = pushes a ++ pushes b.
Proof. unfold pushes. apply flat_map_app. Qed.

Lemma logged_app (a b : list event) : logged (a ++ b) = logged a ++ logged b.
Proof. unfold logged. apply flat_map_app. Qed.

Lemma pushes_cons (e : event) (evs : list event) :
  pushes (e :: evs) = pushes [e] ++ pushes evs.
Proof. apply (pushes_app [e] evs). Qed.

Lemma logged_cons (e : event) (evs : list event) :
  logged (e :: evs) = logged [e] ++ logged evs.
Proof. apply (logged_app [e] evs). Qed.

Lemma pushes_map_Push (l : list Match) : pushes (map Push l) = l.
Proof. induction l as [|x l IH]; simpl; congruence. Qed.

Lemma logged_map_Push (l : list Match) : logged (map Push l) = [].
Proof. induction l as [|x l IH]; simpl; congruence. Qed.

Lemma perform_all_spec (evs : list event) (r : list Match) (lg : list string) :
  SingleThread.perform_all evs (r, lg) = (r ++ pushes evs, lg ++ logged evs).
Proof.
  revert r lg. induction evs as [|e evs IH]; intros r lg; simpl.
  - now rewrite !app_nil_r.
  - unfold SingleThread.perform_all in *. simpl.
    destruct e as [m|s]; simpl; rewrite IH; simpl;
      now rewrite <- ?app_assoc.
Qed.

Lemma take_perm (i : nat) (ws ws' : list (list event)) (e : event) :
  take i ws = Some (e, ws') ->
  Permutation (List.concat ws) (e :: List.concat ws').
Proof.
  revert i ws'. induction ws as [|w ws IH]; intros [|i] ws'; simpl;
    try discriminate.
  - destruct w as [|e' w]; [discriminate|].
    intros [= -> <-]. reflexivity.
  - destruct (take i ws) as [[e' ws'']|] eqn:Ht; [|discriminate].
    intros [= -> <-]. simpl.
    rewrite (IH _ _ Ht). symmetry. apply Permutation_middle.
Qed.

Lemma pushes_perm (a b : list event) :
  Permutation a b -> Permutation (pushes a) (pushes b).
Proof.
  induction 1 as [|x a b _ IH|x y a|a b c _ IH1 _ IH2]; simpl.
  - reflexivity.
  - now apply Permutation_app_head.
  - destruct x, y; simpl; try reflexivity. apply perm_swap.
  - now transitivity (pushes b).
Qed.

Lemma logged_perm (a b : list event) :
  Permutation a b -> Permutation (logged a) (logged b).
Proof.
  induction 1 as [|x a b _ IH|x y a|a b c _ IH1 _ IH2]; simpl.
  - reflexivity.
  - now apply Permutation_app_head.
  - destruct x, y; simpl; try reflexivity. apply perm_swap.
  - now transitivity (logged b).
Qed.

(** ** Every schedule delivers every event *)

Lemma perform_spec (e : event) (r : list Match) (lg : list string) :
  SingleThread.perform e (r, lg) = (r ++ pushes [e], lg ++ logged [e]).
Proof. destruct e; simpl; now rewrite !app_nil_r. Qed.

Lemma thread_run_spec (sched : schedule) :
  forall (threads : list (list event)) (r : list Match) (lg : list string),
  exists evs,
    Permutation evs (List.concat threads) /\
    MultiThread.run sched threads (r, lg)
    = (r ++ pushes evs, lg ++ logged evs).
Proof.
  induction sched as [|a sched IH]; intros threads r lg; simpl.
  - exists (List.concat threads). split; [reflexivity|].
    apply perform_all_spec.
  - destruct a as [|i|j]; [apply IH| |apply IH].
    destruct (take i threads) as [[e threads']|] eqn:Ht; [|apply IH].
    rewrite perform_spec.
    destruct (IH threads' (r ++ pushes [e]) (lg ++ logged [e]))
      as (evs & HP & Hrun).
    exists (e :: evs). split.
    + rewrite (take_perm _ _ _ _ Ht). now constructor.
    + rewrite Hrun, (pushes_cons e evs), (logged_cons e evs).
      now rewrite !app_assoc.
Qed.

Lemma emit_spec (e : event) (q : list Match) (lg : list string) :
  MultiProcess.emit e q lg = (q ++ pushes [e], lg ++ logged [e]).
Proof. destruct e; simpl; now rewrite !app_nil_r. Qed.

Lemma process_run_spec (sched : schedule) :
  forall st : MultiProcess.state,
  exists evs,
    Permutation evs (List.concat (MultiProcess.children st)) /\
    MultiProcess.run sched st
    = (MultiProcess.collected st ++ MultiProcess.queue st ++ pushes evs,
       MultiProcess.log st ++ logged evs).
Proof.
  unfold MultiProcess.run.
  induction sched as [|a sched IH]; intros st; simpl.
  - exists (List.concat (MultiProcess.children st)). split; [reflexivity|].
    reflexivity.
  - destruct a as [|i|j]; simpl; [| |apply IH].
    + unfold MultiProcess.poll.
      destruct (MultiProcess.queue st) as [|m q] eqn:Hq.
      * destruct (IH st) as (evs & HP & Hrun). exists evs.
        now rewrite Hrun, Hq.
      * match goal with |- context [fold_left _ sched ?s] =>
          destruct (IH s) as (evs & HP & Hrun) end.
        exists evs. cbn [MultiProcess.children MultiProcess.queue
          MultiProcess.collected MultiProcess.log] in *. split; [exact HP|].
        rewrite Hrun. now rewrite <- !app_assoc.
    + destruct (take i (MultiProcess.children st)) as [[e cs]|] eqn:Ht;
        [|apply IH].
      rewrite emit_spec.
      match goal with |- context [fold_left _ sched ?s] =>
        destruct (IH s) as (evs & HP & Hrun) end.
      exists (e :: evs). cbn [MultiProcess.children MultiProcess.queue
        MultiProcess.collected MultiProcess.log] in *. split.
      * rewrite (take_perm _ _ _ _ Ht). now constructor.
      * rewrite Hrun, (pushes_cons e evs), (logged_cons e evs).
        now rewrite <- !app_assoc.
Qed.

(** ** Ranges and slices *)

Lemma range_length (n : Z) : List.length (Py.range n) = Z.to_nat n.
Proof. unfold Py.range. now rewrite length_map, length_seq. Qed.

Lemma range_nonpos (n : Z) : (n <= 0)%Z -> Py.range n = [].
Proof.
  intros H. unfold Py.range. replace (Z.to_nat n) with 0%nat by lia.
  reflexivity.
Qed.

Lemma in_range (n i : Z) : In i (Py.range n) <-> (0 <= i < n)%Z.
Proof.
  unfold Py.range. rewrite in_map_iff. split.
  - intros (k & <- & Hk). apply in_seq in Hk. lia.
  - intros H. exists (Z.to_nat i). split; [lia|]. apply in_seq. lia.
Qed.

Lemma slice_nonneg {A : Type} (l : list A) (lo hi : Z) :
  (0 <= lo <= hi)%Z ->
  Py.slice l lo hi
  = firstn (Z.to_nat hi - Z.to_nat lo) (skipn (Z.to_nat lo) l).
Proof.
  intros H. unfold Py.slice, Py.clamp.
  destruct (Z.ltb_spec lo 0); [lia|].
  destruct (Z.ltb_spec hi 0); [lia|].
  set (len := Z.of_nat (List.length l)).
  destruct (Z.le_gt_cases lo len) as [Hlo|Hlo].
  - rewrite (Z.min_l lo len) by lia.
    destruct (Z.le_gt_cases hi len) as [Hhi|Hhi].
    + rewrite (Z.min_l hi len) by lia. f_equal. lia.
    + rewrite (Z.min_r hi len) by lia.
      rewrite !firstn_all2; try reflexivity;
        rewrite length_skipn; unfold len in *; lia.
  - rewrite (Z.min_r lo len), (Z.min_r hi len) by lia.
    rewrite !skipn_all2 by (unfold len in *; lia).
    now rewrite !firstn_nil.
Qed.

(** ** The static partition *)

Lemma firstn_plus {A : Type} (a b : nat) (l : list A) :
  firstn (a + b) l = firstn a l ++ firstn b (skipn a l).
Proof.
  revert l. induction a as [|a IH]; intros [|x l]; simpl;
    rewrite ?firstn_nil; try reflexivity.
  now rewrite IH.
Qed.

Lemma chunks_concat {A : Type} (c : nat) (l : list A) (n : nat) :
  List.concat (map (fun k => firstn c (skipn (k * c) l)) (seq 0 n))
  = firstn (n * c) l.
Proof.
  induction n as [|n IH]; [reflexivity|].
  rewrite seq_S, map_app, concat_app, IH. simpl.
  rewrite app_nil_r, <- firstn_plus. f_equal. lia.
Qed.

Lemma ceil_div_spec (a b : Z) :
  (0 < b)%Z -> (b * (ceil_div a b - 1) < a <= b * ceil_div a b)%Z.
Proof.
  intros Hb. unfold ceil_div.
  pose proof (Z.div_mod a b ltac:(lia)) as Hdm.
  pose proof (Z.mod_pos_bound a b Hb) as Hm.
  destruct (Z.eqb_spec (a mod b) 0); nia.
Qed.

Lemma files_per_worker_ceil (F : nat) (n : Z) :
  (1 <= n)%Z -> files_per_worker F n = ceil_div (Z.of_nat F) n.
Proof.
  intros Hn. unfold files_per_worker, ceil_div.
  set (a := Z.of_nat F).
  pose proof (Z.div_mod a n ltac:(lia)) as Hdm.
  pose proof (Z.mod_pos_bound a n ltac:(lia)) as Hm.
  destruct (Z.eqb_spec (a mod n) 0) as [H0|H0].
  - symmetry. apply (Z.div_unique _ _ _ (n - 1)); lia.
  - symmetry. apply (Z.div_unique _ _ _ (a mod n - 1)); lia.
Qed.

Lemma files_per_worker_bounds (F : nat) (n : Z) :
  (1 <= n)%Z ->
  (0 <= files_per_worker F n)%Z /\
  (Z.of_nat F <= n * files_per_worker F n)%Z /\
  (n * (files_per_worker F n - 1) < Z.of_nat F)%Z.
Proof.
  intros Hn. rewrite files_per_worker_ceil by exact Hn.
  pose proof (ceil_div_spec (Z.of_nat F) n ltac:(lia)) as H.
  split; [|lia]. nia.
Qed.

Lemma worker_files_chunk (fl : list string) (n i : Z) :
  (1 <= n)%Z -> (0 <= i)%Z ->
  worker_files fl n i
  = firstn (Z.to_nat (files_per_worker (List.length fl) n))
      (skipn (Z.to_nat i * Z.to_nat (files_per_worker (List.length fl) n)) fl).
Proof.
  intros Hn Hi. unfold worker_files.
  destruct (files_per_worker_bounds (List.length fl) n Hn) as (Hc & _).
  set (c := files_per_worker (List.length fl) n) in *.
  rewrite slice_nonneg by nia.
  f_equal; [nia|]. f_equal. nia.
Qed.

Lemma partition_chunks (fl : list string) (n : Z) :
  (1 <= n)%Z ->
  partition fl n
  = map (fun k => firstn (Z.to_nat (files_per_worker (List.length fl) n))
                    (skipn (k * Z.to_nat (files_per_worker (List.length fl) n))
                       fl))
      (seq 0 (Z.to_nat n)).
Proof.
  intros Hn. unfold partition, Py.range. rewrite map_map.
  apply map_ext. intros k.
  rewrite worker_files_chunk by lia. now rewrite Nat2Z.id.
Qed.

Lemma partition_concat (fl : list string) (n : Z) :
  (1 <= n)%Z -> List.concat (partition fl n) = fl.
Proof.
  intros Hn. rewrite partition_chunks by exact Hn.
  rewrite chunks_concat. apply firstn_all2.
  destruct (files_per_worker_bounds (List.length fl) n Hn) as (Hc & Hup & _).
  nia.
Qed.

(** ** One worker *)

Lemma search_words_pushes (fs : filesystem) (f : string) (kws : list string) :
  pushes (fst (SearcherBase.search_words fs f kws)) = file_matches fs kws f.
Proof.
  unfold SearcherBase.search_words, file_matches, file_lines.
  destruct (fs f); simpl; now rewrite ?pushes_map_Push.
Qed.

Lemma search_words_raises (fs : filesystem) (f : string) (kws : list string) :
  snd (SearcherBase.search_words fs f kws)
  = match fs f with Faulty _ err => Some err | _ => None end.
Proof. unfold SearcherBase.search_words. now destruct (fs f). Qed.

Lemma search_words_logged (fs : filesystem) (f : string) (kws : list string) :
  logged (fst (SearcherBase.search_words fs f kws))
  = if is_missing (fs f) then [SearcherBase.not_found_msg f] else [].
Proof.
  unfold SearcherBase.search_words.
  destruct (fs f); simpl; now rewrite ?logged_map_Push.
Qed.

Lemma worker_pushes (fs : filesystem) (kws : list string) (fl : list string) :
  pushes (SearcherBase.worker fs fl kws) = all_matches fs kws (reached fs fl).
Proof.
  induction fl as [|f fl IH]; [reflexivity|]. simpl.
  pose proof (search_words_pushes fs f kws) as Hp.
  pose proof (search_words_raises fs f kws) as Hr.
  destruct (SearcherBase.search_words fs f kws) as [evs [err|]];
    simpl in Hp, Hr; destruct (fs f) eqn:Hf; try discriminate; simpl;
    rewrite pushes_app, Hp; simpl; now rewrite ?IH.
Qed.

Lemma reached_no_faults (fs : filesystem) (fl : list string) :
  no_faults fs fl -> reached fs fl = fl.
Proof.
  induction 1 as [|f fl Hf _ IH]; simpl; [reflexivity|].
  now rewrite Hf, IH.
Qed.

Lemma worker_logged (fs : filesystem) (kws : list string) (fl : list string) :
  no_faults fs fl ->
  logged (SearcherBase.worker fs fl kws)
  = map SearcherBase.not_found_msg (missing_files fs fl).
Proof.
  induction 1 as [|f fl Hf _ IH]; [reflexivity|]. simpl.
  pose proof (search_words_logged fs f kws) as Hl.
  pose proof (search_words_raises fs f kws) as Hr.
  destruct (SearcherBase.search_words fs f kws) as [evs [err|]];
    simpl in Hl, Hr; destruct (fs f) eqn:Hf'; try discriminate; simpl;
    rewrite logged_app, Hl, IH; reflexivity.
Qed.

Lemma worker_app (fs : filesystem) (kws : list string) (a b : list string) :
  no_faults fs a ->
  SearcherBase.worker fs (a ++ b) kws
  = SearcherBase.worker fs a kws ++ SearcherBase.worker fs b kws.
Proof.
  induction 1 as [|f a Hf _ IH]; [reflexivity|]. simpl.
  pose proof (search_words_raises fs f kws) as Hr.
  destruct (SearcherBase.search_words fs f kws) as [evs [err|]];
    simpl in Hr; destruct (fs f); try discriminate;
    now rewrite IH, app_assoc.
Qed.

Lemma workers_concat (fs : filesystem) (kws : list string)
    (parts : list (list string)) :
  no_faults fs (List.concat parts) ->
  List.concat (map (fun fl => SearcherBase.worker fs fl kws) parts)
  = SearcherBase.worker fs (List.concat parts) kws.
Proof.
  induction parts as [|p parts IH]; [reflexivity|]. simpl. intros H.
  unfold no_faults in H. apply Forall_app in H as [Hp Hrest].
  now rewrite worker_app, IH.
Qed.

Lemma all_matches_app (fs : filesystem) (kws : list string)
    (a b : list string) :
  all_matches fs kws (a ++ b) = all_matches fs kws a ++ all_matches fs kws b.
Proof. apply flat_map_app. Qed.

Lemma workers_pushes (fs : filesystem) (kws : list string)
    (parts : list (list string)) :
  pushes (List.concat (map (fun fl => SearcherBase.worker fs fl kws) parts))
  = all_matches fs kws (flat_map (reached fs) parts).
Proof.
  induction parts as [|p parts IH]; [reflexivity|]. simpl.
  now rewrite pushes_app, worker_pushes, IH, all_matches_app.
Qed.

(** ** The queue of files *)

Lemma set_proc_split (i : nat) (ps : list MultiProcess2.proc)
    (p : MultiProcess2.proc) :
  nth_error ps i = Some p ->
  exists l1 l2,
    ps = l1 ++ p :: l2 /\
    forall p', MultiProcess2.set_proc i p' ps = l1 ++ p' :: l2.
Proof.
  revert i. induction ps as [|q ps IH]; intros [|i]; simpl; try discriminate.
  - intros [= ->]. now exists [], ps.
  - intros H. destruct (IH _ H) as (l1 & l2 & -> & Hset).
    exists (q :: l1), l2. split; [reflexivity|].
    intros p'. simpl. now rewrite Hset.
Qed.

Lemma flat_map_set {X : Type} (g : MultiProcess2.proc -> list X) (i : nat)
    (ps : list MultiProcess2.proc) (p p' : MultiProcess2.proc)
    (A B : list X) :
  nth_error ps i = Some p ->
  Permutation (B ++ g p) (A ++ g p') ->
  Permutation (B ++ flat_map g ps)
    (A ++ flat_map g (MultiProcess2.set_proc i p' ps)).
Proof.
  intros Hi HP. destruct (set_proc_split _ _ _ Hi) as (l1 & l2 & -> & Hset).
  rewrite Hset, !flat_map_app. simpl.
  set (P1 := flat_map g l1). set (P2 := flat_map g l2).
  transitivity ((B ++ g p) ++ P1 ++ P2).
  - rewrite <- !app_assoc. apply Permutation_app_head.
    rewrite !app_assoc. apply Permutation_app_tail. apply Permutation_app_comm.
  - rewrite HP. rewrite <- !app_assoc. apply Permutation_app_head.
    rewrite !app_assoc. apply Permutation_app_tail. apply Permutation_app_comm.
Qed.

Lemma pending_set (i : nat) (ps : list MultiProcess2.proc)
    (p p' : MultiProcess2.proc) (X Y : list Match) :
  nth_error ps i = Some p ->
  Permutation (Y ++ pending_proc p) (X ++ pending_proc p') ->
  Permutation (Y ++ flat_map pending_proc ps)
    (X ++ flat_map pending_proc (MultiProcess2.set_proc i p' ps)).
Proof. apply flat_map_set. Qed.

Lemma dyn_inv_step (fs : filesystem) (kws : list string) (r0 : list Match)
    (fl : list string) (a : actor) (st : MultiProcess2.state) :
  dyn_inv fs kws r0 fl st ->
  dyn_inv fs kws r0 fl (MultiProcess2.step fs kws a st).
Proof.
  intros [HP HF]. destruct a as [|i|i]; simpl.
  - unfold MultiProcess2.poll.
    destruct (MultiProcess2.queue st) as [|m q] eqn:Hq.
    + split; [now rewrite Hq|exact HF].
    + split; [|exact HF]. unfold taken_files in *. simpl.
      rewrite <- HP. now rewrite <- !app_assoc.
  - unfold MultiProcess2.child_step.
    destruct (nth_error (MultiProcess2.procs st) i) as [p|] eqn:Hi;
      [|now split].
    destruct p as [|todo exc|].
    + destruct (MultiProcess2.files_queue st) as [|f fq] eqn:Hfq.
      * split; unfold taken_files in *; simpl; [|now rewrite <- HF].
        rewrite <- HP. apply Permutation_app_head. symmetry.
        apply (pending_set i _ MultiProcess2.Idle MultiProcess2.Exited
                 (MultiProcess2.queue st) (MultiProcess2.queue st) Hi).
        reflexivity.
      * pose proof (search_words_pushes fs f kws) as Hp.
        destruct (SearcherBase.search_words fs f kws) as [evs exc].
        simpl in Hp.
        split; unfold taken_files in *; simpl.
        -- rewrite map_app, all_matches_app. simpl. rewrite app_nil_r.
           rewrite (app_assoc r0), <- HP, <- !app_assoc.
           do 2 apply Permutation_app_head.
           rewrite Permutation_app_comm. symmetry.
           apply (pending_set i _ MultiProcess2.Idle
                    (MultiProcess2.Busy evs exc) [] (file_matches fs kws f)
                    Hi).
           simpl. now rewrite Hp, app_nil_r.
        -- rewrite map_app. simpl. now rewrite <- app_assoc.
    + destruct todo as [|e todo].
      * destruct exc as [err|]; (split; [|exact HF]);
          unfold taken_files in *; simpl; rewrite <- HP;
          apply Permutation_app_head; symmetry;
          (eapply (pending_set i _ _ _ (MultiProcess2.queue st)
                     (MultiProcess2.queue st) Hi); reflexivity).
      * rewrite emit_spec. split; [|exact HF].
        unfold taken_files in *; simpl. rewrite <- HP.
        apply Permutation_app_head. symmetry.
        eapply (pending_set i _ _ _ _ _ Hi). cbn [pending_proc].
        now rewrite (pushes_cons e todo), app_assoc.
    + now split.
  - unfold MultiProcess2.miss_step.
    destruct (nth_error (MultiProcess2.procs st) i) as [[|todo exc|]|] eqn:Hi;
      try now split.
    split; unfold taken_files in *; simpl; [|exact HF].
    rewrite <- HP. apply Permutation_app_head. symmetry.
    apply (pending_set i _ MultiProcess2.Idle MultiProcess2.Exited
             (MultiProcess2.queue st) (MultiProcess2.queue st) Hi).
    reflexivity.
Qed.

Lemma set_proc_Forall (P : MultiProcess2.proc -> Prop) (i : nat)
    (p' : MultiProcess2.proc) (ps : list MultiProcess2.proc) :
  Forall P ps -> P p' -> Forall P (MultiProcess2.set_proc i p' ps).
Proof.
  intros H Hp'. revert i.
  induction H as [|q ps Hq Hps IH]; intros [|i]; simpl;
    try constructor; auto.
Qed.

Lemma set_proc_alive (i : nat) (p p' : MultiProcess2.proc)
    (ps : list MultiProcess2.proc) :
  nth_error ps i = Some p -> alive p' = true ->
  existsb alive (MultiProcess2.set_proc i p' ps) = true.
Proof.
  intros Hi Hp'. destruct (set_proc_split _ _ _ Hi) as (l1 & l2 & -> & Hset).
  rewrite Hset, existsb_app. simpl. rewrite Hp'.
  now rewrite orb_true_r.
Qed.

Lemma nth_error_Forall {A : Type} (P : A -> Prop) (l : list A) (i : nat)
    (x : A) :
  Forall P l -> nth_error l i = Some x -> P x.
Proof.
  intros H Hi. rewrite Forall_forall in H. eapply H, nth_error_In, Hi.
Qed.

Lemma dyn_sound_step (fs : filesystem) (kws : list string) (a : actor)
    (st : MultiProcess2.state) :
  dyn_sound fs st -> dyn_sound fs (MultiProcess2.step fs kws a st).
Proof.
  intros (HN & HW). destruct a as [|i|i]; simpl.
  - unfold MultiProcess2.poll.
    destruct (MultiProcess2.queue st); now split.
  - unfold MultiProcess2.child_step.
    destruct (nth_error (MultiProcess2.procs st) i) as [p|] eqn:Hi;
      [|now split].
    pose proof (nth_error_Forall _ _ _ _ HW Hi) as Hp.
    destruct p as [|todo exc|].
    + destruct (MultiProcess2.files_queue st) as [|f fq] eqn:Hfq.
      * split; simpl; auto using set_proc_Forall.
      * pose proof (search_words_raises fs f kws) as Hr.
        inversion HN as [|? ? Hf Hfq']; subst.
        destruct (SearcherBase.search_words fs f kws) as [evs exc].
        simpl in Hr. destruct (fs f); try discriminate; subst exc;
          (split; simpl; [exact Hfq'|now apply set_proc_Forall]).
    + destruct todo as [|e todo].
      * destruct exc as [err|]; [discriminate Hp|].
        split; simpl; auto using set_proc_Forall.
      * rewrite emit_spec. split; simpl; auto using set_proc_Forall.
    + now split.
  - unfold MultiProcess2.miss_step.
    destruct (nth_error (MultiProcess2.procs st) i) as [[|todo exc|]|] eqn:Hi;
      try now split.
    split; simpl; auto using set_proc_Forall.
Qed.

Lemma dyn_live_step (fs : filesystem) (kws : list string) (a : actor)
    (st : MultiProcess2.state) :
  is_miss a = false ->
  dyn_live fs st -> dyn_live fs (MultiProcess2.step fs kws a st).
Proof.
  intros Ha (HN & HW & HA). destruct a as [|i|i]; [| |discriminate Ha]; simpl.
  - unfold MultiProcess2.poll.
    destruct (MultiProcess2.queue st); now repeat split.
  - unfold MultiProcess2.child_step.
    destruct (nth_error (MultiProcess2.procs st) i) as [p|] eqn:Hi;
      [|now repeat split].
    pose proof (nth_error_Forall _ _ _ _ HW Hi) as Hp.
    destruct p as [|todo exc|].
    + destruct (MultiProcess2.files_queue st) as [|f fq] eqn:Hfq.
      * repeat split; simpl; auto using set_proc_Forall.
      * pose proof (search_words_raises fs f kws) as Hr.
        inversion HN as [|? ? Hf Hfq']; subst.
        destruct (SearcherBase.search_words fs f kws) as [evs exc].
        simpl in Hr. destruct (fs f); try discriminate; subst exc;
          (repeat split; simpl;
           [exact Hfq'|now apply set_proc_Forall
           |right; now apply (set_proc_alive i MultiProcess2.Idle)]).
    + destruct todo as [|e todo].
      * destruct exc as [err|]; [discriminate Hp|].
        repeat split; simpl; auto using set_proc_Forall.
        right. now apply (set_proc_alive i (MultiProcess2.Busy [] None)).
      * rewrite emit_spec. repeat split; simpl; auto using set_proc_Forall.
        right.
        now apply (set_proc_alive i (MultiProcess2.Busy (e :: todo) exc)).
    + now repeat split.
Qed.

Lemma drain_spec (fs : filesystem) (kws : list string) (fq : list string) :
  forall evs took rest,
  MultiProcess2.drain fs kws fq = (evs, took, rest) ->
  took ++ rest = fq /\
  pushes evs = all_matches fs kws took /\
  (no_faults fs fq -> rest = []).
Proof.
  induction fq as [|f fq IH]; simpl; intros evs took rest.
  - intros [= <- <- <-]. repeat split. 
  - pose proof (search_words_pushes fs f kws) as Hp.
    pose proof (search_words_raises fs f kws) as Hr.
    destruct (SearcherBase.search_words fs f kws) as [evs1 [err|]];
      simpl in Hp, Hr.
    + intros [= <- <- <-]. repeat split.
      * rewrite pushes_app, Hp. simpl. now rewrite !app_nil_r.
      * intros HN. inversion HN as [|? ? Hf _]; subst.
        destruct (fs f); discriminate.
    + destruct (MultiProcess2.drain fs kws fq) as [[evs2 took2] rest2].
      destruct (IH _ _ _ eq_refl) as (H1 & H2 & H3).
      intros [= <- <- <-]. repeat split.
      * simpl. now rewrite H1.
      * rewrite pushes_app, Hp, H2. reflexivity.
      * intros HN. inversion HN; subst. auto.
Qed.

Lemma run_proc_spec (fs : filesystem) (kws : list string)
    (p : MultiProcess2.proc) (fq : list string) :
  forall evs took rest,
  MultiProcess2.run_proc fs kws p fq = (evs, took, rest) ->
  took ++ rest = fq /\
  pushes evs = pending_proc p ++ all_matches fs kws took /\
  (no_faults fs fq -> will_fault p = false -> alive p = true -> rest = []).
Proof.
  intros evs took rest. destruct p as [|todo [err|]|]; simpl.
  - intros H. apply drain_spec in H as (H1 & H2 & H3).
    repeat split; auto.
  - intros [= <- <- <-]. repeat split; [|discriminate].
    rewrite pushes_app. simpl. now rewrite !app_nil_r.
  - destruct (MultiProcess2.drain fs kws fq) as [[evs2 took2] rest2] eqn:Hd.
    apply drain_spec in Hd as (H1 & H2 & H3).
    intros [= <- <- <-]. repeat split; auto.
    now rewrite pushes_app, H2.
  - intros [= <- <- <-]. repeat split; discriminate.
Qed.

Lemma map_snd_pair (i : nat) (l : list string) : map snd (map (pair i) l) = l.
Proof. induction l as [|x l IH]; simpl; congruence. Qed.

Lemma run_rest_spec (fs : filesystem) (kws : list string)
    (ps : list MultiProcess2.proc) :
  forall (i : nat) (st : MultiProcess2.state),
  exists took Q,
    taken_files (MultiProcess2.run_rest fs kws i ps st)
    = taken_files st ++ took /\
    took ++ MultiProcess2.files_queue (MultiProcess2.run_rest fs kws i ps st)
    = MultiProcess2.files_queue st /\
    MultiProcess2.collected (MultiProcess2.run_rest fs kws i ps st)
    = MultiProcess2.collected st /\
    MultiProcess2.queue (MultiProcess2.run_rest fs kws i ps st)
    = MultiProcess2.queue st ++ Q /\
    Permutation Q (flat_map pending_proc ps ++ all_matches fs kws took) /\
    (no_faults fs (MultiProcess2.files_queue st) ->
     Forall (fun p => will_fault p = false) ps ->
     MultiProcess2.files_queue st = [] \/ existsb alive ps = true ->
     MultiProcess2.files_queue (MultiProcess2.run_rest fs kws i ps st) = []).
Proof.
  induction ps as [|p ps IH]; intros i st; simpl.
  - exists [], []. rewrite !app_nil_r. repeat split; auto.
    intros _ _ [H|H]; [exact H|discriminate].
  - destruct (MultiProcess2.run_proc fs kws p (MultiProcess2.files_queue st))
      as [[evs took1] rest1] eqn:Hrp.
    apply run_proc_spec in Hrp as (H1 & H2 & H3).
    unfold MultiProcess.emit_all.
    match goal with |- context [MultiProcess2.run_rest fs kws (S i) ps ?s] =>
      destruct (IH (S i) s) as (took2 & Q2 & I1 & I2 & I3 & I4 & I5 & I6);
      set (st' := MultiProcess2.run_rest fs kws (S i) ps s) in *
    end.
    unfold taken_files in *. cbn [MultiProcess2.taken MultiProcess2.queue
      MultiProcess2.collected MultiProcess2.files_queue] in *.
    exists (took1 ++ took2), (pushes evs ++ Q2). repeat split.
    + rewrite I1, map_app, map_snd_pair. now rewrite app_assoc.
    + rewrite <- app_assoc, I2. exact H1.
    + exact I3.
    + rewrite I4. now rewrite app_assoc.
    + rewrite H2, I5, all_matches_app, <- !app_assoc.
      apply Permutation_app_head. rewrite !app_assoc.
      apply Permutation_app_tail. apply Permutation_app_comm.
    + intros HN HW HA. apply Forall_cons_iff in HW as [Hp Hps].
      assert (HN1 : no_faults fs rest1).
      { unfold no_faults in *. rewrite <- H1 in HN.
        now apply Forall_app in HN. }
      apply I6; [exact HN1|exact Hps|].
      destruct HA as [HA|HA].
      * left. rewrite HA in H1. now apply app_eq_nil in H1.
      * apply orb_true_iff in HA as [HA|HA]; [left; auto|now right].
Qed.

Lemma fold_left_inv {S A : Type} (P : S -> Prop) (f : S -> A -> S)
    (l : list A) (s : S) :
  (forall s a, P s -> P (f s a)) -> P s -> P (fold_left f l s).
Proof.
  intros Hstep. revert s. induction l as [|a l IH]; simpl; auto.
Qed.

Lemma fold_left_quiet {S : Type} (P : S -> Prop) (f : S -> actor -> S)
    (sched : schedule) (s : S) :
  (forall s a, is_miss a = false -> P s -> P (f s a)) ->
  quiet sched -> P s -> P (fold_left f sched s).
Proof.
  intros Hstep HQ. revert s.
  induction HQ as [|a sched Ha HQ IH]; simpl; auto.
Qed.

Lemma dynamic_final (fs : filesystem) (sched : schedule) (self : searcher)
    (n_workers : Z) :
  let st := MultiProcess2.final fs sched self n_workers in
  Permutation (MultiProcess2.collected st)
    (results self ++ all_matches fs (key_words self) (taken_files st)) /\
  taken_files st ++ MultiProcess2.files_queue st = files self /\
  (quiet sched -> no_faults fs (files self) -> (1 <= n_workers)%Z ->
   taken_files st = files self).
Proof.
  set (kws := key_words self).
  set (st0 := MultiProcess2.start self n_workers).
  set (st1 := fold_left (fun st a => MultiProcess2.step fs kws a st) sched st0).
  assert (Hinv : dyn_inv fs kws (results self) (files self) st1).
  { apply fold_left_inv; [intros; now apply dyn_inv_step|].
    split; unfold taken_files; simpl.
    - apply Permutation_app_head.
      induction (Py.range n_workers); simpl; auto.
    - reflexivity. }
  destruct Hinv as [HP HF].
  destruct (run_rest_spec fs kws (MultiProcess2.procs st1) 0 st1)
    as (took & Q & I1 & I2 & I3 & I4 & I5 & I6).
  unfold MultiProcess2.final, MultiProcess2.run, MultiProcess2.finish.
  fold kws st0 st1.
  set (st2 := MultiProcess2.run_rest fs kws 0 (MultiProcess2.procs st1) st1)
    in *.
  unfold taken_files in *. simpl. repeat split.
  - rewrite I1, I3, I4, all_matches_app, (app_assoc (results self)), <- HP.
    rewrite <- !app_assoc. do 2 apply Permutation_app_head.
    rewrite I5. reflexivity.
  - rewrite I1, <- app_assoc, I2. exact HF.
  - intros HQ HN Hn.
    assert (Hlive : dyn_live fs st1).
    { apply fold_left_quiet; [intros; now apply dyn_live_step|exact HQ|].
      repeat split; simpl; [exact HN| |].
      - apply Forall_forall. intros p Hp. apply in_map_iff in Hp.
        destruct Hp as (? & <- & _). reflexivity.
      - right. unfold Py.range.
        destruct (Z.to_nat n_workers) as [|k] eqn:Hk; [lia|]. reflexivity. }
    destruct Hlive as (L1 & L2 & L3).
    specialize (I6 L1 L2 L3). rewrite I6, app_nil_r in I2.
    rewrite I1, I2. exact HF.
Qed.

(** ** Substrings *)

Lemma prefix_iff (w l : string) :
  String.prefix w l = true <-> exists post, l = (w ++ post)%string.
Proof.
  revert l. induction w as [|a w IH]; intros l; simpl.
  - destruct l; (split; [intros _; eexists; reflexivity|reflexivity]).
  - destruct l as [|b l]; simpl.
    + split; [discriminate|]. intros [post H]. discriminate.
    + destruct (ascii_dec a b) as [->|Hab].
      * rewrite IH. split; intros [post H]; exists post; congruence.
      * split; [discriminate|]. intros [post H]. congruence.
Qed.

Lemma contains_iff (w l : string) :
  Text.contains w l = true <-> Text.Substring w l.
Proof.
  unfold Text.Substring. induction l as [|b l IH].
  - cbn [Text.contains]. rewrite orb_false_r, prefix_iff. split.
    + intros [post H]. now exists EmptyString, post.
    + intros ([|c pre] & post & H); [now exists post|discriminate].
  - cbn [Text.contains]. rewrite orb_true_iff, prefix_iff, IH. split.
    + intros [[post H]|(pre & post & H)].
      * now exists EmptyString, post.
      * exists (String b pre), post. simpl. now rewrite H.
    + intros ([|c pre] & post & H).
      * left. now exists post.
      * right. exists pre, post. simpl in H. congruence.
Qed.

Lemma in_match_line (file_name : string) (kws : list string) (i : nat)
    (line : string) (m : Match) :
  In m (SearcherBase.match_line file_name kws i line) <->
  exists w, m = (w, file_name, i) /\ In w kws /\
            Text.contains w (Text.lower line) = true.
Proof.
  unfold SearcherBase.match_line. rewrite in_flat_map. split.
  - intros (w & Hw & Hin).
    destruct (Text.contains w (Text.lower line)) eqn:Hc; [|destruct Hin].
    destruct Hin as [<-|[]]. now exists w.
  - intros (w & -> & Hw & Hc). exists w. split; [exact Hw|].
    rewrite Hc. now left.
Qed.

Lemma in_scan (file_name : string) (kws : list string) (lines : list string) :
  forall (start : nat) (m : Match),
  In m (SearcherBase.scan file_name kws start lines) <->
  exists w k line,
    m = (w, file_name, start + k) /\ In w kws /\
    nth_error lines k = Some line /\
    Text.contains w (Text.lower line) = true.
Proof.
  induction lines as [|l lines IH]; intros start m; simpl.
  - split; [intros []|]. intros (w & [|k] & line & _ & _ & H & _); discriminate.
  - rewrite in_app_iff, in_match_line, IH. split.
    + intros [(w & -> & Hw & Hc)|(w & k & line & -> & Hw & Hk & Hc)].
      * exists w, 0, l. rewrite Nat.add_0_r. auto.
      * exists w, (S k), line. rewrite Nat.add_succ_r. auto.
    + intros (w & [|k] & line & -> & Hw & Hk & Hc); simpl in Hk.
      * injection Hk as ->. left. exists w. rewrite Nat.add_0_r. auto.
      * right. exists w, k, line. rewrite Nat.add_succ_r. auto.
Qed.

Lemma in_all_matches (fs : filesystem) (kws fl : list string) (m : Match) :
  In m (all_matches fs kws fl) <->
  exists w f i line,
    m = (w, f, i) /\ In w kws /\ In f fl /\
    nth_error (file_lines (fs f)) i = Some line /\
    Text.contains w (Text.lower line) = true.
Proof.
  unfold all_matches, file_matches. rewrite in_flat_map. split.
  - intros (f & Hf & Hin). apply in_scan in Hin.
    destruct Hin as (w & k & line & -> & Hw & Hk & Hc).
    now exists w, f, k, line.
  - intros (w & f & i & line & -> & Hw & Hf & Hk & Hc).
    exists f. split; [exact Hf|]. apply in_scan.
    now exists w, i, line.
Qed.

(** ** What a call of [search] leaves in [self.results] *)

Lemma slice_incl {A : Type} (l : list A) (lo hi : Z) :
  incl (Py.slice l lo hi) l.
Proof.
  unfold Py.slice. intros x Hx.
  set (a := Z.to_nat (Py.clamp (Z.of_nat (List.length l)) lo)) in *.
  rewrite <- (firstn_skipn a l). apply in_or_app. right.
  match type of Hx with In _ (firstn ?k ?t) =>
    rewrite <- (firstn_skipn k t) end.
  apply in_or_app. now left.
Qed.

Lemma reached_incl (fs : filesystem) (fl : list string) :
  incl (reached fs fl) fl.
Proof.
  induction fl as [|f fl IH]; simpl; [easy|].
  destruct (is_faulty (fs f)).
  - intros x [<-|[]]. now left.
  - intros x [<-|Hx]; [now left|right; now apply IH].
Qed.

Lemma partition_reached_incl (fs : filesystem) (fl : list string) (n : Z) :
  incl (flat_map (reached fs) (partition fl n)) fl.
Proof.
  intros x Hx. apply in_flat_map in Hx as (part & Hpart & Hx).
  unfold partition in Hpart. apply in_map_iff in Hpart as (i & <- & _).
  apply reached_incl in Hx. now apply slice_incl in Hx.
Qed.

Lemma partition_reached_all (fs : filesystem) (fl : list string) (n : Z) :
  (1 <= n)%Z -> no_faults fs fl ->
  flat_map (reached fs) (partition fl n) = fl.
Proof.
  intros Hn HN. rewrite <- (partition_concat fl n Hn) at 2.
  assert (H : Forall (no_faults fs) (partition fl n)).
  { apply Forall_forall. intros part Hpart.
    unfold partition in Hpart. apply in_map_iff in Hpart as (i & <- & _).
    unfold no_faults in *. rewrite Forall_forall in *.
    intros x Hx. apply HN. now apply slice_incl in Hx. }
  induction H as [|part parts Hp _ IH]; simpl; [reflexivity|].
  now rewrite reached_no_faults, IH.
Qed.

Lemma search_single (fs : filesystem) (sched : schedule) (self : searcher)
    (n : Z) :
  cls self = SingleThreadSearcher ->
  search fs sched self n
  = Return
      (with_results self
         (sort (results self
                ++ all_matches fs (key_words self) (reached fs (files self)))),
       logged (SearcherBase.worker fs (files self) (key_words self))).
Proof.
  intros Hc. unfold search, start_workers. rewrite Hc.
  unfold SingleThread.start_workers. rewrite perform_all_spec.
  now rewrite worker_pushes.
Qed.

Lemma search_static (fs : filesystem) (sched : schedule) (self : searcher)
    (n : Z) :
  cls self = MultiThreadSearcher \/ cls self = MultiProcessSearcher ->
  n <> 0%Z ->
  exists evs,
    Permutation evs
      (List.concat
         (map (fun fl => SearcherBase.worker fs fl (key_words self))
              (partition (files self) n))) /\
    search fs sched self n
    = Return (with_results self (sort (results self ++ pushes evs)),
              logged evs).
Proof.
  intros Hc Hn. apply Z.eqb_neq in Hn.
  unfold search, start_workers. destruct Hc as [Hc|Hc]; rewrite Hc.
  - unfold MultiThread.start_workers. rewrite Hn.
    match goal with |- context [MultiThread.run sched ?t (?r, ?l)] =>
      destruct (thread_run_spec sched t r l) as (evs & HP & Hrun) end.
    exists evs. split; [exact HP|]. now rewrite Hrun.
  - unfold MultiProcess.start_workers. rewrite Hn.
    match goal with |- context [MultiProcess.run sched ?s] =>
      destruct (process_run_spec sched s) as (evs & HP & Hrun) end.
    exists evs. split; [exact HP|]. rewrite Hrun. reflexivity.
Qed.

Lemma search_static_zero (fs : filesystem) (sched : schedule)
    (self : searcher) :
  cls self = MultiThreadSearcher \/ cls self = MultiProcessSearcher ->
  search fs sched self 0 = Raise ZeroDivisionError.
Proof.
  intros [Hc|Hc]; unfold search, start_workers; now rewrite Hc.
Qed.

Lemma search_dynamic (fs : filesystem) (sched : schedule) (self : searcher)
    (n : Z) :
  cls self = MultiProcessSearcher2 ->
  search fs sched self n
  = Return
      (with_results self
         (sort (MultiProcess2.collected (MultiProcess2.final fs sched self n))),
       MultiProcess2.log (MultiProcess2.final fs sched self n)).
Proof.
  intros Hc. unfold search, start_workers. now rewrite Hc.
Qed.

Lemma search_raises (fs : filesystem) (sched : schedule) (self : searcher)
    (n : Z) :
  divides_by_zero self n = true ->
  search fs sched self n = Raise ZeroDivisionError.
Proof.
  unfold divides_by_zero. intros H.
  destruct (cls self) eqn:Hc; try discriminate;
    apply Z.eqb_eq in H; subst n; apply search_static_zero; auto.
Qed.

Lemma search_returns (fs : filesystem) (sched : schedule) (self : searcher)
    (n : Z) :
  divides_by_zero self n = false ->
  exists searched lg,
    search fs sched self n
    = Return
        (with_results self
           (sort (results self ++ all_matches fs (key_words self) searched)),
         lg) /\
    incl searched (files self) /\
    (steady (cls self) sched -> no_faults fs (files self) ->
     (1 <= n)%Z \/ cls self = SingleThreadSearcher ->
     searched = files self).
Proof.
  unfold divides_by_zero. intros Hz.
  destruct (cls self) eqn:Hc.
  - eexists _, _. split; [now apply search_single|].
    split; [apply reached_incl|].
    intros _ HN _. now apply reached_no_faults.
  - apply Z.eqb_neq in Hz.
    destruct (search_static fs sched self n (or_introl Hc) Hz)
      as (evs & HP & Hs).
    exists (flat_map (reached fs) (partition (files self) n)), (logged evs).
    split; [|split].
    + rewrite Hs. do 3 f_equal. apply sort_unique, Permutation_app_head.
      rewrite <- workers_pushes. now apply pushes_perm.
    + apply partition_reached_incl.
    + intros _ HN [Hn|Hn]; [now apply partition_reached_all|congruence].
  - apply Z.eqb_neq in Hz.
    destruct (search_static fs sched self n (or_intror Hc) Hz)
      as (evs & HP & Hs).
    exists (flat_map (reached fs) (partition (files self) n)), (logged evs).
    split; [|split].
    + rewrite Hs. do 3 f_equal. apply sort_unique, Permutation_app_head.
      rewrite <- workers_pushes. now apply pushes_perm.
    + apply partition_reached_incl.
    + intros _ HN [Hn|Hn]; [now apply partition_reached_all|congruence].
  - pose proof (dynamic_final fs sched self n) as (HP & HF & HA).
    exists (taken_files (MultiProcess2.final fs sched self n)), 
      (MultiProcess2.log (MultiProcess2.final fs sched self n)).
    split; [|split].
    + rewrite search_dynamic by exact Hc. do 3 f_equal.
      now apply sort_unique.
    + intros x Hx. rewrite <- HF. apply in_or_app. now left.
    + intros HQ HN [Hn|Hn]; [apply HA; auto|congruence].
Qed.

(** ** The scenarios of the specification *)

Example scenario_single :
  search Demo.fs [] (init SingleThreadSearcher ["a.txt"] Demo.kws) 1
  = Return (mkSearcher SingleThreadSearcher ["a.txt"] Demo.kws
              [("fast", "a.txt", 1); ("go", "a.txt", 0)], []).
Proof. reflexivity. Qed.

Example scenario_dynamic :
  search Demo.fs [Child 1; Child 0; Main; Child 1]
    (init MultiProcessSearcher2 ["a.txt"; "b.txt"; "nope.txt"] Demo.kws) 2
  = Return (mkSearcher MultiProcessSearcher2 ["a.txt"; "b.txt"; "nope.txt"]
              Demo.kws
              [("fast", "a.txt", 1); ("go", "a.txt", 0); ("go", "b.txt", 0)],
            ["File nope.txt not found"]).
Proof. reflexivity. Qed.

Lemma lower_char_not_G (c : ascii) : Text.lower_char c <> "G"%char.
Proof.
  destruct c as [[] [] [] [] [] [] [] []]; vm_compute; discriminate.
Qed.

Lemma lower_has_no_G (line pre post : string) :
  Text.lower line <> (pre ++ String "G" post)%string.
Proof.
  revert pre. induction line as [|c line IH]; intros [|a pre]; simpl;
    try discriminate.
  - intros [= H _]. now apply lower_char_not_G in H.
  - intros [= _ H]. now apply IH in H.
Qed.

Lemma match_le_lexicographic (a b : Match) :
  match_le a b <-> lexicographic_le a b.
Proof.
  unfold match_le, match_leb, match_compare, lex, lexicographic_le.
  destruct a as [[ka fa] na], b as [[kb fb] nb]. unfold kword, fname, lineno.
  cbn [fst snd]. unfold String.ltb.
  destruct (String.compare ka kb) eqn:Hk.
  - apply String.compare_eq_iff in Hk. subst kb.
    destruct (String.compare fa fb) eqn:Hf.
    + apply String.compare_eq_iff in Hf. subst fb.
      destruct (Nat.compare_spec na nb) as [Hn|Hn|Hn]; split; intros H;
        try discriminate; auto;
        try (right; split; [reflexivity|right; split; [reflexivity|lia]]).
      destruct H as [H|(_ & [H|(_ & H)])]; try discriminate. lia.
    + split; auto.
    + split; [discriminate|].
      intros [H|(_ & [H|(Hfb & _)])]; try discriminate.
      subst fb. now rewrite string_compare_refl in Hf.
  - split; auto.
  - split; [discriminate|].
    intros [H|(Hkb & _)]; [discriminate|].
    subst kb. now rewrite string_compare_refl in Hk.
Qed.

Lemma partition_nonpos (fl : list string) (n : Z) :
  (n <= 0)%Z -> partition fl n = [].
Proof. intros H. unfold partition. now rewrite range_nonpos. Qed.

Lemma dynamic_no_child (fs : filesystem) (sched : schedule) (self : searcher)
    (n : Z) :
  (n <= 0)%Z ->
  MultiProcess2.final fs sched self n
  = MultiProcess2.mkState [] (files self) [] (results self ++ []) [] [].
Proof.
  intros Hn. unfold MultiProcess2.final, MultiProcess2.run, MultiProcess2.start.
  rewrite range_nonpos by exact Hn. simpl.
  set (st0 := MultiProcess2.mkState [] (files self) [] (results self) [] []).
  assert (H : fold_left
                (fun st a => MultiProcess2.step fs (key_words self) a st)
                sched st0 = st0).
  { induction sched as [|a sched IH]; [reflexivity|]. simpl.
    destruct a as [|i|i]; simpl; [exact IH| |];
      unfold MultiProcess2.child_step, MultiProcess2.miss_step; simpl;
      replace (nth_error (@nil MultiProcess2.proc) i) with
        (@None MultiProcess2.proc) by (now destruct i);
      exact IH. }
  rewrite H. reflexivity.
Qed.

(** ** Faults and missing files in a worker *)

Lemma worker_missing (fs : filesystem) (kws : list string) (f : string)
    (rest : list string) :
  fs f = Missing ->
  SearcherBase.worker fs (f :: rest) kws
  = LogError (SearcherBase.not_found_msg f) :: SearcherBase.worker fs rest kws.
Proof.
  intros Hf. simpl. unfold SearcherBase.search_words. now rewrite Hf.
Qed.

Lemma worker_faulty (fs : filesystem) (kws : list string) (f : string)
    (rest : list string) (c err : string) :
  fs f = Faulty c err ->
  SearcherBase.worker fs (f :: rest) kws
  = map Push (SearcherBase.scan f kws 0 (Text.readlines c))
    ++ [LogError (SearcherBase.worker_error_msg err)].
Proof.
  intros Hf. simpl. unfold SearcherBase.search_words. now rewrite Hf.
Qed.

(** ** Counting the matches of a line *)

Lemma count_match_line (f : string) (kws : list string) (i j : nat)
    (line w : string) :
  count_occ match_eq_dec (SearcherBase.match_line f kws j line) (w, f, i)
  = if Nat.eqb i j && Text.contains w (Text.lower line)
    then count_occ string_dec kws w else 0.
Proof.
  unfold SearcherBase.match_line. cbv zeta.
  induction kws as [|k kws IH]; cbn [flat_map].
  - now destruct (_ && _).
  - rewrite count_occ_app.
    match goal with |- (_ + ?b)%nat = _ =>
      replace b with
        (if Nat.eqb i j && Text.contains w (Text.lower line)
         then count_occ string_dec kws w else 0)
        by (symmetry; exact IH) end.
    clear IH. cbn [count_occ].
    destruct (string_dec k w) as [->|Hkw];
      destruct (Nat.eqb_spec i j) as [->|Hij];
      destruct (Text.contains w (Text.lower line)) eqn:Hw;
      try destruct (Text.contains k (Text.lower line)) eqn:Hk;
      cbn [andb count_occ];
      repeat match goal with
        | |- context [match_eq_dec ?a ?b] => destruct (match_eq_dec a b)
        end;
      congruence || lia.
Qed.

Lemma count_scan_before (f : string) (kws : list string) (w : string)
    (lines : list string) :
  forall start i, (i < start)%nat ->
  count_occ match_eq_dec (SearcherBase.scan f kws start lines) (w, f, i) = 0.
Proof.
  induction lines as [|l lines IH]; intros start i Hi; simpl; [reflexivity|].
  rewrite count_occ_app, count_match_line, IH by lia.
  destruct (Nat.eqb_spec i start); [lia|reflexivity].
Qed.

Lemma count_scan (f : string) (kws : list string) (w : string)
    (lines : list string) :
  forall start k line, nth_error lines k = Some line ->
  count_occ match_eq_dec (SearcherBase.scan f kws start lines)
    (w, f, start + k)
  = if Text.contains w (Text.lower line) then count_occ string_dec kws w
    else 0.
Proof.
  induction lines as [|l lines IH]; intros start [|k] line; simpl;
    try discriminate.
  - intros [= ->]. rewrite Nat.add_0_r, count_occ_app, count_match_line.
    rewrite Nat.eqb_refl, count_scan_before by lia. simpl. lia.
  - intros Hk. rewrite count_occ_app, count_match_line.
    destruct (Nat.eqb_spec (start + S k) start); [lia|]. simpl.
    rewrite Nat.add_succ_r. now apply (IH (S start)).
Qed.

(** ** The log of the dynamic searcher *)

Lemma missing_files_app (fs : filesystem) (a b : list string) :
  missing_files fs (a ++ b) = missing_files fs a ++ missing_files fs b.
Proof. apply filter_app. Qed.

Lemma dyn_log_step (fs : filesystem) (kws : list string) (a : actor)
    (st : MultiProcess2.state) :
  dyn_sound fs st ->
  dyn_log_inv fs (MultiProcess2.procs st) st ->
  dyn_log_inv fs (MultiProcess2.procs (MultiProcess2.step fs kws a st))
    (MultiProcess2.step fs kws a st).
Proof.
  intros (HN & HW) HL. unfold dyn_log_inv in *.
  destruct a as [|i|i]; simpl.
  - unfold MultiProcess2.poll. now destruct (MultiProcess2.queue st).
  - unfold MultiProcess2.child_step.
    destruct (nth_error (MultiProcess2.procs st) i) as [p|] eqn:Hi;
      [|exact HL].
    pose proof (nth_error_Forall _ _ _ _ HW Hi) as Hp.
    destruct p as [|todo exc|].
    + destruct (MultiProcess2.files_queue st) as [|f fq] eqn:Hfq.
      * unfold taken_files in *. simpl. rewrite <- HL. symmetry.
        now apply (flat_map_set pending_log i _ MultiProcess2.Idle
                     MultiProcess2.Exited).
      * pose proof (search_words_logged fs f kws) as Hlg.
        destruct (SearcherBase.search_words fs f kws) as [evs exc].
        simpl in Hlg. unfold taken_files in *. simpl.
        rewrite map_app, missing_files_app, map_app, <- HL. simpl.
        rewrite <- app_assoc. apply Permutation_app_head.
        rewrite Permutation_app_comm. symmetry.
        apply (flat_map_set pending_log i _ MultiProcess2.Idle
                 (MultiProcess2.Busy evs exc) []
                 (map SearcherBase.not_found_msg
                    (if is_missing (fs f) then [f] else [])) Hi).
        simpl. rewrite Hlg, app_nil_r. now destruct (is_missing (fs f)).
    + destruct todo as [|e todo].
      * destruct exc as [err|]; [discriminate Hp|].
        unfold taken_files in *. simpl. rewrite <- HL. symmetry.
        now apply (flat_map_set pending_log i _ (MultiProcess2.Busy [] None)
                     MultiProcess2.Idle).
      * rewrite emit_spec. unfold taken_files in *. simpl. rewrite <- HL.
        symmetry.
        apply (flat_map_set pending_log i _ (MultiProcess2.Busy (e :: todo) exc)
                 (MultiProcess2.Busy todo exc) _ _ Hi).
        cbn [pending_log]. now rewrite (logged_cons e todo), app_assoc.
    + exact HL.
  - unfold MultiProcess2.miss_step.
    destruct (nth_error (MultiProcess2.procs st) i) as [[|todo exc|]|] eqn:Hi;
      try exact HL.
    unfold taken_files in *. simpl. rewrite <- HL. symmetry.
    now apply (flat_map_set pending_log i _ MultiProcess2.Idle
                 MultiProcess2.Exited).
Qed.

Lemma drain_logged (fs : filesystem) (kws : list string) (fq : list string) :
  forall evs took rest,
  MultiProcess2.drain fs kws fq = (evs, took, rest) ->
  no_faults fs fq ->
  logged evs = map SearcherBase.not_found_msg (missing_files fs took).
Proof.
  induction fq as [|f fq IH]; simpl; intros evs took rest.
  - now intros [= <- <- <-].
  - pose proof (search_words_logged fs f kws) as Hlg.
    pose proof (search_words_raises fs f kws) as Hr.
    destruct (SearcherBase.search_words fs f kws) as [evs1 [err|]];
      simpl in Hlg, Hr.
    + intros _ HN. inversion HN as [|? ? Hf _]; subst.
      destruct (fs f); discriminate.
    + destruct (MultiProcess2.drain fs kws fq) as [[evs2 took2] rest2].
      intros [= <- <- <-] HN. inversion HN; subst.
      rewrite logged_app, Hlg, (IH _ _ _ eq_refl) by assumption.
      simpl. now destruct (is_missing (fs f)).
Qed.

Lemma run_proc_logged (fs : filesystem) (kws : list string)
    (p : MultiProcess2.proc) (fq : list string) :
  forall evs took rest,
  MultiProcess2.run_proc fs kws p fq = (evs, took, rest) ->
  no_faults fs fq -> will_fault p = false ->
  logged evs
  = pending_log p ++ map SearcherBase.not_found_msg (missing_files fs took).
Proof.
  intros evs took rest. destruct p as [|todo [err|]|]; simpl.
  - intros H HN _. now apply drain_logged in H.
  - discriminate.
  - destruct (MultiProcess2.drain fs kws fq) as [[evs2 took2] rest2] eqn:Hd.
    intros [= <- <- <-] HN _. rewrite logged_app. f_equal.
    now apply drain_logged in Hd.
  - now intros [= <- <- <-].
Qed.

Lemma run_rest_logged (fs : filesystem) (kws : list string)
    (ps : list MultiProcess2.proc) :
  forall (i : nat) (st : MultiProcess2.state),
  no_faults fs (MultiProcess2.files_queue st) ->
  Forall (fun p => will_fault p = false) ps ->
  dyn_log_inv fs ps st ->
  dyn_log_inv fs [] (MultiProcess2.run_rest fs kws i ps st).
Proof.
  induction ps as [|p ps IH]; intros i st HN HW HL; simpl; [exact HL|].
  apply Forall_cons_iff in HW as [Hp Hps].
  destruct (MultiProcess2.run_proc fs kws p (MultiProcess2.files_queue st))
    as [[evs took1] rest1] eqn:Hrp.
  pose proof (run_proc_logged _ _ _ _ _ _ _ Hrp HN Hp) as Hlg.
  apply run_proc_spec in Hrp as (H1 & _ & _).
  unfold MultiProcess.emit_all. apply IH; simpl.
  - unfold no_faults in *. rewrite <- H1 in HN. now apply Forall_app in HN.
  - exact Hps.
  - unfold dyn_log_inv, taken_files in *. simpl in *.
    rewrite map_app, map_snd_pair, missing_files_app, map_app, <- HL, Hlg.
    rewrite <- !app_assoc. do 2 apply Permutation_app_head.
    apply Permutation_app_comm.
Qed.

Lemma dynamic_final_log (fs : filesystem) (sched : schedule) (self : searcher)
    (n_workers : Z) :
  no_faults fs (files self) ->
  Permutation
    (MultiProcess2.log (MultiProcess2.final fs sched self n_workers))
    (map SearcherBase.not_found_msg
       (missing_files fs
          (taken_files (MultiProcess2.final fs sched self n_workers)))).
Proof.
  intros HN.
  set (kws := key_words self).
  set (st0 := MultiProcess2.start self n_workers).
  set (st1 := fold_left (fun st a => MultiProcess2.step fs kws a st) sched st0).
  assert (Hinv : dyn_sound fs st1
                 /\ dyn_log_inv fs (MultiProcess2.procs st1) st1).
  { apply (fold_left_inv
             (fun st => dyn_sound fs st /\
                        dyn_log_inv fs (MultiProcess2.procs st) st)).
    - intros s a [Hl Hg]. split;
        [now apply dyn_sound_step|now apply dyn_log_step].
    - split.
      + split; simpl; [exact HN|].
        apply Forall_forall. intros p Hp. apply in_map_iff in Hp.
        destruct Hp as (? & <- & _). reflexivity.
      + unfold dyn_log_inv, taken_files. simpl.
        induction (Py.range n_workers); simpl; auto. }
  destruct Hinv as ((L1 & L2) & Hlog).
  pose proof (run_rest_logged fs kws _ 0 st1 L1 L2 Hlog) as Hfin.
  unfold dyn_log_inv in Hfin. simpl in Hfin. rewrite app_nil_r in Hfin.
  unfold MultiProcess2.final, MultiProcess2.run, MultiProcess2.finish in *.
  fold kws st0 st1. unfold taken_files in *. simpl in *.
  exact Hfin.
Qed.

(** ** The files taken from the queue *)

Lemma healthy_count_set (i : nat) (ps : list MultiProcess2.proc)
    (p p' : MultiProcess2.proc) :
  nth_error ps i = Some p ->
  (healthy_count (MultiProcess2.set_proc i p' ps)
   + (if healthy p then 1 else 0)
   = healthy_count ps + (if healthy p' then 1 else 0))%nat.
Proof.
  intros Hi. destruct (set_proc_split _ _ _ Hi) as (l1 & l2 & -> & Hset).
  rewrite Hset. unfold healthy_count. rewrite !filter_app, !length_app.
  simpl. destruct (healthy p), (healthy p'); simpl; lia.
Qed.

Lemma healthy_count_idle (l : list Z) :
  healthy_count (map (fun _ => MultiProcess2.Idle) l) = List.length l.
Proof.
  unfold healthy_count. induction l as [|x l IH]; simpl; congruence.
Qed.

Lemma reached_by_nil (fs : filesystem) (k : nat) : reached_by fs k [] = [].
Proof. now destruct k. Qed.

Lemma reached_by_zero (fs : filesystem) (fl : list string) :
  reached_by fs 0 fl = [].
Proof. now destruct fl. Qed.

Lemma healthy_count_pos (i : nat) (ps : list MultiProcess2.proc)
    (p : MultiProcess2.proc) :
  nth_error ps i = Some p -> healthy p = true ->
  exists k, healthy_count ps = S k.
Proof.
  intros Hi Hp. destruct (set_proc_split _ _ _ Hi) as (l1 & l2 & -> & _).
  unfold healthy_count. rewrite filter_app, length_app. simpl. rewrite Hp.
  simpl. eexists. rewrite Nat.add_succ_r. reflexivity.
Qed.

Lemma dyn_upto_step (fs : filesystem) (kws : list string) (n : nat)
    (fl : list string) (a : actor) (st : MultiProcess2.state) :
  is_miss a = false ->
  dyn_upto fs n fl st -> dyn_upto fs n fl (MultiProcess2.step fs kws a st).
Proof.
  unfold dyn_upto. intros Ha HU.
  destruct a as [|i|i]; [| |discriminate Ha]; simpl.
  - unfold MultiProcess2.poll. now destruct (MultiProcess2.queue st).
  - unfold MultiProcess2.child_step.
    destruct (nth_error (MultiProcess2.procs st) i) as [p|] eqn:Hi;
      [|exact HU].
    destruct p as [|todo exc|].
    + destruct (healthy_count_pos _ _ _ Hi eq_refl) as (k & Hk).
      destruct (MultiProcess2.files_queue st) as [|f fq] eqn:Hfq.
      * unfold taken_files in *.
        cbn [MultiProcess2.taken MultiProcess2.files_queue
             MultiProcess2.procs].
        now rewrite HU, !reached_by_nil.
      * pose proof (search_words_raises fs f kws) as Hr.
        destruct (SearcherBase.search_words fs f kws) as [evs exc].
        cbn [snd] in Hr.
        pose proof (healthy_count_set i _ _ (MultiProcess2.Busy evs exc) Hi)
          as Hc.
        unfold taken_files in *.
        cbn [MultiProcess2.taken MultiProcess2.files_queue
             MultiProcess2.procs].
        rewrite HU, Hk, map_app, <- app_assoc. cbn [reached_by map app snd].
        do 2 f_equal. rewrite Hk in Hc.
        destruct (fs f); subst exc; cbn [is_faulty healthy] in *;
          f_equal; lia.
    + pose proof (healthy_count_set i _ _ MultiProcess2.Exited Hi) as Hc1.
      pose proof (healthy_count_set i _ _ MultiProcess2.Idle Hi) as Hc2.
      destruct todo as [|e todo].
      * destruct exc as [err|]; unfold taken_files in *;
          cbn [MultiProcess2.taken MultiProcess2.files_queue
               MultiProcess2.procs healthy] in *;
          rewrite HU; do 2 f_equal; lia.
      * rewrite emit_spec. unfold taken_files in *.
        pose proof (healthy_count_set i _ _ (MultiProcess2.Busy todo exc) Hi)
          as Hc.
        cbn [MultiProcess2.taken MultiProcess2.files_queue
             MultiProcess2.procs] in *.
        rewrite HU. do 2 f_equal.
        destruct exc; cbn [healthy] in Hc; lia.
    + exact HU.
Qed.

Lemma drain_reached_by (fs : filesystem) (kws : list string)
    (fq : list string) :
  forall evs took rest k,
  MultiProcess2.drain fs kws fq = (evs, took, rest) ->
  reached_by fs (S k) fq = took ++ reached_by fs k rest.
Proof.
  induction fq as [|f fq IH]; intros evs took rest k; cbn [MultiProcess2.drain].
  - intros [= <- <- <-]. now rewrite !reached_by_nil.
  - pose proof (search_words_raises fs f kws) as Hr.
    destruct (SearcherBase.search_words fs f kws) as [evs1 [err|]];
      simpl in Hr.
    + intros [= <- <- <-]. simpl. now destruct (fs f).
    + destruct (MultiProcess2.drain fs kws fq) as [[evs2 took2] rest2].
      intros [= <- <- <-]. cbn [reached_by app].
      rewrite <- (IH _ _ _ k eq_refl). now destruct (fs f).
Qed.

Lemma run_rest_reached_by (fs : filesystem) (kws : list string)
    (ps : list MultiProcess2.proc) :
  forall (i : nat) (st : MultiProcess2.state),
  taken_files (MultiProcess2.run_rest fs kws i ps st)
  = taken_files st
    ++ reached_by fs (healthy_count ps) (MultiProcess2.files_queue st).
Proof.
  induction ps as [|p ps IH]; intros i st; cbn [MultiProcess2.run_rest].
  - unfold healthy_count. cbn [filter List.length].
    now rewrite reached_by_zero, app_nil_r.
  - destruct (MultiProcess2.run_proc fs kws p (MultiProcess2.files_queue st))
      as [[evs took] rest] eqn:Hrp.
    unfold MultiProcess.emit_all. rewrite IH.
    unfold taken_files, healthy_count.
    cbn [MultiProcess2.taken MultiProcess2.files_queue filter].
    rewrite map_app, map_snd_pair, <- app_assoc. f_equal.
    destruct p as [|todo [err|]|]; cbn [healthy List.length];
      cbn [MultiProcess2.run_proc] in Hrp.
    + symmetry. now apply (drain_reached_by fs kws _ evs).
    + now injection Hrp as _ <- <-.
    + destruct (MultiProcess2.drain fs kws (MultiProcess2.files_queue st))
        as [[evs2 took2] rest2] eqn:Hd.
      injection Hrp as _ <- <-. symmetry.
      now apply (drain_reached_by fs kws _ evs2).
    + now injection Hrp as _ <- <-.
Qed.

Lemma dynamic_taken (fs : filesystem) (sched : schedule) (self : searcher)
    (n : Z) :
  quiet sched ->
  taken_files (MultiProcess2.final fs sched self n)
  = reached_by fs (Z.to_nat n) (files self).
Proof.
  intros HQ.
  set (kws := key_words self).
  set (st0 := MultiProcess2.start self n).
  set (st1 := fold_left (fun st a => MultiProcess2.step fs kws a st) sched st0).
  assert (Hinv : dyn_upto fs (Z.to_nat n) (files self) st1).
  { apply fold_left_quiet; [intros; now apply dyn_upto_step|exact HQ|].
    unfold dyn_upto, taken_files. simpl.
    now rewrite healthy_count_idle, range_length. }
  unfold MultiProcess2.final, MultiProcess2.run, MultiProcess2.finish.
  fold kws st0 st1.
  change (taken_files
            (MultiProcess2.run_rest fs kws 0 (MultiProcess2.procs st1) st1)
          = reached_by fs (Z.to_nat n) (files self)).
  rewrite run_rest_reached_by. symmetry. exact Hinv.
Qed.


(** ** Searches over files that do not fault *)

Lemma search_no_faults (fs : filesystem) (sched : schedule) (self : searcher)
    (n : Z) :
  steady (cls self) sched ->
  (1 <= n)%Z -> no_faults fs (files self) ->
  exists lg,
    search fs sched self n
    = Return
        (with_results self
           (sort (results self
                  ++ all_matches fs (key_words self) (files self))),
         lg) /\
    Permutation lg
      (map SearcherBase.not_found_msg (missing_files fs (files self))).
Proof.
  intros HQ Hn HN.
  assert (Hz : divides_by_zero self n = false).
  { unfold divides_by_zero. destruct (cls self); try reflexivity;
      apply Z.eqb_neq; lia. }
  destruct (search_returns fs sched self n Hz) as (searched & lg & Hs & _ & Hall).
  rewrite (Hall HQ HN (or_introl Hn)) in Hs.
  exists lg. split; [exact Hs|].
  destruct (cls self) eqn:Hc.
  - rewrite search_single in Hs by exact Hc. injection Hs as _ <-.
    now rewrite worker_logged.
  - destruct (search_static fs sched self n (or_introl Hc) ltac:(lia))
      as (evs & HP & Hs').
    rewrite Hs' in Hs. injection Hs as _ <-.
    rewrite workers_concat in HP
      by (now rewrite partition_concat).
    rewrite partition_concat in HP by exact Hn.
    rewrite (logged_perm _ _ HP). now rewrite worker_logged.
  - destruct (search_static fs sched self n (or_intror Hc) ltac:(lia))
      as (evs & HP & Hs').
    rewrite Hs' in Hs. injection Hs as _ <-.
    rewrite workers_concat in HP
      by (now rewrite partition_concat).
    rewrite partition_concat in HP by exact Hn.
    rewrite (logged_perm _ _ HP). now rewrite worker_logged.
  - rewrite search_dynamic in Hs by exact Hc. injection Hs as _ <-.
    rewrite (dynamic_final_log fs sched self n HN).
    destruct (dynamic_final fs sched self n) as (_ & _ & HA).
    rewrite HA; auto.
Qed.

Lemma all_matches_existing (fs : filesystem) (kws fl : list string) :
  all_matches fs kws fl
  = all_matches fs kws (filter (fun f => negb (is_missing (fs f))) fl).
Proof.
  induction fl as [|f fl IH]; simpl; [reflexivity|].
  destruct (fs f) eqn:Hf; simpl; rewrite IH; try reflexivity.
  unfold file_matches. now rewrite Hf.
Qed.

(** ** What is searched, and how often *)

Lemma reached_count (fs : filesystem) (fl : list string) (f : string) :
  (count_occ string_dec (reached fs fl) f <= count_occ string_dec fl f)%nat.
Proof.
  induction fl as [|g fl IH]; cbn [reached]; [apply Nat.le_refl|].
  destruct (is_faulty (fs g)); cbn [count_occ];
    destruct (string_dec g f); lia.
Qed.

Lemma reached_parts_count (fs : filesystem) (parts : list (list string))
    (f : string) :
  (count_occ string_dec (flat_map (reached fs) parts) f
   <= count_occ string_dec (List.concat parts) f)%nat.
Proof.
  induction parts as [|part parts IH]; cbn [flat_map List.concat];
    [apply Nat.le_refl|].
  rewrite !count_occ_app. pose proof (reached_count fs part f). lia.
Qed.

Lemma partition_reached_count (fs : filesystem) (fl : list string) (n : Z)
    (f : string) :
  (count_occ string_dec (flat_map (reached fs) (partition fl n)) f
   <= count_occ string_dec fl f)%nat.
Proof.
  destruct (Z.le_gt_cases 1 n) as [Hn|Hn].
  - rewrite <- (partition_concat fl n Hn) at 2. apply reached_parts_count.
  - rewrite partition_nonpos by lia. cbn [flat_map count_occ]. lia.
Qed.

Lemma count_other_file (fs : filesystem) (kws : list string) (g f w : string)
    (i : nat) :
  g <> f -> count_occ match_eq_dec (file_matches fs kws g) (w, f, i) = 0.
Proof.
  intros Hgf. apply count_occ_not_In. intros Hin.
  apply in_scan in Hin as (w' & k & line & [= _ Hf _] & _).
  congruence.
Qed.

Lemma count_all_matches (fs : filesystem) (kws fl : list string) (w f : string)
    (i : nat) :
  count_occ match_eq_dec (all_matches fs kws fl) (w, f, i)
  = (count_occ string_dec fl f
     * count_occ match_eq_dec (file_matches fs kws f) (w, f, i))%nat.
Proof.
  unfold all_matches.
  induction fl as [|g fl IH]; cbn [flat_map count_occ]; [reflexivity|].
  rewrite count_occ_app.
  match goal with |- (_ + ?b)%nat = _ =>
    replace b with
      (count_occ string_dec fl f
       * count_occ match_eq_dec (file_matches fs kws f) (w, f, i))%nat
      by (symmetry; exact IH) end.
  destruct (string_dec g f) as [->|Hgf]; [lia|].
  rewrite count_other_file by exact Hgf. lia.
Qed.

Lemma count_file_matches (fs : filesystem) (kws : list string) (w f : string)
    (i : nat) :
  count_occ match_eq_dec (file_matches fs kws f) (w, f, i)
  = match nth_error (file_lines (fs f)) i with
    | Some line =>
        if Text.contains w (Text.lower line) then count_occ string_dec kws w
        else 0
    | None => 0
    end.
Proof.
  destruct (nth_error (file_lines (fs f)) i) as [line|] eqn:Hi.
  - unfold file_matches. now apply (count_scan f kws w _ 0 i line).
  - apply count_occ_not_In. intros Hin.
    apply in_scan in Hin as (w' & k & line & [= _ Hk] & _ & Hn & _).
    simpl in Hk. subst k. congruence.
Qed.

Lemma search_searched (fs : filesystem) (sched : schedule) (self : searcher)
    (n : Z) :
  divides_by_zero self n = false ->
  exists searched lg,
    search fs sched self n
    = Return
        (with_results self
           (sort (results self ++ all_matches fs (key_words self) searched)),
         lg) /\
    (forall f,
       (count_occ string_dec searched f
        <= count_occ string_dec (files self) f)%nat) /\
    (steady (cls self) sched ->
     searched = searched_files fs (cls self) n (files self)).
Proof.
  unfold divides_by_zero, searched_files. intros Hz.
  destruct (cls self) eqn:Hc.
  - eexists _, _. split; [now apply search_single|].
    split; [intros f; apply reached_count|reflexivity].
  - apply Z.eqb_neq in Hz.
    destruct (search_static fs sched self n (or_introl Hc) Hz)
      as (evs & HP & Hs).
    exists (flat_map (reached fs) (partition (files self) n)), (logged evs).
    split; [|split].
    + rewrite Hs. do 3 f_equal. apply sort_unique, Permutation_app_head.
      rewrite <- workers_pushes. now apply pushes_perm.
    + intros f. apply partition_reached_count.
    + reflexivity.
  - apply Z.eqb_neq in Hz.
    destruct (search_static fs sched self n (or_intror Hc) Hz)
      as (evs & HP & Hs).
    exists (flat_map (reached fs) (partition (files self) n)), (logged evs).
    split; [|split].
    + rewrite Hs. do 3 f_equal. apply sort_unique, Permutation_app_head.
      rewrite <- workers_pushes. now apply pushes_perm.
    + intros f. apply partition_reached_count.
    + reflexivity.
  - pose proof (dynamic_final fs sched self n) as (HP & HF & _).
    exists (taken_files (MultiProcess2.final fs sched self n)),
      (MultiProcess2.log (MultiProcess2.final fs sched self n)).
    split; [|split].
    + rewrite search_dynamic by exact Hc. do 3 f_equal.
      now apply sort_unique.
    + intros f. rewrite <- HF, count_occ_app. lia.
    + intros HQ. apply dynamic_taken. now apply HQ.
Qed.

(** * The claims *)

(** C1 (counterexample).  A file that cannot be read comes first: the one
    worker of the single-threaded searcher stops there and finds nothing,
    while with two threads the second one still searches "a.txt".  And over
    a file that can be read: both children of [MultiProcessSearcher2] call
    [files.get(block=False)] before the name has reached the pipe, meet
    [Empty] and end, so nothing is searched, while the single-threaded
    searcher finds the two matches of the file. *)
Lemma cross_strategy_differs :
  results_of
    (search Demo.fs [] (init SingleThreadSearcher ["locked.txt"; "a.txt"]
                          Demo.kws) 2)
  = Some [] /\
  results_of
    (search Demo.fs [] (init MultiThreadSearcher ["locked.txt"; "a.txt"]
                          Demo.kws) 2)
  = Some [("fast", "a.txt", 1); ("go", "a.txt", 0)] /\
  results_of
    (search Demo.fs [Miss 0; Miss 1]
       (init MultiProcessSearcher2 ["a.txt"] Demo.kws) 2)
  = Some [] /\
  results_of
    (search Demo.fs [Miss 0; Miss 1]
       (init SingleThreadSearcher ["a.txt"] Demo.kws) 2)
  = Some [("fast", "a.txt", 1); ("go", "a.txt", 0)].
Proof. repeat split. Qed.

(** C1 (as amended).  For files of which none raises anything but
    [FileNotFoundError], and [n_workers] >= 1: any two of the four
    searchers, newly made over the same files and keywords and run under any
    schedules in which no call of [files.get(block=False)] of
    [MultiProcessSearcher2] raises [Empty] while names are still queued,
    return the same sorted result list, the sort of all the matches of the
    files.  For the three searchers without a queue of files that is every
    schedule. *)
Theorem cross_strategy_equivalence (fs : filesystem) (fl kws : list string)
    (n : Z) (c1 c2 : strategy) (sched1 sched2 : schedule) :
  (1 <= n)%Z -> no_faults fs fl ->
  steady c1 sched1 -> steady c2 sched2 ->
  exists r,
    results_of (search fs sched1 (init c1 fl kws) n) = Some r /\
    results_of (search fs sched2 (init c2 fl kws) n) = Some r /\
    r = sort (all_matches fs kws fl).
Proof.
  intros Hn HN HQ1 HQ2.
  destruct (search_no_faults fs sched1 (init c1 fl kws) n HQ1 Hn HN)
    as (lg1 & H1 & _).
  destruct (search_no_faults fs sched2 (init c2 fl kws) n HQ2 Hn HN)
    as (lg2 & H2 & _).
  exists (sort (all_matches fs kws fl)).
  rewrite H1, H2. repeat split.
Qed.

Lemma cross_strategy_equivalence_witness :
  (1 <= 2)%Z /\ no_faults Demo.fs ["a.txt"; "nope.txt"; "b.txt"] /\
  steady SingleThreadSearcher [Child 0; Main] /\
  steady MultiProcessSearcher2 [Child 1; Child 1; Child 0; Main; Child 1] /\
  exists r,
    results_of
      (search Demo.fs [Child 0; Main]
         (init SingleThreadSearcher ["a.txt"; "nope.txt"; "b.txt"] Demo.kws) 2)
    = Some r /\
    results_of
      (search Demo.fs [Child 1; Child 1; Child 0; Main; Child 1]
         (init MultiProcessSearcher2 ["a.txt"; "nope.txt"; "b.txt"] Demo.kws)
         2)
    = Some r /\
    r = sort (all_matches Demo.fs Demo.kws ["a.txt"; "nope.txt"; "b.txt"]).
Proof.
  assert (HN : no_faults Demo.fs ["a.txt"; "nope.txt"; "b.txt"])
    by (repeat constructor).
  assert (H1 : steady SingleThreadSearcher [Child 0; Main])
    by (intros H; discriminate H).
  assert (H2 : steady MultiProcessSearcher2
                 [Child 1; Child 1; Child 0; Main; Child 1])
    by (intros _; repeat constructor).
  split; [lia|]. split; [exact HN|]. split; [exact H1|]. split; [exact H2|].
  apply (cross_strategy_equivalence Demo.fs ["a.txt"; "nope.txt"; "b.txt"]
           Demo.kws 2 SingleThreadSearcher MultiProcessSearcher2);
    [lia|exact HN|exact H1|exact H2].
Defined.

(** C2 (counterexample).  The second call on the same searcher returns the
    matches of the first call twice. *)
Lemma second_search_accumulates :
  search Demo.fs [] (init SingleThreadSearcher ["a.txt"] Demo.kws) 1
  = Return (mkSearcher SingleThreadSearcher ["a.txt"] Demo.kws
              [("fast", "a.txt", 1); ("go", "a.txt", 0)], []) /\
  search Demo.fs []
    (mkSearcher SingleThreadSearcher ["a.txt"] Demo.kws
       [("fast", "a.txt", 1); ("go", "a.txt", 0)]) 1
  = Return (mkSearcher SingleThreadSearcher ["a.txt"] Demo.kws
              [("fast", "a.txt", 1); ("fast", "a.txt", 1);
               ("go", "a.txt", 0); ("go", "a.txt", 0)], []).
Proof. split; reflexivity. Qed.

(** C2 (as amended).  Every call of [search] runs the whole search again,
    with nothing cached, but [self.results] is emptied only by [__init__]:
    for every searcher, files, keywords and [n_workers], when a first call
    on a new searcher has returned, a second call on it returns too, and its
    list is the sort of the first list together with the matches [found] by
    the second run, which are matches of the listed files; it is the first
    list only when the second run finds nothing.  In runs in which no call
    of [files.get(block=False)] raises [Empty] while names are queued (every
    run of the three searchers without a queue of files), the second run
    finds what the first found: every match of the first list is there
    twice, the second list is the first only when that is empty, and a new
    searcher over the same files and keywords returns the first list
    again. *)
Theorem repeated_search (fs : filesystem) (fl kws : list string)
    (c : strategy) (n : Z) (sched1 sched2 : schedule) (s1 : searcher)
    (lg1 : list string) :
  search fs sched1 (init c fl kws) n = Return (s1, lg1) ->
  exists s2 lg2 found,
    search fs sched2 s1 n = Return (s2, lg2) /\
    results s2 = sort (results s1 ++ found) /\
    Permutation (results s2) (results s1 ++ found) /\
    (forall m, In m found -> In m (all_matches fs kws fl)) /\
    (results s2 = results s1 <-> found = []) /\
    (steady c sched1 -> steady c sched2 ->
     Permutation found (results s1) /\
     results s2 = sort (results s1 ++ results s1) /\
     (results s2 = results s1 <-> results s1 = []) /\
     (forall sched3, steady c sched3 ->
        results_of (search fs sched3 (init c fl kws) n)
        = Some (results s1))).
Proof.
  intros Hs1.
  assert (Hz : divides_by_zero (init c fl kws) n = false).
  { destruct (divides_by_zero (init c fl kws) n) eqn:Hz; [|reflexivity].
    rewrite (search_raises _ _ _ _ Hz) in Hs1. discriminate. }
  destruct (search_searched fs sched1 _ n Hz) as (fl1 & lg1' & Hr1 & _ & Hq1).
  rewrite Hr1 in Hs1. injection Hs1 as <- <-.
  cbn [results init app key_words with_results files cls] in *.
  set (r1 := sort (all_matches fs kws fl1)) in *.
  destruct (search_searched fs sched2
              (with_results (init c fl kws) r1) n Hz)
    as (fl2 & lg2 & Hr2 & Hc2 & Hq2).
  cbn [results init app key_words with_results files cls] in *.
  exists (mkSearcher c fl kws (sort (r1 ++ all_matches fs kws fl2))), lg2,
    (all_matches fs kws fl2).
  cbn [results].
  assert (Hlen : forall a b : list Match, sort (a ++ b) = a -> b = []).
  { intros a b H. pose proof (sort_perm (a ++ b)) as HP. rewrite H in HP.
    apply Permutation_length in HP. rewrite length_app in HP.
    destruct b; [reflexivity|simpl in HP; lia]. }
  split; [exact Hr2|]. split; [reflexivity|].
  split; [apply sort_perm|]. split; [|split].
  - intros m Hm. apply in_all_matches in Hm
      as (w & f & i & line & -> & Hw & Hf & Hk & Hcn).
    apply in_all_matches. exists w, f, i, line. repeat split; auto.
    apply (count_occ_In string_dec). apply (count_occ_In string_dec) in Hf.
    specialize (Hc2 f). lia.
  - split; [apply Hlen|].
    intros ->. rewrite app_nil_r. apply sort_idem.
  - intros HQ1 HQ2. specialize (Hq1 HQ1). specialize (Hq2 HQ2).
    subst fl1 fl2.
    assert (HP : Permutation
                   (all_matches fs kws (searched_files fs c n fl)) r1)
      by (symmetry; apply sort_perm).
    assert (Hd : sort (r1 ++ all_matches fs kws (searched_files fs c n fl))
                 = sort (r1 ++ r1))
      by (apply sort_unique, Permutation_app_head, HP).
    split; [exact HP|]. split; [exact Hd|]. split.
    + rewrite Hd. split; [apply Hlen|]. now intros ->.
    + intros sched3 HQ3.
      destruct (search_searched fs sched3 (init c fl kws) n Hz)
        as (fl3 & lg3 & Hr3 & _ & Hq3).
      rewrite Hr3, (Hq3 HQ3). reflexivity.
Qed.

Lemma repeated_search_witness :
  search Demo.fs [Child 0; Child 1]
    (init MultiProcessSearcher2 ["a.txt"; "b.txt"] Demo.kws) 2
  = Return
      (mkSearcher MultiProcessSearcher2 ["a.txt"; "b.txt"] Demo.kws
         [("fast", "a.txt", 1); ("go", "a.txt", 0); ("go", "b.txt", 0)],
       []) /\
  exists s2 lg2 found,
    search Demo.fs [Child 0; Child 0; Child 0; Child 0; Miss 0; Miss 1]
      (mkSearcher MultiProcessSearcher2 ["a.txt"; "b.txt"] Demo.kws
         [("fast", "a.txt", 1); ("go", "a.txt", 0); ("go", "b.txt", 0)]) 2
    = Return (s2, lg2) /\
    results s2
    = sort ([("fast", "a.txt", 1); ("go", "a.txt", 0); ("go", "b.txt", 0)]
            ++ found) /\
    Permutation (results s2)
      ([("fast", "a.txt", 1); ("go", "a.txt", 0); ("go", "b.txt", 0)]
       ++ found) /\
    (forall m, In m found ->
       In m (all_matches Demo.fs Demo.kws ["a.txt"; "b.txt"])) /\
    (results s2
     = [("fast", "a.txt", 1); ("go", "a.txt", 0); ("go", "b.txt", 0)]
     <-> found = []) /\
    (steady MultiProcessSearcher2 [Child 0; Child 1] ->
     steady MultiProcessSearcher2
       [Child 0; Child 0; Child 0; Child 0; Miss 0; Miss 1] ->
     Permutation found
       [("fast", "a.txt", 1); ("go", "a.txt", 0); ("go", "b.txt", 0)] /\
     results s2
     = sort ([("fast", "a.txt", 1); ("go", "a.txt", 0); ("go", "b.txt", 0)]
             ++ [("fast", "a.txt", 1); ("go", "a.txt", 0);
                 ("go", "b.txt", 0)]) /\
     (results s2
      = [("fast", "a.txt", 1); ("go", "a.txt", 0); ("go", "b.txt", 0)]
      <-> [("fast", "a.txt", 1); ("go", "a.txt", 0); ("go", "b.txt", 0)]
          = []) /\
     (forall sched3, steady MultiProcessSearcher2 sched3 ->
        results_of
          (search Demo.fs sched3
             (init MultiProcessSearcher2 ["a.txt"; "b.txt"] Demo.kws) 2)
        = Some [("fast", "a.txt", 1); ("go", "a.txt", 0);
                ("go", "b.txt", 0)])).
Proof.
  split; [reflexivity|].
  apply (repeated_search Demo.fs ["a.txt"; "b.txt"] Demo.kws
           MultiProcessSearcher2 2 [Child 0; Child 1]
           [Child 0; Child 0; Child 0; Child 0; Miss 0; Miss 1]
           (mkSearcher MultiProcessSearcher2 ["a.txt"; "b.txt"] Demo.kws
              [("fast", "a.txt", 1); ("go", "a.txt", 0); ("go", "b.txt", 0)])
           []).
  reflexivity.
Defined.



(** C4 (counterexample).  The keyword "Go" finds nothing in the line
    "going", nor in the file that reads "Going, going, gone". *)
Lemma keyword_Go_no_match :
  SearcherBase.match_line "b.txt" ["Go"] 0 "going" = [] /\
  results_of (search Demo.fs [] (init SingleThreadSearcher ["b.txt"] ["Go"]) 1)
  = Some [].
Proof. split; reflexivity. Qed.

(** C4 (as amended).  Keyword matching is substring containment of the
    keyword, as it is given, in the lower-cased line: a match is emitted for
    the keyword [w] and the line exactly when [w] is one of the keywords and
    occurs in the lower-cased line; so the keyword "go" matches every line
    that contains "going" in any letter case (substring, not whole word),
    and the keyword "Go", which is not lower-cased, matches no line. *)
Theorem keyword_matching_substring (file_name : string) (kws : list string)
    (i : nat) (line : string) :
  (forall w,
     In (w, file_name, i) (SearcherBase.match_line file_name kws i line) <->
     In w kws /\ Text.Substring w (Text.lower line)) /\
  (In "go" kws -> Text.Substring "going" (Text.lower line) ->
   In ("go", file_name, i) (SearcherBase.match_line file_name kws i line)) /\
  ~ In ("Go", file_name, i) (SearcherBase.match_line file_name kws i line).
Proof.
  assert (Hiff : forall w,
     In (w, file_name, i) (SearcherBase.match_line file_name kws i line) <->
     In w kws /\ Text.Substring w (Text.lower line)).
  { intros w. rewrite in_match_line. split.
    - intros (w' & [= <-] & Hw & Hc). split; [exact Hw|].
      now apply contains_iff.
    - intros (Hw & Hs). exists w. repeat split; [exact Hw|].
      now apply contains_iff. }
  split; [exact Hiff|split].
  - intros Hw (pre & post & Hs). apply Hiff. split; [exact Hw|].
    exists pre, ("ing" ++ post)%string. rewrite Hs. reflexivity.
  - intros H. apply Hiff in H as (_ & pre & post & Hs).
    now apply lower_has_no_G in Hs.
Qed.

Lemma keyword_matching_substring_witness :
  In ("go", "b.txt", 0)
     (SearcherBase.match_line "b.txt" ["go"; "fast"] 0 "Going, going, gone").
Proof.
  apply (keyword_matching_substring "b.txt" ["go"; "fast"] 0
           "Going, going, gone").
  - now left.
  - exists "", ", going, gone". reflexivity.
Defined.

(** C5 (counterexample).  A path that does not exist is listed with a
    file that cannot be read.  With the missing path first, the omission is
    logged, then the worker ends at "locked.txt": "a.txt" is there, it has
    two matches, and the result is empty.  With the missing path last, the
    worker has ended before it comes to it: the omission is not logged.
    And over files that can all be read or are missing: the one child of
    [MultiProcessSearcher2] meets [Empty] at its first call of
    [files.get(block=False)], before the names have reached the pipe, and
    neither searches "a.txt" nor logs the omission of "nope.txt". *)
Lemma missing_file_not_tolerated_with_fault :
  search Demo.fs []
    (init SingleThreadSearcher ["nope.txt"; "locked.txt"; "a.txt"] Demo.kws) 1
  = Return
      (mkSearcher SingleThreadSearcher ["nope.txt"; "locked.txt"; "a.txt"]
         Demo.kws [],
       ["File nope.txt not found"; "Worker error: Permission denied"]) /\
  file_matches Demo.fs Demo.kws "a.txt"
  = [("go", "a.txt", 0); ("fast", "a.txt", 1)] /\
  search Demo.fs []
    (init SingleThreadSearcher ["locked.txt"; "nope.txt"] Demo.kws) 1
  = Return
      (mkSearcher SingleThreadSearcher ["locked.txt"; "nope.txt"] Demo.kws [],
       ["Worker error: Permission denied"]) /\
  search Demo.fs [Miss 0]
    (init MultiProcessSearcher2 ["nope.txt"; "a.txt"] Demo.kws) 1
  = Return
      (mkSearcher MultiProcessSearcher2 ["nope.txt"; "a.txt"] Demo.kws [],
       []).
Proof. repeat split. Qed.

(** C5 (as amended).  Missing files are tolerated.  [search_words] on a
    path that does not exist logs the line "File ... not found", pushes no
    match and raises nothing, and the worker goes on with its next file.
    With [n_workers] >= 1, [search] returns for every searcher, list of
    files and schedule, and no tuple of the result list is of a missing
    path.  When each file of the list is there to be read or is missing,
    and no call of [files.get(block=False)] of [MultiProcessSearcher2]
    raises [Empty] while names are queued, the result list is the sort of
    exactly the matches of the files that exist, and the log has one "not
    found" line for each missing path of the list and nothing else. *)
Theorem missing_file_tolerance (fs : filesystem) (fl kws : list string)
    (c : strategy) (n : Z) (sched : schedule) :
  (1 <= n)%Z ->
  (forall f rest, fs f = Missing ->
     SearcherBase.search_words fs f kws
     = ([LogError (SearcherBase.not_found_msg f)], None) /\
     file_matches fs kws f = [] /\
     SearcherBase.worker fs (f :: rest) kws
     = LogError (SearcherBase.not_found_msg f)
       :: SearcherBase.worker fs rest kws) /\
  exists s lg,
    search fs sched (init c fl kws) n = Return (s, lg) /\
    (forall m, In m (results s) -> fs (fname m) <> Missing) /\
    (no_faults fs fl -> steady c sched ->
     results s
     = sort (all_matches fs kws
               (filter (fun f => negb (is_missing (fs f))) fl)) /\
     Permutation lg (map SearcherBase.not_found_msg (missing_files fs fl))).
Proof.
  intros Hn. split.
  - intros f rest Hf. split; [|split].
    + unfold SearcherBase.search_words. now rewrite Hf.
    + unfold file_matches. now rewrite Hf.
    + now apply worker_missing.
  - assert (Hz : divides_by_zero (init c fl kws) n = false).
    { unfold divides_by_zero. destruct c; try reflexivity;
        apply Z.eqb_neq; lia. }
    destruct (search_returns fs sched _ n Hz) as (searched & lg & Hs & _ & _).
    eexists _, lg. split; [exact Hs|]. split.
    + simpl. intros m Hin Hmiss.
      apply (Permutation_in _ (sort_perm _)) in Hin.
      apply in_all_matches in Hin
        as (w & f & i & line & -> & _ & _ & Hk & _).
      unfold fname in Hmiss. simpl in Hmiss. rewrite Hmiss in Hk.
      now destruct i.
    + intros HN HQ.
      destruct (search_no_faults fs sched (init c fl kws) n HQ Hn HN)
        as (lg' & Hs' & Hlg).
      rewrite Hs in Hs'. injection Hs' as Hr <-.
      split; [|exact Hlg].
      simpl in *. now rewrite Hr, <- all_matches_existing.
Qed.

Lemma missing_file_tolerance_witness :
  (1 <= 2)%Z /\
  exists s lg,
    search Demo.fs [Child 1; Main; Child 0]
      (init MultiThreadSearcher ["a.txt"; "nope.txt"; "b.txt"] Demo.kws) 2
    = Return (s, lg) /\
    (forall m, In m (results s) -> Demo.fs (fname m) <> Missing) /\
    (no_faults Demo.fs ["a.txt"; "nope.txt"; "b.txt"] ->
     steady MultiThreadSearcher [Child 1; Main; Child 0] ->
     results s
     = sort (all_matches Demo.fs Demo.kws
               (filter (fun f => negb (is_missing (Demo.fs f)))
                  ["a.txt"; "nope.txt"; "b.txt"])) /\
     Permutation lg
       (map SearcherBase.not_found_msg
          (missing_files Demo.fs ["a.txt"; "nope.txt"; "b.txt"]))).
Proof.
  split; [lia|].
  apply (missing_file_tolerance Demo.fs ["a.txt"; "nope.txt"; "b.txt"]
           Demo.kws MultiThreadSearcher 2 [Child 1; Main; Child 0]).
  lia.
Defined.

(** C6.  When [search] returns, [self.results] is sorted ascending in the
    order of tuples, which is the lexicographic order by keyword, file name
    and line number; it is the sort of the whole list that [start_workers]
    left, applied once after every worker has finished: the list the
    workers left is only permuted. *)
Theorem results_sorted (fs : filesystem) (sched : schedule) (self : searcher)
    (n : Z) (s : searcher) (lg : list string) :
  search fs sched self n = Return (s, lg) ->
  StronglySorted match_le (results s) /\
  (forall a b, match_le a b <-> lexicographic_le a b) /\
  exists raw,
    start_workers fs sched self n = Return (raw, lg) /\
    results s = sort raw /\
    Permutation (results s) raw.
Proof.
  unfold search. intros H.
  destruct (start_workers fs sched self n) as [[raw lg']|e]; [|discriminate].
  injection H as <- <-. simpl.
  split; [apply sort_sorted|].
  split; [apply match_le_lexicographic|].
  exists raw. repeat split. apply sort_perm.
Qed.

Lemma results_sorted_witness :
  StronglySorted match_le
    [("fast", "a.txt", 1); ("go", "a.txt", 0); ("go", "b.txt", 0)].
Proof.
  apply (results_sorted Demo.fs [Child 1; Child 0; Main; Child 1]
           (init MultiProcessSearcher2 ["a.txt"; "b.txt"; "nope.txt"] Demo.kws)
           2
           (mkSearcher MultiProcessSearcher2 ["a.txt"; "b.txt"; "nope.txt"]
              Demo.kws
              [("fast", "a.txt", 1); ("go", "a.txt", 0); ("go", "b.txt", 0)])
           ["File nope.txt not found"]).
  reflexivity.
Defined.

(** C7 (counterexample).  With a negative number of workers the call is
    not rejected: the threaded searcher returns, having searched nothing;
    the single-threaded one searches as usual with 0 workers. *)
Lemma negative_workers_not_rejected :
  search Demo.fs [] (init MultiThreadSearcher ["a.txt"] Demo.kws) (-1)
  = Return (init MultiThreadSearcher ["a.txt"] Demo.kws, []) /\
  results_of (search Demo.fs [] (init SingleThreadSearcher ["a.txt"] Demo.kws) 0)
  = Some [("fast", "a.txt", 1); ("go", "a.txt", 0)].
Proof. split; reflexivity. Qed.

(** C7 (as amended).  Nothing guards the number of workers.  For
    [n_workers] <= 0: [SingleThreadSearcher] does not read it and searches
    as with one worker; [MultiThreadSearcher] and [MultiProcessSearcher]
    raise [ZeroDivisionError] out of [search] when it is 0, and when it is
    negative start no worker and return with no new match and nothing
    logged; [MultiProcessSearcher2] starts no worker and returns in the same
    way for every [n_workers] <= 0. *)
Theorem nonpositive_workers (fs : filesystem) (sched : schedule)
    (self : searcher) (n : Z) :
  (n <= 0)%Z ->
  match cls self with
  | SingleThreadSearcher => search fs sched self n = search fs sched self 1
  | MultiThreadSearcher | MultiProcessSearcher =>
      if (n =? 0)%Z then search fs sched self n = Raise ZeroDivisionError
      else search fs sched self n
           = Return (with_results self (sort (results self)), [])
  | MultiProcessSearcher2 =>
      search fs sched self n
      = Return (with_results self (sort (results self)), [])
  end.
Proof.
  intros Hn.
  assert (Hstatic :
    cls self = MultiThreadSearcher \/ cls self = MultiProcessSearcher ->
    if (n =? 0)%Z then search fs sched self n = Raise ZeroDivisionError
    else search fs sched self n
         = Return (with_results self (sort (results self)), [])).
  { intros Hc. destruct (Z.eqb_spec n 0) as [->|Hn0].
    - now apply search_static_zero.
    - destruct (search_static fs sched self n Hc Hn0) as (evs & HP & Hs).
      rewrite partition_nonpos in HP by lia. simpl in HP.
      symmetry in HP. apply Permutation_nil in HP. subst evs.
      rewrite Hs. simpl. now rewrite app_nil_r. }
  destruct (cls self) eqn:Hc.
  - unfold search, start_workers. now rewrite Hc.
  - apply Hstatic. now left.
  - apply Hstatic. now right.
  - rewrite search_dynamic by exact Hc.
    rewrite dynamic_no_child by exact Hn. simpl. now rewrite app_nil_r.
Qed.

Lemma nonpositive_workers_witness :
  (0 <= 0)%Z /\
  search Demo.fs [Child 0] (init MultiProcessSearcher ["a.txt"] Demo.kws) 0
  = Raise ZeroDivisionError.
Proof.
  split; [lia|].
  apply (nonpositive_workers Demo.fs [Child 0]
           (init MultiProcessSearcher ["a.txt"] Demo.kws) 0).
  lia.
Defined.

(** C8 (counterexample).  With one child and a first file that cannot be
    read, the child takes that file, faults and ends: "a.txt" stays on the
    queue of files and is never searched.  And with a file that can be
    read: the one child calls [files.get(block=False)] before the name has
    reached the pipe, meets [Empty] and ends; "a.txt" stays queued. *)
Lemma dynamic_queue_skips_files :
  taken_files
    (MultiProcess2.final Demo.fs []
       (init MultiProcessSearcher2 ["locked.txt"; "a.txt"] Demo.kws) 1)
  = ["locked.txt"] /\
  MultiProcess2.files_queue
    (MultiProcess2.final Demo.fs []
       (init MultiProcessSearcher2 ["locked.txt"; "a.txt"] Demo.kws) 1)
  = ["a.txt"] /\
  results_of
    (search Demo.fs []
       (init MultiProcessSearcher2 ["locked.txt"; "a.txt"] Demo.kws) 1)
  = Some [] /\
  taken_files
    (MultiProcess2.final Demo.fs [Miss 0]
       (init MultiProcessSearcher2 ["a.txt"] Demo.kws) 1)
  = [] /\
  MultiProcess2.files_queue
    (MultiProcess2.final Demo.fs [Miss 0]
       (init MultiProcessSearcher2 ["a.txt"] Demo.kws) 1)
  = ["a.txt"] /\
  results_of
    (search Demo.fs [Miss 0]
       (init MultiProcessSearcher2 ["a.txt"] Demo.kws) 1)
  = Some [].
Proof. repeat split. Qed.

(** C8 (as amended).  In [MultiProcessSearcher2] all the files are put on
    the one queue of files, in order, before any child runs and none is
    taken yet.  Under every schedule and for every [n_workers], when the run
    ends the files taken by the children, in the order they were taken,
    followed by the files left on the queue, are the files of the searcher:
    no file is taken twice; and the matches collected are those of the
    files taken, each searched once.  Files can be left.  When no file
    raises anything but [FileNotFoundError], [n_workers] >= 1 and no call of
    [files.get(block=False)] raises [Empty] while names are queued, no file
    is left: every file is taken and searched exactly once. *)
Theorem dynamic_queue_completeness (fs : filesystem) (sched : schedule)
    (self : searcher) (n : Z) :
  let st := MultiProcess2.final fs sched self n in
  MultiProcess2.files_queue (MultiProcess2.start self n) = files self /\
  MultiProcess2.taken (MultiProcess2.start self n) = [] /\
  List.length (MultiProcess2.procs (MultiProcess2.start self n)) = Z.to_nat n /\
  taken_files st ++ MultiProcess2.files_queue st = files self /\
  Permutation (MultiProcess2.collected st)
    (results self ++ all_matches fs (key_words self) (taken_files st)) /\
  (quiet sched -> no_faults fs (files self) -> (1 <= n)%Z ->
   taken_files st = files self /\ MultiProcess2.files_queue st = []).
Proof.
  intros st.
  destruct (dynamic_final fs sched self n) as (HP & HF & HA). fold st in HP, HF, HA.
  split; [reflexivity|]. split; [reflexivity|].
  split; [simpl; now rewrite length_map, range_length|].
  split; [exact HF|]. split; [exact HP|].
  intros HQ HN Hn. specialize (HA HQ HN Hn). split; [exact HA|].
  rewrite HA in HF. rewrite <- (app_nil_r (files self)) in HF at 2.
  now apply app_inv_head in HF.
Qed.

Lemma dynamic_queue_completeness_witness :
  quiet [Child 1; Child 0; Child 1; Main] /\
  no_faults Demo.fs ["a.txt"; "nope.txt"; "b.txt"] /\ (1 <= 2)%Z /\
  taken_files
    (MultiProcess2.final Demo.fs [Child 1; Child 0; Child 1; Main]
       (init MultiProcessSearcher2 ["a.txt"; "nope.txt"; "b.txt"] Demo.kws) 2)
  = ["a.txt"; "nope.txt"; "b.txt"] /\
  MultiProcess2.files_queue
    (MultiProcess2.final Demo.fs [Child 1; Child 0; Child 1; Main]
       (init MultiProcessSearcher2 ["a.txt"; "nope.txt"; "b.txt"] Demo.kws) 2)
  = [].
Proof.
  assert (HN : no_faults Demo.fs ["a.txt"; "nope.txt"; "b.txt"])
    by (repeat constructor).
  assert (HQ : quiet [Child 1; Child 0; Child 1; Main])
    by (repeat constructor).
  split; [exact HQ|]. split; [exact HN|]. split; [lia|].
  apply (dynamic_queue_completeness Demo.fs [Child 1; Child 0; Child 1; Main]
           (init MultiProcessSearcher2 ["a.txt"; "nope.txt"; "b.txt"]
              Demo.kws) 2); [exact HQ|exact HN|lia].
Defined.

(** C9.  Only [FileNotFoundError] is handled per file.  When reading [f]
    raises another exception [err], [search_words] lets it out, and the
    worker logs it and stops: the events of the worker end with that log
    line and do not depend on the files [rest] that follow, which are not
    searched.  When [f] is missing, [search_words] logs it and returns, and
    the worker goes on with [rest]. *)
Theorem only_file_not_found_is_handled (fs : filesystem) (kws : list string)
    (pre : list string) (f : string) (rest : list string) :
  no_faults fs pre ->
  (forall c err, fs f = Faulty c err ->
     SearcherBase.search_words fs f kws
     = (map Push (SearcherBase.scan f kws 0 (Text.readlines c)), Some err) /\
     SearcherBase.worker fs (pre ++ f :: rest) kws
     = SearcherBase.worker fs pre kws
       ++ map Push (SearcherBase.scan f kws 0 (Text.readlines c))
       ++ [LogError (SearcherBase.worker_error_msg err)] /\
     reached fs (pre ++ f :: rest) = pre ++ [f]) /\
  (fs f = Missing ->
     SearcherBase.search_words fs f kws
     = ([LogError (SearcherBase.not_found_msg f)], None) /\
     SearcherBase.worker fs (pre ++ f :: rest) kws
     = SearcherBase.worker fs pre kws
       ++ LogError (SearcherBase.not_found_msg f)
          :: SearcherBase.worker fs rest kws /\
     reached fs (pre ++ f :: rest) = pre ++ f :: reached fs rest).
Proof.
  intros Hpre. split.
  - intros c err Hf. split; [|split].
    + unfold SearcherBase.search_words. now rewrite Hf.
    + rewrite worker_app by exact Hpre. f_equal.
      now apply worker_faulty.
    + induction Hpre as [|p pre Hp _ IH]; simpl.
      * now rewrite Hf.
      * now rewrite Hp, IH.
  - intros Hf. split; [|split].
    + unfold SearcherBase.search_words. now rewrite Hf.
    + rewrite worker_app by exact Hpre. f_equal.
      now apply worker_missing.
    + induction Hpre as [|p pre Hp _ IH]; simpl.
      * now rewrite Hf.
      * now rewrite Hp, IH.
Qed.

Lemma only_file_not_found_is_handled_witness :
  SearcherBase.worker Demo.fs (["a.txt"] ++ "locked.txt" :: ["b.txt"]) Demo.kws
  = SearcherBase.worker Demo.fs ["a.txt"] Demo.kws
    ++ map Push (SearcherBase.scan "locked.txt" Demo.kws 0 (Text.readlines ""))
    ++ [LogError (SearcherBase.worker_error_msg "Permission denied")]
  /\
  SearcherBase.worker Demo.fs (["a.txt"] ++ "nope.txt" :: ["b.txt"]) Demo.kws
  = SearcherBase.worker Demo.fs ["a.txt"] Demo.kws
    ++ LogError (SearcherBase.not_found_msg "nope.txt")
       :: SearcherBase.worker Demo.fs ["b.txt"] Demo.kws.
Proof.
  split.
  - apply (only_file_not_found_is_handled Demo.fs Demo.kws ["a.txt"]
             "locked.txt" ["b.txt"]); [repeat constructor|reflexivity].
  - apply (only_file_not_found_is_handled Demo.fs Demo.kws ["a.txt"]
             "nope.txt" ["b.txt"]); [repeat constructor|reflexivity].
Defined.

(** C10 (counterexample).  The keyword "go" is listed twice: the tuple of
    "go" and the one line of "b.txt" is emitted twice. *)
Lemma keyword_listed_twice_emitted_twice :
  results_of
    (search Demo.fs [] (init SingleThreadSearcher ["b.txt"] ["go"; "go"]) 1)
  = Some [("go", "b.txt", 0); ("go", "b.txt", 0)].
Proof. reflexivity. Qed.

(** C10 (as amended).  Soundness of the results.  After [search] on a new
    searcher, every tuple [(w, f, i)] of the result list has [w] among the
    keywords, [f] among the files, [i] >= 0, and [w] is a substring of the
    lower-cased line [i] (counted from 0) of the file [f].  The searcher
    has searched some of the listed files, each no more often than it is
    listed ([searched]; in runs in which no call of [files.get(block=False)]
    raises [Empty] while names are queued, the files that the workers
    reach), and in the result list the tuple of a keyword and a line of a
    file occurs, for each time the file was searched, as often as the
    keyword is listed if the keyword is in the lower-cased line, however
    often it is there, and never otherwise: once for a keyword listed once
    and a file searched once. *)
Theorem result_soundness (fs : filesystem) (sched : schedule) (c : strategy)
    (fl kws : list string) (n : Z) (s : searcher) (lg : list string) :
  search fs sched (init c fl kws) n = Return (s, lg) ->
  (forall w f i, In (w, f, i) (results s) ->
     In w kws /\ In f fl /\ (0 <= i)%nat /\
     exists line,
       nth_error (file_lines (fs f)) i = Some line /\
       Text.Substring w (Text.lower line)) /\
  exists searched,
    (forall f,
       (count_occ string_dec searched f <= count_occ string_dec fl f)%nat) /\
    (steady c sched -> searched = searched_files fs c n fl) /\
    (forall w f i,
       count_occ match_eq_dec (results s) (w, f, i)
       = (count_occ string_dec searched f
          * match nth_error (file_lines (fs f)) i with
            | Some line =>
                if Text.contains w (Text.lower line)
                then count_occ string_dec kws w else 0
            | None => 0
            end)%nat) /\
    (forall w f i line,
       count_occ string_dec searched f = 1%nat ->
       count_occ string_dec kws w = 1%nat ->
       nth_error (file_lines (fs f)) i = Some line ->
       Text.Substring w (Text.lower line) ->
       count_occ match_eq_dec (results s) (w, f, i) = 1%nat).
Proof.
  intros Hs.
  assert (Hz : divides_by_zero (init c fl kws) n = false).
  { destruct (divides_by_zero (init c fl kws) n) eqn:Hz; [|reflexivity].
    rewrite (search_raises _ _ _ _ Hz) in Hs. discriminate. }
  destruct (search_searched fs sched _ n Hz)
    as (searched & lg' & Hr & Hcnt & Hq).
  rewrite Hr in Hs. injection Hs as <- <-.
  cbn [results init app key_words with_results files cls] in *.
  assert (Hcount : forall w f i,
     count_occ match_eq_dec (sort (all_matches fs kws searched)) (w, f, i)
     = (count_occ string_dec searched f
        * match nth_error (file_lines (fs f)) i with
          | Some line =>
              if Text.contains w (Text.lower line)
              then count_occ string_dec kws w else 0
          | None => 0
          end)%nat).
  { intros w f i.
    rewrite (proj1 (Permutation_count_occ match_eq_dec _ _)
               (sort_perm (all_matches fs kws searched))).
    now rewrite count_all_matches, count_file_matches. }
  split.
  - intros w f i Hin.
    apply (Permutation_in _ (sort_perm _)) in Hin.
    apply in_all_matches in Hin
      as (w' & f' & i' & line & [= <- <- <-] & Hw & Hf & Hk & Hc).
    repeat split; auto; [|lia|].
    + apply (count_occ_In string_dec).
      apply (count_occ_In string_dec) in Hf. specialize (Hcnt f). lia.
    + exists line. split; [exact Hk|]. now apply contains_iff.
  - exists searched. split; [exact Hcnt|]. split; [exact Hq|].
    split; [exact Hcount|].
    intros w f i line Hf Hw Hi Hsub. rewrite Hcount, Hf, Hw, Hi.
    apply contains_iff in Hsub. now rewrite Hsub.
Qed.

Lemma result_soundness_witness :
  search Demo.fs [Child 1; Child 0]
    (init MultiThreadSearcher ["a.txt"; "b.txt"] ["go"; "fast"; "go"]) 2
  = Return
      (mkSearcher MultiThreadSearcher ["a.txt"; "b.txt"] ["go"; "fast"; "go"]
         [("fast", "a.txt", 1); ("go", "a.txt", 0); ("go", "a.txt", 0);
          ("go", "b.txt", 0); ("go", "b.txt", 0)],
       []) /\
  (forall w f i,
     In (w, f, i)
       [("fast", "a.txt", 1); ("go", "a.txt", 0); ("go", "a.txt", 0);
        ("go", "b.txt", 0); ("go", "b.txt", 0)] ->
     In w ["go"; "fast"; "go"] /\ In f ["a.txt"; "b.txt"] /\ (0 <= i)%nat /\
     exists line,
       nth_error (file_lines (Demo.fs f)) i = Some line /\
       Text.Substring w (Text.lower line)) /\
  exists searched,
    (forall f,
       (count_occ string_dec searched f
        <= count_occ string_dec ["a.txt"; "b.txt"] f)%nat) /\
    (steady MultiThreadSearcher [Child 1; Child 0] ->
     searched
     = searched_files Demo.fs MultiThreadSearcher 2 ["a.txt"; "b.txt"]) /\
    (forall w f i,
       count_occ match_eq_dec
         [("fast", "a.txt", 1); ("go", "a.txt", 0); ("go", "a.txt", 0);
          ("go", "b.txt", 0); ("go", "b.txt", 0)] (w, f, i)
       = (count_occ string_dec searched f
          * match nth_error (file_lines (Demo.fs f)) i with
            | Some line =>
                if Text.contains w (Text.lower line)
                then count_occ string_dec ["go"; "fast"; "go"] w else 0
            | None => 0
            end)%nat) /\
    (forall w f i line,
       count_occ string_dec searched f = 1%nat ->
       count_occ string_dec ["go"; "fast"; "go"] w = 1%nat ->
       nth_error (file_lines (Demo.fs f)) i = Some line ->
       Text.Substring w (Text.lower line) ->
       count_occ match_eq_dec
         [("fast", "a.txt", 1); ("go", "a.txt", 0); ("go", "a.txt", 0);
          ("go", "b.txt", 0); ("go", "b.txt", 0)] (w, f, i) = 1%nat).
Proof.
  split; [reflexivity|].
  apply (result_soundness Demo.fs [Child 1; Child 0] MultiThreadSearcher
           ["a.txt"; "b.txt"] ["go"; "fast"; "go"] 2
           (mkSearcher MultiThreadSearcher ["a.txt"; "b.txt"]
              ["go"; "fast"; "go"]
              [("fast", "a.txt", 1); ("go", "a.txt", 0); ("go", "a.txt", 0);
               ("go", "b.txt", 0); ("go", "b.txt", 0)])
           []).
  reflexivity.
Defined.

(** * Further properties of the searchers *)

Lemma search_returned (fs : filesystem) (sched : schedule) (self : searcher)
    (n : Z) (s : searcher) (lg : list string) :
  search fs sched self n = Return (s, lg) ->
  exists searched,
    s = with_results self
          (sort (results self ++ all_matches fs (key_words self) searched)) /\
    incl searched (files self).
Proof.
  intros Hs.
  assert (Hz : divides_by_zero self n = false).
  { destruct (divides_by_zero self n) eqn:Hz; [|reflexivity].
    rewrite (search_raises _ _ _ _ Hz) in Hs. discriminate. }
  destruct (search_returns fs sched self n Hz) as (searched & lg' & Hr & Hi & _).
  rewrite Hr in Hs. injection Hs as <- <-. now exists searched.
Qed.

Lemma scan_no_keywords (f : string) (lines : list string) :
  forall i, SearcherBase.scan f [] i lines = [].
Proof. induction lines as [|l lines IH]; intros i; simpl; auto. Qed.

Lemma all_matches_no_keywords (fs : filesystem) (fl : list string) :
  all_matches fs [] fl = [].
Proof.
  induction fl as [|f fl IH]; simpl; [reflexivity|].
  unfold file_matches. now rewrite scan_no_keywords.
Qed.

(** X1.  With an empty list of keywords every searcher that returns has an
    empty result list, whatever the files, the number of workers and the
    schedule. *)
Theorem no_keywords_no_results (fs : filesystem) (sched : schedule)
    (c : strategy) (fl : list string) (n : Z) (s : searcher)
    (lg : list string) :
  search fs sched (init c fl []) n = Return (s, lg) -> results s = [].
Proof.
  intros Hs. apply search_returned in Hs as (searched & -> & _).
  simpl. now rewrite all_matches_no_keywords.
Qed.

Lemma no_keywords_no_results_witness :
  results
    (mkSearcher MultiProcessSearcher2 ["a.txt"; "locked.txt"; "b.txt"] [] [])
  = [].
Proof.
  apply (no_keywords_no_results Demo.fs [Child 0; Child 1]
           MultiProcessSearcher2 ["a.txt"; "locked.txt"; "b.txt"] 2 _
           ["Worker error: Permission denied"]).
  reflexivity.
Defined.

Lemma incl_nil_eq {A : Type} (l : list A) : incl l [] -> l = [].
Proof. destruct l as [|x l]; [reflexivity|]. intros H. destruct (H x). now left. Qed.

Lemma workers_of_no_files (fs : filesystem) (kws : list string) (n : Z) :
  List.concat
    (map (fun fl => SearcherBase.worker fs fl kws) (partition [] n)) = [].
Proof.
  unfold partition. induction (Py.range n) as [|i r IH]; simpl; [reflexivity|].
  rewrite IH, app_nil_r. unfold worker_files.
  now rewrite (incl_nil_eq _ (slice_incl [] _ _)).
Qed.

(** X2.  With an empty list of files every searcher that returns has found
    nothing and has logged nothing. *)
Theorem no_files_nothing_found (fs : filesystem) (sched : schedule)
    (c : strategy) (kws : list string) (n : Z) (s : searcher)
    (lg : list string) :
  search fs sched (init c [] kws) n = Return (s, lg) ->
  results s = [] /\ lg = [].
Proof.
  intros Hs. split.
  - apply search_returned in Hs as (searched & -> & Hi).
    simpl in *. now rewrite (incl_nil_eq _ Hi).
  - destruct c.
    + rewrite search_single in Hs by reflexivity. now injection Hs as _ <-.
    + destruct (Z.eqb_spec n 0) as [->|Hn];
        [rewrite search_static_zero in Hs by (now left); discriminate|].
      destruct (search_static fs sched (init MultiThreadSearcher [] kws) n
                  (or_introl eq_refl) Hn) as (evs & HP & Hs').
      rewrite Hs' in Hs. injection Hs as _ <-. simpl in HP.
      rewrite workers_of_no_files in HP. symmetry in HP.
      apply Permutation_nil in HP. now subst evs.
    + destruct (Z.eqb_spec n 0) as [->|Hn];
        [rewrite search_static_zero in Hs by (now right); discriminate|].
      destruct (search_static fs sched (init MultiProcessSearcher [] kws) n
                  (or_intror eq_refl) Hn) as (evs & HP & Hs').
      rewrite Hs' in Hs. injection Hs as _ <-. simpl in HP.
      rewrite workers_of_no_files in HP. symmetry in HP.
      apply Permutation_nil in HP. now subst evs.
    + rewrite search_dynamic in Hs by reflexivity.
      assert (Hlg : MultiProcess2.log
                      (MultiProcess2.final fs sched
                         (init MultiProcessSearcher2 [] kws) n) = lg)
        by congruence.
      rewrite <- Hlg. clear Hs Hlg.
      pose proof (dynamic_final_log fs sched
                    (init MultiProcessSearcher2 [] kws) n) as HL.
      destruct (dynamic_final fs sched (init MultiProcessSearcher2 [] kws) n)
        as (_ & HF & _).
      apply app_eq_nil in HF as [HF _]. rewrite HF in HL.
      apply Permutation_nil. symmetry. apply HL. constructor.
Qed.

Lemma no_files_nothing_found_witness :
  results (mkSearcher MultiProcessSearcher [] Demo.kws []) = [] /\
  @nil string = [].
Proof.
  apply (no_files_nothing_found Demo.fs [Main; Child 2] MultiProcessSearcher
           Demo.kws 3).
  reflexivity.
Defined.

Lemma match_line_keywords_perm (f : string) (i : nat) (line : string)
    (kws kws' : list string) :
  Permutation kws kws' ->
  Permutation (SearcherBase.match_line f kws i line)
    (SearcherBase.match_line f kws' i line).
Proof.
  intros HP. unfold SearcherBase.match_line. cbv zeta.
  now apply Permutation_flat_map.
Qed.

Lemma scan_keywords_perm (f : string) (kws kws' : list string)
    (lines : list string) :
  Permutation kws kws' ->
  forall i,
  Permutation (SearcherBase.scan f kws i lines)
    (SearcherBase.scan f kws' i lines).
Proof.
  intros HP. induction lines as [|l lines IH]; intros i; simpl; [constructor|].
  apply Permutation_app; [now apply match_line_keywords_perm|apply IH].
Qed.

Lemma all_matches_perm (fs : filesystem) (kws kws' fl fl' : list string) :
  Permutation kws kws' -> Permutation fl fl' ->
  Permutation (all_matches fs kws fl) (all_matches fs kws' fl').
Proof.
  intros Hk Hf. unfold all_matches.
  transitivity (flat_map (file_matches fs kws) fl').
  - now apply Permutation_flat_map.
  - clear Hf. induction fl' as [|f fl' IH]; simpl; [constructor|].
    apply Permutation_app; [|exact IH].
    unfold file_matches. now apply scan_keywords_perm.
Qed.

(** X3.  The result does not depend on the order in which the files and the
    keywords are listed: over files none of which raises anything but
    [FileNotFoundError] and with at least one worker, two new searchers of
    any classes whose lists of files and of keywords are rearrangements of
    each other return the same result list, under any schedules in which no
    call of [files.get(block=False)] of [MultiProcessSearcher2] raises
    [Empty] while names are queued. *)
Theorem results_independent_of_order (fs : filesystem)
    (fl fl' kws kws' : list string) (c c' : strategy) (n n' : Z)
    (sched sched' : schedule) :
  (1 <= n)%Z -> (1 <= n')%Z -> no_faults fs fl ->
  steady c sched -> steady c' sched' ->
  Permutation fl fl' -> Permutation kws kws' ->
  exists r,
    results_of (search fs sched (init c fl kws) n) = Some r /\
    results_of (search fs sched' (init c' fl' kws') n') = Some r.
Proof.
  intros Hn Hn' HN HQ HQ' Hf Hk.
  assert (HN' : no_faults fs fl')
    by (unfold no_faults in *; eapply Permutation_Forall; eassumption).
  destruct (search_no_faults fs sched (init c fl kws) n HQ Hn HN)
    as (lg & H1 & _).
  destruct (search_no_faults fs sched' (init c' fl' kws') n' HQ' Hn' HN')
    as (lg' & H2 & _).
  exists (sort (all_matches fs kws fl)). rewrite H1, H2. simpl.
  split; [reflexivity|]. f_equal. apply sort_unique.
  symmetry. now apply all_matches_perm.
Qed.

Lemma results_independent_of_order_witness :
  exists r,
    results_of
      (search Demo.fs [Child 0]
         (init MultiThreadSearcher ["a.txt"; "b.txt"; "nope.txt"]
            ["go"; "fast"]) 2)
    = Some r /\
    results_of
      (search Demo.fs [Child 1; Main]
         (init MultiProcessSearcher2 ["nope.txt"; "b.txt"; "a.txt"]
            ["fast"; "go"]) 1)
    = Some r.
Proof.
  apply (results_independent_of_order Demo.fs
           ["a.txt"; "b.txt"; "nope.txt"] ["nope.txt"; "b.txt"; "a.txt"]
           ["go"; "fast"] ["fast"; "go"]); try lia.
  - repeat constructor.
  - intros H. discriminate H.
  - intros _. repeat constructor.
  - apply Permutation_rev with (l := ["a.txt"; "b.txt"; "nope.txt"]).
  - apply perm_swap.
Defined.

(** X4.  Searching a list of files in two parts gives the same as searching
    it whole: over files none of which raises anything but
    [FileNotFoundError] and with at least one worker, the result for
    [a ++ b] is the sort of the results for [a] and for [b] put together,
    for any classes of the three searchers and any schedules in which no
    call of [files.get(block=False)] of [MultiProcessSearcher2] raises
    [Empty] while names are queued. *)
Theorem search_of_concatenation (fs : filesystem) (a b kws : list string)
    (c ca cb : strategy) (n na nb : Z) (sched scheda schedb : schedule) :
  (1 <= n)%Z -> (1 <= na)%Z -> (1 <= nb)%Z -> no_faults fs (a ++ b) ->
  steady c sched -> steady ca scheda -> steady cb schedb ->
  exists r ra rb,
    results_of (search fs sched (init c (a ++ b) kws) n) = Some r /\
    results_of (search fs scheda (init ca a kws) na) = Some ra /\
    results_of (search fs schedb (init cb b kws) nb) = Some rb /\
    r = sort (ra ++ rb).
Proof.
  intros Hn Hna Hnb HN HQ HQa HQb.
  pose proof HN as HN'. unfold no_faults in HN'.
  apply Forall_app in HN' as [Ha Hb].
  destruct (search_no_faults fs sched (init c (a ++ b) kws) n HQ Hn HN)
    as (lg & H & _).
  destruct (search_no_faults fs scheda (init ca a kws) na HQa Hna Ha)
    as (lga & H1 & _).
  destruct (search_no_faults fs schedb (init cb b kws) nb HQb Hnb Hb)
    as (lgb & H2 & _).
  eexists _, _, _. rewrite H, H1, H2. simpl.
  repeat split. apply sort_unique.
  rewrite all_matches_app. apply Permutation_app; symmetry; apply sort_perm.
Qed.

Lemma search_of_concatenation_witness :
  exists r ra rb,
    results_of
      (search Demo.fs [] (init SingleThreadSearcher (["a.txt"] ++ ["b.txt"])
                            Demo.kws) 1) = Some r /\
    results_of
      (search Demo.fs [Child 0] (init MultiThreadSearcher ["a.txt"] Demo.kws) 2)
    = Some ra /\
    results_of
      (search Demo.fs [Main] (init MultiProcessSearcher ["b.txt"] Demo.kws) 1)
    = Some rb /\
    r = sort (ra ++ rb).
Proof.
  apply (search_of_concatenation Demo.fs ["a.txt"] ["b.txt"] Demo.kws);
    try lia; try (intros H; discriminate H).
  repeat constructor.
Defined.

(** X5.  In the single-threaded searcher a file that raises another
    exception than [FileNotFoundError] ends the whole search: when the
    files before [f] can be read or are missing and reading [f] raises
    [err], the result is the sort of the matches of the files up to [f]
    (with what was read of [f]), the files after [f] are not searched, and
    the log is the "not found" lines of the missing files before [f]
    followed by the "Worker error" line. *)
Theorem single_thread_stops_at_fault (fs : filesystem) (sched : schedule)
    (pre : list string) (f : string) (rest kws : list string) (n : Z)
    (content err : string) :
  no_faults fs pre -> fs f = Faulty content err ->
  search fs sched (init SingleThreadSearcher (pre ++ f :: rest) kws) n
  = Return
      (mkSearcher SingleThreadSearcher (pre ++ f :: rest) kws
         (sort (all_matches fs kws (pre ++ [f]))),
       map SearcherBase.not_found_msg (missing_files fs pre)
       ++ [SearcherBase.worker_error_msg err]).
Proof.
  intros Hpre Hf. rewrite search_single by reflexivity. simpl.
  assert (Hr : reached fs (pre ++ f :: rest) = pre ++ [f]).
  { clear -Hpre Hf. induction Hpre as [|p pre Hp _ IH]; simpl.
    - now rewrite Hf.
    - now rewrite Hp, IH. }
  unfold with_results. simpl. rewrite Hr.
  rewrite worker_app, logged_app, worker_logged by exact Hpre.
  rewrite (worker_faulty fs kws f rest content err Hf).
  now rewrite logged_app, logged_map_Push.
Qed.

Lemma single_thread_stops_at_fault_witness :
  search Demo.fs [] (init SingleThreadSearcher
                       (["nope.txt"; "b.txt"] ++ "locked.txt" :: ["a.txt"])
                       Demo.kws) 1
  = Return
      (mkSearcher SingleThreadSearcher
         (["nope.txt"; "b.txt"] ++ "locked.txt" :: ["a.txt"]) Demo.kws
         (sort (all_matches Demo.fs Demo.kws
                  (["nope.txt"; "b.txt"] ++ ["locked.txt"]))),
       map SearcherBase.not_found_msg
         (missing_files Demo.fs ["nope.txt"; "b.txt"])
       ++ [SearcherBase.worker_error_msg "Permission denied"]).
Proof.
  apply (single_thread_stops_at_fault Demo.fs [] ["nope.txt"; "b.txt"]
           "locked.txt" ["a.txt"] Demo.kws 1 "" "Permission denied").
  - repeat constructor.
  - reflexivity.
Defined.

Lemma reached_short (fs : filesystem) (l : list string) :
  (List.length l <= 1)%nat -> reached fs l = l.
Proof.
  destruct l as [|x [|y l]]; simpl; try reflexivity; [|lia].
  now destruct (is_faulty (fs x)).
Qed.

Lemma partition_singletons (fs : filesystem) (fl : list string) (n : Z) :
  (1 <= n)%Z -> (Z.of_nat (List.length fl) <= n)%Z ->
  flat_map (reached fs) (partition fl n) = fl.
Proof.
  intros Hn HF. rewrite <- (partition_concat fl n Hn) at 2.
  destruct (files_per_worker_bounds (List.length fl) n Hn) as (Hc & _ & Hlo).
  assert (Hshort : Forall (fun part => (List.length part <= 1)%nat)
                     (partition fl n)).
  { rewrite partition_chunks by exact Hn. apply Forall_forall.
    intros part Hpart. apply in_map_iff in Hpart as (k & <- & _).
    rewrite length_firstn. nia. }
  induction Hshort as [|part parts Hp _ IH]; simpl; [reflexivity|].
  now rewrite reached_short, IH.
Qed.

(** X6.  With at least as many workers as files, the threaded and the
    multi-process searcher with static slices give every file a worker of
    its own, so that a file that faults costs no other file: the result is
    the sort of the matches of all the files (with what was read of the
    faulting ones), whatever the files do when they are read. *)
Theorem worker_per_file_isolates_faults (fs : filesystem) (sched : schedule)
    (c : strategy) (fl kws : list string) (n : Z) :
  c = MultiThreadSearcher \/ c = MultiProcessSearcher ->
  (1 <= n)%Z -> (Z.of_nat (List.length fl) <= n)%Z ->
  results_of (search fs sched (init c fl kws) n)
  = Some (sort (all_matches fs kws fl)).
Proof.
  intros Hc Hn HF.
  destruct (search_static fs sched (init c fl kws) n) as (evs & HP & Hs);
    [destruct Hc; subst c; auto|lia|].
  rewrite Hs. simpl. f_equal. apply sort_unique.
  rewrite (pushes_perm _ _ HP), workers_pushes. simpl.
  now rewrite partition_singletons.
Qed.

Lemma worker_per_file_isolates_faults_witness :
  results_of
    (search Demo.fs [Child 1; Child 0]
       (init MultiProcessSearcher ["locked.txt"; "a.txt"] Demo.kws) 2)
  = Some (sort (all_matches Demo.fs Demo.kws ["locked.txt"; "a.txt"])).
Proof.
  apply (worker_per_file_isolates_faults Demo.fs [Child 1; Child 0]
           MultiProcessSearcher ["locked.txt"; "a.txt"] Demo.kws 2).
  - now right.
  - lia.
  - simpl. lia.
Defined.

Lemma contains_empty (line : string) : Text.contains "" line = true.
Proof. now destruct line. Qed.

(** X7.  The empty keyword is in every line: when "" is among the keywords,
    [search_words] pushes the tuple of "" for every line of a file that can
    be read, as many times as "" is listed. *)
Theorem empty_keyword_matches_every_line (fs : filesystem) (kws : list string)
    (f content : string) (i : nat) (line : string) :
  fs f = Readable content ->
  nth_error (Text.readlines content) i = Some line ->
  count_occ match_eq_dec
    (pushes (fst (SearcherBase.search_words fs f kws))) ("", f, i)
  = count_occ string_dec kws "".
Proof.
  intros Hf Hi. rewrite search_words_pushes. unfold file_matches.
  rewrite Hf. cbn [file_lines].
  pose proof (count_scan f kws "" _ 0 i line Hi) as H.
  cbn [Nat.add] in H. rewrite H.
  now rewrite contains_empty.
Qed.

Lemma empty_keyword_matches_every_line_witness :
  count_occ match_eq_dec
    (pushes (fst (SearcherBase.search_words Demo.fs "a.txt" ["go"; ""])))
    ("", "a.txt", 1)
  = count_occ string_dec ["go"; ""] "".
Proof.
  apply (empty_keyword_matches_every_line Demo.fs ["go"; ""] "a.txt"
           ("The Go team builds tools." ++ String Text.LF "Rust is fast.")
           1 "Rust is fast.");
    reflexivity.
Defined.

(** ** The case of the letters in the files *)

Lemma lower_char_LF (c : ascii) :
  Ascii.eqb (Text.lower_char c) Text.LF = Ascii.eqb c Text.LF.
Proof. destruct c as [[] [] [] [] [] [] [] []]; reflexivity. Qed.

Lemma lower_char_CR (c : ascii) :
  Ascii.eqb (Text.lower_char c) Text.CR = Ascii.eqb c Text.CR.
Proof. destruct c as [[] [] [] [] [] [] [] []]; reflexivity. Qed.

Lemma cons_line_lower (c : ascii) (ls : list string) :
  Text.cons_line (Text.lower_char c) (map Text.lower ls)
  = map Text.lower (Text.cons_line c ls).
Proof. now destruct ls. Qed.

Lemma readlines_lower_bounded (n : nat) :
  forall s, (String.length s <= n)%nat ->
  Text.readlines (Text.lower s) = map Text.lower (Text.readlines s).
Proof.
  induction n as [|n IH]; intros [|c s] Hlen; simpl in Hlen;
    try reflexivity; [lia|].
  cbn [Text.lower Text.readlines].
  rewrite lower_char_LF, lower_char_CR.
  destruct (Ascii.eqb c Text.LF).
  - rewrite IH by lia. reflexivity.
  - destruct (Ascii.eqb c Text.CR).
    + destruct s as [|c' s]; [reflexivity|].
      cbn [Text.lower]. rewrite lower_char_LF.
      change (String (Text.lower_char c') (Text.lower s))
        with (Text.lower (String c' s)).
      simpl in Hlen.
      destruct (Ascii.eqb c' Text.LF); rewrite IH by (simpl; lia);
        reflexivity.
    + rewrite IH by lia. apply cons_line_lower.
Qed.

Lemma readlines_lower (s : string) :
  Text.readlines (Text.lower s) = map Text.lower (Text.readlines s).
Proof. now apply (readlines_lower_bounded (String.length s)). Qed.

Lemma scan_lower (f : string) (kws : list string) (l1 l2 : list string) :
  map Text.lower l1 = map Text.lower l2 ->
  forall i, SearcherBase.scan f kws i l1 = SearcherBase.scan f kws i l2.
Proof.
  revert l2. induction l1 as [|a l1 IH]; intros [|b l2]; simpl;
    try discriminate; [reflexivity|].
  intros [= Hab Hl] i. rewrite (IH _ Hl).
  unfold SearcherBase.match_line. cbv zeta. now rewrite Hab.
Qed.

Lemma search_words_same_but_case (fs1 fs2 : filesystem) (f : string)
    (kws : list string) :
  same_but_case (fs1 f) (fs2 f) ->
  SearcherBase.search_words fs1 f kws = SearcherBase.search_words fs2 f kws.
Proof.
  unfold SearcherBase.search_words, same_but_case.
  destruct (fs1 f) as [|c1|c1 e1], (fs2 f) as [|c2|c2 e2];
    try contradiction; try reflexivity.
  - intros H. do 2 f_equal. apply scan_lower.
    now rewrite <- !readlines_lower, H.
  - intros [H ->]. do 2 f_equal. apply scan_lower.
    now rewrite <- !readlines_lower, H.
Qed.

(** ** Two file systems that [search_words] cannot tell apart *)

Section SameWords.

Variables (fs1 fs2 : filesystem) (kws : list string).
Hypothesis same :
  forall f,
    SearcherBase.search_words fs1 f kws = SearcherBase.search_words fs2 f kws.

Lemma worker_same (fl : list string) :
  SearcherBase.worker fs1 fl kws = SearcherBase.worker fs2 fl kws.
Proof.
  induction fl as [|f fl IH]; simpl; [reflexivity|]. now rewrite same, IH.
Qed.

Lemma step_same (a : actor) (st : MultiProcess2.state) :
  MultiProcess2.step fs1 kws a st = MultiProcess2.step fs2 kws a st.
Proof.
  destruct a as [|i|i]; simpl; [reflexivity| |reflexivity].
  unfold MultiProcess2.child_step.
  destruct (nth_error (MultiProcess2.procs st) i) as [[| |]|]; try reflexivity.
  destruct (MultiProcess2.files_queue st); [reflexivity|]. now rewrite same.
Qed.

Lemma drain_same (fq : list string) :
  MultiProcess2.drain fs1 kws fq = MultiProcess2.drain fs2 kws fq.
Proof.
  induction fq as [|f fq IH]; simpl; [reflexivity|]. now rewrite same, IH.
Qed.

Lemma run_rest_same (ps : list MultiProcess2.proc) :
  forall i st,
  MultiProcess2.run_rest fs1 kws i ps st
  = MultiProcess2.run_rest fs2 kws i ps st.
Proof.
  induction ps as [|p ps IH]; intros i st; simpl; [reflexivity|].
  assert (Hp : MultiProcess2.run_proc fs1 kws p (MultiProcess2.files_queue st)
               = MultiProcess2.run_proc fs2 kws p (MultiProcess2.files_queue st)).
  { destruct p as [|todo [err|]|]; simpl; try reflexivity;
      now rewrite drain_same. }
  rewrite Hp.
  destruct (MultiProcess2.run_proc fs2 kws p (MultiProcess2.files_queue st))
    as [[evs took] rest].
  simpl. apply IH.
Qed.

Lemma run_same (sched : schedule) (st : MultiProcess2.state) :
  MultiProcess2.run fs1 kws sched st = MultiProcess2.run fs2 kws sched st.
Proof.
  unfold MultiProcess2.run.
  assert (Hf : fold_left (fun st a => MultiProcess2.step fs1 kws a st) sched st
               = fold_left (fun st a => MultiProcess2.step fs2 kws a st)
                   sched st).
  { revert st. induction sched as [|a sched IH]; intros st; simpl;
      [reflexivity|]. now rewrite step_same, IH. }
  rewrite Hf. unfold MultiProcess2.finish. now rewrite run_rest_same.
Qed.

End SameWords.

Lemma search_same (fs1 fs2 : filesystem) (sched : schedule) (self : searcher)
    (n : Z) :
  (forall f,
     SearcherBase.search_words fs1 f (key_words self)
     = SearcherBase.search_words fs2 f (key_words self)) ->
  search fs1 sched self n = search fs2 sched self n.
Proof.
  intros Hsame.
  assert (Hparts : forall parts : list (list string),
            map (fun fl => SearcherBase.worker fs1 fl (key_words self)) parts
            = map (fun fl => SearcherBase.worker fs2 fl (key_words self)) parts).
  { intros parts. apply map_ext. intros fl. now apply worker_same. }
  unfold search, start_workers. destruct (cls self).
  - unfold SingleThread.start_workers. now rewrite (worker_same fs1 fs2).
  - unfold MultiThread.start_workers. now rewrite Hparts.
  - unfold MultiProcess.start_workers. now rewrite Hparts.
  - unfold MultiProcess2.start_workers, MultiProcess2.final.
    now rewrite (run_same fs1 fs2).
Qed.

(** X8.  The search is blind to the case of the letters in the files: two
    file systems in which every path is missing in both, or holds contents
    that are equal once lower-cased (and raises the same exception, if any),
    give the same result and the same log for every searcher, number of
    workers and schedule. *)
Theorem search_ignores_case_of_files (fs1 fs2 : filesystem)
    (sched : schedule) (self : searcher) (n : Z) :
  (forall path, same_but_case (fs1 path) (fs2 path)) ->
  search fs1 sched self n = search fs2 sched self n.
Proof.
  intros H. apply search_same. intros f.
  apply search_words_same_but_case, H.
Qed.

Lemma search_ignores_case_of_files_witness :
  search Demo.fs [Child 1; Child 0; Main]
    (init MultiProcessSearcher2 ["a.txt"; "b.txt"; "locked.txt"; "nope.txt"]
       Demo.kws) 2
  = search shouting_fs [Child 1; Child 0; Main]
      (init MultiProcessSearcher2 ["a.txt"; "b.txt"; "locked.txt"; "nope.txt"]
         Demo.kws) 2.
Proof.
  apply (search_ignores_case_of_files Demo.fs shouting_fs).
  intros path. unfold Demo.fs, shouting_fs.
  destruct (String.eqb path "a.txt"); [reflexivity|].
  destruct (String.eqb path "b.txt"); [reflexivity|].
  destruct (String.eqb path "locked.txt"); [split; reflexivity|exact I].
Defined.

(** ** Faulting files and the queue of files *)

Lemma dyn_spare_step (fs : filesystem) (kws : list string) (a : actor)
    (st : MultiProcess2.state) :
  is_miss a = false ->
  dyn_spare fs (MultiProcess2.procs st) (MultiProcess2.files_queue st) ->
  dyn_spare fs (MultiProcess2.procs (MultiProcess2.step fs kws a st))
    (MultiProcess2.files_queue (MultiProcess2.step fs kws a st)).
Proof.
  intros Ha HS. destruct a as [|i|i]; [| |discriminate Ha]; simpl.
  - unfold MultiProcess2.poll. now destruct (MultiProcess2.queue st).
  - unfold MultiProcess2.child_step.
    destruct (nth_error (MultiProcess2.procs st) i) as [p|] eqn:Hi;
      [|exact HS].
    destruct p as [|todo exc|].
    + destruct (MultiProcess2.files_queue st) as [|f fq] eqn:Hfq.
      * now left.
      * pose proof (search_words_raises fs f kws) as Hr.
        destruct (SearcherBase.search_words fs f kws) as [evs exc].
        simpl in Hr. simpl. right.
        destruct HS as [HS|HS]; [discriminate|].
        pose proof (healthy_count_set i _ _ (MultiProcess2.Busy evs exc) Hi)
          as Hc.
        unfold faulty_count in *. simpl in HS, Hc |- *.
        destruct (fs f); subst exc; simpl in *; lia.
    + destruct todo as [|e todo].
      * destruct exc as [err|]; simpl.
        -- pose proof (healthy_count_set i _ _ MultiProcess2.Exited Hi) as Hc.
           simpl in Hc. destruct HS as [HS|HS]; [now left|right; lia].
        -- pose proof (healthy_count_set i _ _ MultiProcess2.Idle Hi) as Hc.
           simpl in Hc. destruct HS as [HS|HS]; [now left|right; lia].
      * rewrite emit_spec. simpl.
        pose proof (healthy_count_set i _ _ (MultiProcess2.Busy todo exc) Hi)
          as Hc.
        destruct HS as [HS|HS]; [now left|right].
        simpl in Hc. destruct exc; simpl in Hc; lia.
    + exact HS.
Qed.

Lemma faulty_count_app (fs : filesystem) (a b : list string) :
  faulty_count fs (a ++ b) = (faulty_count fs a + faulty_count fs b)%nat.
Proof. unfold faulty_count. now rewrite filter_app, length_app. Qed.

Lemma drain_spare (fs : filesystem) (kws : list string) (fq : list string) :
  forall evs took rest,
  MultiProcess2.drain fs kws fq = (evs, took, rest) ->
  rest = [] \/ (faulty_count fs rest < faulty_count fs fq)%nat.
Proof.
  induction fq as [|f fq IH]; simpl; intros evs took rest.
  - intros [= <- <- <-]. now left.
  - pose proof (search_words_raises fs f kws) as Hr.
    destruct (SearcherBase.search_words fs f kws) as [evs1 [err|]];
      simpl in Hr.
    + intros [= <- <- <-]. right. unfold faulty_count. simpl.
      destruct (fs f); try discriminate. simpl. lia.
    + destruct (MultiProcess2.drain fs kws fq) as [[evs2 took2] rest2].
      intros [= <- <- <-].
      destruct (IH _ _ _ eq_refl) as [H|H]; [now left|right].
      unfold faulty_count in *. simpl. destruct (is_faulty (fs f)); simpl; lia.
Qed.

Lemma run_rest_spare (fs : filesystem) (kws : list string)
    (ps : list MultiProcess2.proc) :
  forall (i : nat) (st : MultiProcess2.state),
  dyn_spare fs ps (MultiProcess2.files_queue st) ->
  MultiProcess2.files_queue (MultiProcess2.run_rest fs kws i ps st) = [].
Proof.
  induction ps as [|p ps IH]; intros i st HS; simpl.
  - destruct HS as [HS|HS]; [exact HS|]. unfold healthy_count in HS.
    simpl in HS. lia.
  - destruct (MultiProcess2.run_proc fs kws p (MultiProcess2.files_queue st))
      as [[evs took] rest] eqn:Hrp.
    unfold MultiProcess.emit_all. apply IH. simpl.
    pose proof (run_proc_spec _ _ _ _ _ _ _ Hrp) as (H1 & _ & _).
    destruct HS as [HS|HS].
    { left. rewrite HS in H1. now apply app_eq_nil in H1. }
    assert (Hle : (faulty_count fs rest
                   <= faulty_count fs (MultiProcess2.files_queue st))%nat).
    { rewrite <- H1, faulty_count_app. lia. }
    unfold healthy_count in HS. simpl in HS.
    destruct p as [|todo [err|]|]; simpl in Hrp, HS.
    + apply drain_spare in Hrp as [H|H]; [now left|right].
      unfold healthy_count. lia.
    + right. unfold healthy_count. lia.
    + destruct (MultiProcess2.drain fs kws (MultiProcess2.files_queue st))
        as [[evs2 took2] rest2] eqn:Hd.
      injection Hrp as _ _ <-.
      apply drain_spare in Hd as [H|H]; [now left|right].
      unfold healthy_count. lia.
    + right. unfold healthy_count. lia.
Qed.

(** X9.  The queue of files of [MultiProcessSearcher2] outlives faulting
    files as long as a worker is left: when fewer files of the list raise
    another exception than [FileNotFoundError] than there are workers, then
    under every schedule in which no call of [files.get(block=False)]
    raises [Empty] while names are queued, every file is taken from the
    queue, none is left, and the result is the sort of the matches of all
    the files (with what was read of the faulting ones). *)
Theorem dynamic_queue_survives_faults (fs : filesystem) (sched : schedule)
    (fl kws : list string) (n : Z) :
  quiet sched ->
  (Z.of_nat (faulty_count fs fl) < n)%Z ->
  taken_files
    (MultiProcess2.final fs sched (init MultiProcessSearcher2 fl kws) n) = fl
  /\
  MultiProcess2.files_queue
    (MultiProcess2.final fs sched (init MultiProcessSearcher2 fl kws) n) = []
  /\
  results_of (search fs sched (init MultiProcessSearcher2 fl kws) n)
  = Some (sort (all_matches fs kws fl)).
Proof.
  intros HQ Hn.
  set (self := init MultiProcessSearcher2 fl kws).
  pose proof (dynamic_final fs sched self n) as (HP & HF & _).
  assert (Hq : MultiProcess2.files_queue (MultiProcess2.final fs sched self n)
               = []).
  { unfold MultiProcess2.final, MultiProcess2.run, MultiProcess2.finish.
    simpl. apply run_rest_spare.
    apply (fold_left_quiet
             (fun st => dyn_spare fs (MultiProcess2.procs st)
                          (MultiProcess2.files_queue st))).
    - intros s a Ha Hs. now apply dyn_spare_step.
    - exact HQ.
    - right. simpl. rewrite healthy_count_idle, range_length. lia. }
  rewrite Hq, app_nil_r in HF. change (files self) with fl in HF.
  split; [exact HF|]. split; [exact Hq|].
  rewrite search_dynamic by reflexivity.
  cbn [results_of results with_results]. f_equal.
  apply sort_unique. rewrite HP, HF. reflexivity.
Qed.

Lemma dynamic_queue_survives_faults_witness :
  results_of
    (search Demo.fs [Child 0; Child 1; Child 0]
       (init MultiProcessSearcher2 ["locked.txt"; "a.txt"; "b.txt"] Demo.kws)
       2)
  = Some (sort (all_matches Demo.fs Demo.kws ["locked.txt"; "a.txt"; "b.txt"])).
Proof.
  apply (dynamic_queue_survives_faults Demo.fs [Child 0; Child 1; Child 0]
           ["locked.txt"; "a.txt"; "b.txt"] Demo.kws 2).
  - repeat constructor.
  - vm_compute. reflexivity.
Defined.

(** X10.  The two searchers with static slices cannot be told apart by
    their results: for the same files, keywords and number of workers, the
    threaded and the multi-process searcher (either of them twice, too)
    both raise, or both return the same result list under any two
    schedules, whatever the files do when they are read; and what they log
    is the same up to the order of the lines. *)
Theorem static_searchers_agree (fs : filesystem) (sched1 sched2 : schedule)
    (c1 c2 : strategy) (fl kws : list string) (n : Z) :
  is_static c1 = true -> is_static c2 = true ->
  results_of (search fs sched1 (init c1 fl kws) n)
  = results_of (search fs sched2 (init c2 fl kws) n) /\
  (forall l1 l2,
     log_of (search fs sched1 (init c1 fl kws) n) = Some l1 ->
     log_of (search fs sched2 (init c2 fl kws) n) = Some l2 ->
     Permutation l1 l2).
Proof.
  intros H1 H2.
  assert (Hc1 : cls (init c1 fl kws) = MultiThreadSearcher \/
                cls (init c1 fl kws) = MultiProcessSearcher)
    by (destruct c1; try discriminate; auto).
  assert (Hc2 : cls (init c2 fl kws) = MultiThreadSearcher \/
                cls (init c2 fl kws) = MultiProcessSearcher)
    by (destruct c2; try discriminate; auto).
  destruct (Z.eqb_spec n 0) as [->|Hn].
  - rewrite !search_static_zero by assumption. split; [reflexivity|].
    discriminate.
  - destruct (search_static fs sched1 _ n Hc1 Hn) as (e1 & P1 & S1).
    destruct (search_static fs sched2 _ n Hc2 Hn) as (e2 & P2 & S2).
    rewrite S1, S2. cbn [results_of log_of results with_results files
                         key_words init] in *.
    split.
    + f_equal. apply sort_unique. apply Permutation_app_head.
      apply pushes_perm. now rewrite P1, P2.
    + intros l1 l2 [= <-] [= <-]. apply logged_perm. now rewrite P1, P2.
Qed.

Lemma static_searchers_agree_witness :
  results_of
    (search Demo.fs [Child 1; Child 0]
       (init MultiThreadSearcher ["locked.txt"; "a.txt"; "b.txt"] Demo.kws) 2)
  = results_of
      (search Demo.fs [Main; Child 0; Main]
         (init MultiProcessSearcher ["locked.txt"; "a.txt"; "b.txt"] Demo.kws)
         2).
Proof.
  apply (static_searchers_agree Demo.fs [Child 1; Child 0] [Main; Child 0; Main]
           MultiThreadSearcher MultiProcessSearcher
           ["locked.txt"; "a.txt"; "b.txt"] Demo.kws 2);
    reflexivity.
Defined.

(** ** A single worker *)

Lemma dyn_alone_step (fs : filesystem) (kws fl : list string) (a : actor)
    (st : MultiProcess2.state) :
  is_miss a = false ->
  dyn_alone fs fl st -> dyn_alone fs fl (MultiProcess2.step fs kws a st).
Proof.
  intros Ha (p & Hp & HR). destruct a as [|i|i]; [| |discriminate Ha]; simpl.
  - unfold MultiProcess2.poll.
    destruct (MultiProcess2.queue st); now exists p.
  - unfold MultiProcess2.child_step. rewrite Hp.
    destruct i as [|i]; [|destruct i; now exists p]. simpl.
    destruct p as [|todo exc|]; simpl in HR.
    + destruct (MultiProcess2.files_queue st) as [|f fq] eqn:Hfq.
      * eexists. split; [reflexivity|]. unfold taken_files in *. simpl.
        exact HR.
      * pose proof (search_words_raises fs f kws) as Hr.
        destruct (SearcherBase.search_words fs f kws) as [evs exc].
        simpl in Hr. eexists. split; [reflexivity|].
        unfold taken_files in *. simpl.
        rewrite HR, map_app, <- app_assoc. simpl. f_equal.
        destruct (fs f); subst exc; reflexivity.
    + destruct todo as [|e todo].
      * destruct exc as [err|]; (eexists; split; [reflexivity|]);
          unfold taken_files in *; simpl; exact HR.
      * rewrite emit_spec. eexists. split; [reflexivity|].
        unfold taken_files in *. simpl. destruct exc; exact HR.
    + exists MultiProcess2.Exited. now split.
Qed.

Lemma drain_reached (fs : filesystem) (kws : list string) (fq : list string) :
  forall evs took rest,
  MultiProcess2.drain fs kws fq = (evs, took, rest) -> took = reached fs fq.
Proof.
  induction fq as [|f fq IH]; simpl; intros evs took rest.
  - now intros [= <- <- <-].
  - pose proof (search_words_raises fs f kws) as Hr.
    destruct (SearcherBase.search_words fs f kws) as [evs1 [err|]];
      simpl in Hr.
    + intros [= <- <- <-]. now destruct (fs f).
    + destruct (MultiProcess2.drain fs kws fq) as [[evs2 took2] rest2].
      intros [= <- <- <-]. rewrite (IH _ _ _ eq_refl).
      now destruct (fs f).
Qed.

Lemma dynamic_alone_final (fs : filesystem) (sched : schedule)
    (self : searcher) :
  quiet sched ->
  taken_files (MultiProcess2.final fs sched self 1) = reached fs (files self).
Proof.
  intros HQ.
  set (kws := key_words self).
  set (st0 := MultiProcess2.start self 1).
  set (st1 := fold_left (fun st a => MultiProcess2.step fs kws a st) sched st0).
  assert (Hinv : dyn_alone fs (files self) st1).
  { apply fold_left_quiet; [intros; now apply dyn_alone_step|exact HQ|].
    exists MultiProcess2.Idle. split; reflexivity. }
  destruct Hinv as (p & Hp & HR).
  unfold MultiProcess2.final, MultiProcess2.run, MultiProcess2.finish.
  fold kws st0 st1. rewrite Hp. cbn [MultiProcess2.run_rest].
  destruct (MultiProcess2.run_proc fs kws p (MultiProcess2.files_queue st1))
    as [[evs took] rest] eqn:Hrp.
  unfold MultiProcess.emit_all, taken_files in *. simpl.
  rewrite map_app, map_snd_pair, HR. f_equal.
  destruct p as [|todo [err|]|]; simpl in Hrp |- *.
  - now apply drain_reached in Hrp.
  - now injection Hrp as _ <- _.
  - destruct (MultiProcess2.drain fs kws (MultiProcess2.files_queue st1))
      as [[evs2 took2] rest2] eqn:Hd.
    injection Hrp as _ <- _. now apply drain_reached in Hd.
  - now injection Hrp as _ <- _.
Qed.

Lemma partition_one (fl : list string) : partition fl 1 = [fl].
Proof.
  pose proof (partition_concat fl 1 ltac:(lia)) as H.
  unfold partition in *. simpl in *. rewrite app_nil_r in H. now rewrite H.
Qed.

(** X11.  With one worker the four searchers agree on every input: a new
    searcher of any class, run with [n_workers] = 1 under any schedule in
    which no call of [files.get(block=False)] of [MultiProcessSearcher2]
    raises [Empty] while names are queued, returns the sort of the matches
    of the files up to the first one that raises another exception than
    [FileNotFoundError] (all the files when there is none). *)
Theorem one_worker_all_agree (fs : filesystem) (sched : schedule)
    (c : strategy) (fl kws : list string) :
  steady c sched ->
  results_of (search fs sched (init c fl kws) 1)
  = Some (sort (all_matches fs kws (reached fs fl))).
Proof.
  intros HQ. destruct c.
  - now rewrite search_single.
  - destruct (search_static fs sched (init MultiThreadSearcher fl kws) 1)
      as (evs & HP & Hs); [now left|lia|].
    rewrite Hs. cbn [results_of results with_results]. f_equal.
    apply sort_unique. rewrite (pushes_perm _ _ HP), workers_pushes.
    cbn [files key_words results init]. rewrite partition_one.
    cbn [flat_map app]. now rewrite app_nil_r.
  - destruct (search_static fs sched (init MultiProcessSearcher fl kws) 1)
      as (evs & HP & Hs); [now right|lia|].
    rewrite Hs. cbn [results_of results with_results]. f_equal.
    apply sort_unique. rewrite (pushes_perm _ _ HP), workers_pushes.
    cbn [files key_words results init]. rewrite partition_one.
    cbn [flat_map app]. now rewrite app_nil_r.
  - rewrite search_dynamic by reflexivity.
    cbn [results_of results with_results]. f_equal.
    pose proof (dynamic_final fs sched (init MultiProcessSearcher2 fl kws) 1)
      as (HP & _ & _).
    apply sort_unique. rewrite HP, dynamic_alone_final by (now apply HQ).
    reflexivity.
Qed.

Lemma one_worker_all_agree_witness :
  steady MultiProcessSearcher2 [Child 0; Main; Child 0] /\
  results_of
    (search Demo.fs [Child 0; Main; Child 0]
       (init MultiProcessSearcher2 ["a.txt"; "locked.txt"; "b.txt"] Demo.kws)
       1)
  = Some (sort (all_matches Demo.fs Demo.kws
                  (reached Demo.fs ["a.txt"; "locked.txt"; "b.txt"]))).
Proof.
  assert (HQ : steady MultiProcessSearcher2 [Child 0; Main; Child 0])
    by (intros _; repeat constructor).
  split; [exact HQ|].
  apply (one_worker_all_agree Demo.fs [Child 0; Main; Child 0]
           MultiProcessSearcher2 ["a.txt"; "locked.txt"; "b.txt"] Demo.kws).
  exact HQ.
Defined.

(** * The saved results and the file of keywords *)

(** ** Characters of strings *)

Lemma all_chars_app (p : ascii -> bool) (a b : string) :
  PyStr.all_chars p (a ++ b)
  = PyStr.all_chars p a && PyStr.all_chars p b.
Proof.
  induction a as [|c a IH]; simpl; [reflexivity|].
  now rewrite IH, andb_assoc.
Qed.

Lemma all_chars_impl (p q : ascii -> bool) (s : string) :
  (forall c, p c = true -> q c = true) ->
  PyStr.all_chars p s = true -> PyStr.all_chars q s = true.
Proof.
  intros H. induction s as [|c s IH]; simpl; [reflexivity|].
  rewrite !andb_true_iff. intros [Hc Hs]. auto.
Qed.

Lemma split_first (p : ascii -> bool) (c : ascii) (a a' b b' : string) :
  p c = false ->
  PyStr.all_chars p a = true -> PyStr.all_chars p a' = true ->
  (a ++ String c b)%string = (a' ++ String c b')%string ->
  a = a' /\ b = b'.
Proof.
  intros Hc. revert a'.
  induction a as [|x a IH]; intros [|y a']; simpl;
    rewrite ?andb_true_iff.
  - intros _ _ [= ->]. now split.
  - intros _ [Hy _] [= <- _]. congruence.
  - intros [Hx _] _ [= -> _]. congruence.
  - intros [_ Ha] [_ Ha'] [= -> H].
    destruct (IH a' Ha Ha' H) as [-> ->]. now split.
Qed.

Lemma digits_plain (p : ascii -> bool) (d : Decimal.uint) :
  (forall c, In c (list_ascii_of_string "0123456789") -> p c = true) ->
  PyStr.all_chars p (NilEmpty.string_of_uint d) = true.
Proof.
  intros H. induction d; simpl; try reflexivity;
    (rewrite IHd, andb_true_r; apply H; simpl; tauto).
Qed.

Lemma str_nat_plain (p : ascii -> bool) (n : nat) :
  (forall c, In c (list_ascii_of_string "0123456789") -> p c = true) ->
  PyStr.all_chars p (PyStr.str_nat n) = true.
Proof.
  intros H. unfold PyStr.str_nat, NilZero.string_of_uint.
  destruct (Nat.to_uint n) eqn:Hd; try (rewrite <- Hd; now apply digits_plain).
  simpl. rewrite andb_true_r. apply H. simpl. tauto.
Qed.

Lemma str_nat_inj (n m : nat) : PyStr.str_nat n = PyStr.str_nat m -> n = m.
Proof.
  unfold PyStr.str_nat. intros H.
  apply DecimalNat.Unsigned.to_uint_inj.
  assert (Hu : forall k, NilZero.uint_of_string
                           (NilZero.string_of_uint (Nat.to_uint k))
                         = Some (Nat.to_uint k)).
  { intros k. apply NilZero.usu. intros Hk.
    pose proof (DecimalNat.Unsigned.of_to k) as Hof. rewrite Hk in Hof.
    pose proof (DecimalNat.Unsigned.to_uint_inj k 0) as Hinj.
    simpl in Hof. subst k. discriminate. }
  pose proof (Hu n) as Hn. rewrite H, Hu in Hn. now injection Hn.
Qed.

(** ** The text of the saved results *)

Lemma result_line_inj (m m' : Match) :
  Test.plain_match m -> Test.plain_match m' ->
  Test.result_line m = Test.result_line m' -> m = m'.
Proof.
  destruct m as [[k f] i], m' as [[k' f'] i'].
  unfold Test.plain_match, Test.result_line, Test.plain, kword, fname, lineno.
  simpl. intros [Hk Hf] [Hk' Hf'] H.
  set (p := fun c => negb (Ascii.eqb c " ") && negb (Ascii.eqb c Text.LF)) in *.
  apply (split_first p " "%char) in H as [-> H]; try assumption;
    [|reflexivity].
  apply (split_first p " "%char) in H as [-> H]; try assumption;
    [|reflexivity].
  apply str_nat_inj in H. now subst.
Qed.

Lemma result_line_no_LF (m : Match) :
  Test.plain_match m ->
  PyStr.all_chars (fun c => negb (Ascii.eqb c Text.LF)) (Test.result_line m)
  = true.
Proof.
  intros [Hk Hf]. unfold Test.result_line, Test.plain in *.
  assert (Hw : forall c,
             negb (Ascii.eqb c " ") && negb (Ascii.eqb c Text.LF) = true ->
             negb (Ascii.eqb c Text.LF) = true)
    by (intros c Hc; now apply andb_true_iff in Hc).
  rewrite !all_chars_app. simpl.
  rewrite (all_chars_impl _ _ _ Hw Hk), (all_chars_impl _ _ _ Hw Hf).
  simpl. apply str_nat_plain.
  intros c Hc. simpl in Hc.
  repeat (destruct Hc as [<-|Hc]; [reflexivity|]). destruct Hc.
Qed.

Lemma result_line_nonempty (m : Match) : Test.result_line m <> EmptyString.
Proof.
  unfold Test.result_line. destruct (kword m); simpl; discriminate.
Qed.

Lemma concat_lines_inj (l1 l2 : list string) :
  Forall (fun s => PyStr.all_chars (fun c => negb (Ascii.eqb c Text.LF)) s
                   = true /\ s <> EmptyString) l1 ->
  Forall (fun s => PyStr.all_chars (fun c => negb (Ascii.eqb c Text.LF)) s
                   = true /\ s <> EmptyString) l2 ->
  String.concat (String Text.LF EmptyString) l1
  = String.concat (String Text.LF EmptyString) l2 ->
  l1 = l2.
Proof.
  set (p := fun c => negb (Ascii.eqb c Text.LF)).
  intros H1. revert l2.
  induction H1 as [|x l1 [Hx Hxn] Hl1 IH]; intros l2 H2 H.
  - destruct H2 as [|y l2 [Hy Hyn] _]; [reflexivity|].
    simpl in H. destruct l2; [congruence|].
    destruct y; [congruence|discriminate].
  - destruct H2 as [|y l2 [Hy Hyn] Hl2].
    { simpl in H. destruct l1; [congruence|].
      destruct x; [congruence|discriminate]. }
    cbn [String.concat] in H.
    destruct l1 as [|x' l1], l2 as [|y' l2].
    + congruence.
    + subst x. rewrite all_chars_app in Hx. simpl in Hx.
      rewrite andb_false_r in Hx. discriminate.
    + subst y. rewrite all_chars_app in Hy. simpl in Hy.
      rewrite andb_false_r in Hy. discriminate.
    + apply (split_first p Text.LF) in H as [-> H]; try assumption;
        [|reflexivity].
      f_equal. now apply IH.
Qed.

(** X12.  The file that [save_results] writes holds the whole result
    list: two lists of results whose keywords and file names hold no space
    and no line feed are written as the same text only when they are the
    same list. *)
Theorem saved_results_determine_results (r1 r2 : list Match) :
  Forall Test.plain_match r1 -> Forall Test.plain_match r2 ->
  Test.results_text r1 = Test.results_text r2 -> r1 = r2.
Proof.
  intros H1 H2 H. unfold Test.results_text in H.
  apply concat_lines_inj in H.
  - revert r2 H2 H. induction H1 as [|m r1 Hm _ IH]; intros [|m' r2] H2 H;
      simpl in H; try discriminate; [reflexivity|].
    apply Forall_cons_iff in H2 as [Hm' H2]. injection H as Hl Hr.
    f_equal; [now apply result_line_inj|now apply IH].
  - apply Forall_forall. intros s Hs. apply in_map_iff in Hs as (m & <- & Hm).
    rewrite Forall_forall in H1.
    split; [now apply result_line_no_LF, H1|apply result_line_nonempty].
  - apply Forall_forall. intros s Hs. apply in_map_iff in Hs as (m & <- & Hm).
    rewrite Forall_forall in H2.
    split; [now apply result_line_no_LF, H2|apply result_line_nonempty].
Qed.

Lemma saved_results_determine_results_witness :
  [("fast", "a.txt", 1); ("go", "a.txt", 0)]
  = [("fast", "a.txt", 1); ("go", "a.txt", 0)].
Proof.
  apply (saved_results_determine_results
           [("fast", "a.txt", 1); ("go", "a.txt", 0)]
           [("fast", "a.txt", 1); ("go", "a.txt", 0)]).
  - repeat constructor.
  - repeat constructor.
  - reflexivity.
Defined.

(** ** The file of keywords *)

Lemma lower_app (a b : string) :
  Text.lower (a ++ b) = (Text.lower a ++ Text.lower b)%string.
Proof. induction a as [|c a IH]; simpl; congruence. Qed.

Lemma remove_char_app (c : ascii) (a b : string) :
  PyStr.remove_char c (a ++ b)
  = (PyStr.remove_char c a ++ PyStr.remove_char c b)%string.
Proof.
  induction a as [|x a IH]; simpl; [reflexivity|].
  destruct (Ascii.eqb x c); simpl; congruence.
Qed.

Lemma normal_app (a b : string) :
  PrepareData.normal (a ++ b)
  = (PrepareData.normal a ++ PrepareData.normal b)%string.
Proof.
  unfold PrepareData.normal. now rewrite !remove_char_app, lower_app.
Qed.

Lemma key_words_text_lines (ws : list string) :
  PrepareData.key_words_text ws
  = String.concat (String Text.LF EmptyString) (map PrepareData.normal ws).
Proof.
  change (PrepareData.key_words_text ws)
    with (PrepareData.normal (String.concat (String Text.LF EmptyString) ws)).
  induction ws as [|w ws IH]; [reflexivity|].
  cbn [String.concat map]. destruct ws as [|w' ws]; [reflexivity|].
  rewrite !normal_app, IH. reflexivity.
Qed.

Lemma lower_char_space (c : ascii) :
  PyStr.is_space (Text.lower_char c) = PyStr.is_space c.
Proof. destruct c as [[] [] [] [] [] [] [] []]; reflexivity. Qed.

Lemma lower_char_idem (c : ascii) :
  Text.lower_char (Text.lower_char c) = Text.lower_char c.
Proof. destruct c as [[] [] [] [] [] [] [] []]; reflexivity. Qed.

Lemma lower_idem (s : string) : Text.lower (Text.lower s) = Text.lower s.
Proof.
  induction s as [|c s IH]; simpl; [reflexivity|].
  now rewrite lower_char_idem, IH.
Qed.

Lemma is_word_lower (s : string) :
  PrepareData.is_word (Text.lower s) = PrepareData.is_word s.
Proof.
  unfold PrepareData.is_word. induction s as [|c s IH]; simpl; [reflexivity|].
  now rewrite lower_char_space, IH.
Qed.

Lemma is_word_remove (c : ascii) (s : string) :
  PrepareData.is_word s = true ->
  PrepareData.is_word (PyStr.remove_char c s) = true.
Proof.
  unfold PrepareData.is_word. induction s as [|x s IH]; simpl; [reflexivity|].
  rewrite andb_true_iff. intros [Hx Hs].
  destruct (Ascii.eqb x c); simpl; [auto|]. now rewrite Hx, IH.
Qed.

Lemma is_word_normal (w : string) :
  PrepareData.is_word w = true ->
  PrepareData.is_word (PrepareData.normal w) = true.
Proof.
  intros H. unfold PrepareData.normal.
  rewrite is_word_lower. now do 2 apply is_word_remove.
Qed.

Lemma split_space (c : ascii) (s : string) :
  PyStr.is_space c = true -> PyStr.split (String c s) = PyStr.split s.
Proof. intros H. cbn [PyStr.split]. now rewrite H. Qed.

Lemma split_word (w : string) :
  PrepareData.is_word w = true -> w <> EmptyString ->
  PyStr.split w = [w] /\
  forall c rest, PyStr.is_space c = true ->
    PyStr.split (w ++ String c rest) = w :: PyStr.split rest.
Proof.
  unfold PrepareData.is_word.
  induction w as [|a w IH]; [congruence|]. intros Hw _.
  cbn [PyStr.all_chars] in Hw. apply andb_true_iff in Hw as [Ha Hw].
  apply negb_true_iff in Ha.
  destruct w as [|b w].
  - split.
    + cbn [PyStr.split]. now rewrite Ha.
    + intros c rest Hc. cbn [append PyStr.split]. now rewrite Ha, Hc.
  - destruct (IH Hw ltac:(discriminate)) as [IH1 IH2].
    assert (Hb : PyStr.is_space b = false).
    { cbn [PyStr.all_chars] in Hw. apply andb_true_iff in Hw as [Hb _].
      now apply negb_true_iff in Hb. }
    split.
    + change (PyStr.split (String a (String b w)))
        with (if PyStr.is_space a then PyStr.split (String b w)
              else if PyStr.is_space b
                   then String a EmptyString :: PyStr.split (String b w)
                   else PyStr.cons_char a (PyStr.split (String b w))).
      now rewrite Ha, Hb, IH1.
    + intros c rest Hc.
      change (PyStr.split (String a (String b w) ++ String c rest))
        with (if PyStr.is_space a
              then PyStr.split (String b w ++ String c rest)
              else if PyStr.is_space b
                   then String a EmptyString
                        :: PyStr.split (String b w ++ String c rest)
                   else PyStr.cons_char a
                          (PyStr.split (String b w ++ String c rest))).
      now rewrite Ha, Hb, (IH2 c rest Hc).
Qed.

Lemma split_lines_of_words (ws : list string) :
  Forall (fun w => PrepareData.is_word w = true) ws ->
  PyStr.split (String.concat (String Text.LF EmptyString) ws)
  = filter (fun w => negb (String.eqb w EmptyString)) ws.
Proof.
  induction 1 as [|w ws Hw Hws IH]; [reflexivity|].
  cbn [String.concat filter]. destruct ws as [|w' ws].
  - destruct w as [|a w]; [reflexivity|].
    simpl String.eqb. cbn [negb].
    now apply (split_word (String a w)).
  - destruct w as [|a w].
    + simpl String.eqb. cbn [negb append]. rewrite split_space by reflexivity.
      exact IH.
    + simpl String.eqb. cbn [negb].
      destruct (split_word (String a w) Hw ltac:(discriminate)) as [_ H2].
      etransitivity;
        [apply (H2 Text.LF
                  (String.concat (String Text.LF EmptyString) (w' :: ws))
                  eq_refl)|].
      now rewrite IH.
Qed.

Lemma concat_cons_empty (x : string) (xs : list string) :
  String.concat EmptyString (x :: xs)
  = (x ++ String.concat EmptyString xs)%string.
Proof.
  cbn [String.concat]. destruct xs; [|reflexivity].
  simpl. induction x as [|c x IH]; simpl; congruence.
Qed.

Lemma read_text_cons_line (c : ascii) (ls : list string) :
  String.concat EmptyString (Text.cons_line c ls)
  = String c (String.concat EmptyString ls).
Proof.
  destruct ls as [|l ls]; [reflexivity|].
  unfold Text.cons_line. now rewrite !concat_cons_empty.
Qed.

Lemma read_text_id (s : string) :
  PyStr.all_chars (fun c => negb (Ascii.eqb c Text.CR)) s = true ->
  PyStr.read_text s = s.
Proof.
  unfold PyStr.read_text. induction s as [|c s IH]; [reflexivity|].
  cbn [PyStr.all_chars]. rewrite andb_true_iff. intros [Hc Hs].
  apply negb_true_iff in Hc. cbn [Text.readlines]. rewrite Hc.
  destruct (Ascii.eqb c Text.LF) eqn:Hlf.
  - apply Ascii.eqb_eq in Hlf. subst c.
    rewrite concat_cons_empty, IH by exact Hs. reflexivity.
  - rewrite read_text_cons_line, IH by exact Hs. reflexivity.
Qed.

Lemma lines_of_words_no_CR (ws : list string) :
  Forall (fun w => PrepareData.is_word w = true) ws ->
  PyStr.all_chars (fun c => negb (Ascii.eqb c Text.CR))
    (String.concat (String Text.LF EmptyString) ws) = true.
Proof.
  assert (Hw : forall w, PrepareData.is_word w = true ->
             PyStr.all_chars (fun c => negb (Ascii.eqb c Text.CR)) w = true).
  { intros w. apply all_chars_impl. intros c Hc.
    destruct (Ascii.eqb_spec c Text.CR) as [->|]; [discriminate|reflexivity]. }
  induction 1 as [|w ws Hword _ IH]; [reflexivity|].
  cbn [String.concat]. destruct ws as [|w' ws]; [now apply Hw|].
  rewrite all_chars_app, (Hw w Hword). simpl. exact IH.
Qed.

(** X13.  The keywords that [run_tests] reads back from the file that
    [prepare_data] wrote are the chosen words, in the order of the set,
    each without its full stops and commas and in lower case, those that
    are left empty dropped.  So every keyword read is in lower case, not
    empty and without white space. *)
Theorem key_words_read_back (words : list string) :
  Forall (fun w => PrepareData.is_word w = true) words ->
  PyStr.split (PyStr.read_text (PrepareData.key_words_text words))
  = filter (fun w => negb (String.eqb w EmptyString))
      (map PrepareData.normal words) /\
  Forall (fun k => Text.lower k = k /\ k <> EmptyString /\
                   PrepareData.is_word k = true)
    (PyStr.split (PyStr.read_text (PrepareData.key_words_text words))).
Proof.
  intros Hw.
  assert (Hn : Forall (fun w => PrepareData.is_word w = true)
                 (map PrepareData.normal words)).
  { apply Forall_forall. intros k Hk. apply in_map_iff in Hk as (w & <- & Hin).
    rewrite Forall_forall in Hw. now apply is_word_normal, Hw. }
  assert (Heq : PyStr.split (PyStr.read_text (PrepareData.key_words_text words))
                = filter (fun w => negb (String.eqb w EmptyString))
                    (map PrepareData.normal words)).
  { rewrite key_words_text_lines, read_text_id
      by (now apply lines_of_words_no_CR).
    now apply split_lines_of_words. }
  split; [exact Heq|]. rewrite Heq.
  apply Forall_forall. intros k Hk. apply filter_In in Hk as [Hin Hne].
  apply in_map_iff in Hin as (w & <- & Hin).
  repeat split.
  - unfold PrepareData.normal. apply lower_idem.
  - intros Hk. rewrite Hk in Hne. discriminate.
  - rewrite Forall_forall in Hw. now apply is_word_normal, Hw.
Qed.

Lemma key_words_read_back_witness :
  PyStr.split
    (PyStr.read_text
       (PrepareData.key_words_text ["Fast."; "Hello,"; "...."; "fast"]))
  = filter (fun w => negb (String.eqb w EmptyString))
      (map PrepareData.normal ["Fast."; "Hello,"; "...."; "fast"]).
Proof.
  apply (key_words_read_back ["Fast."; "Hello,"; "...."; "fast"]).
  repeat constructor.
Defined.

(** * The comparison test *)

Lemma bind_ok {A B : Type} (c : RunTests.M A) (k : A -> RunTests.M B)
    (p p' : RunTests.progress) (a : A) :
  c p = (inl a, p') -> RunTests.bind c k p = k a p'.
Proof. intros H. unfold RunTests.bind. now rewrite H. Qed.


Lemma data_files_plain (test_name : string) (files_number : Z)
    (p : RunTests.progress) :
  RunTests.has_brace test_name = false ->
  RunTests.data_files test_name files_number p
  = (inl (map (RunTests.data_file_name test_name) (Py.range files_number)), p).
Proof.
  intros H. unfold RunTests.data_files.
  destruct (Py.range files_number); [reflexivity|]. now rewrite H.
Qed.

Lemma read_key_words_ok (path : string) (p : RunTests.progress)
    (content : string) :
  RunTests.fs_now p path = Readable content ->
  RunTests.read_key_words path p
  = (inl (PyStr.split (PyStr.read_text content)), p).
Proof. intros H. unfold RunTests.read_key_words. now rewrite H. Qed.

Lemma run_search_no_faults (c : strategy) (sched : schedule)
    (fl kws : list string) (n : Z) (p : RunTests.progress) :
  steady c sched ->
  (1 <= n)%Z -> no_faults (RunTests.fs_now p) fl ->
  exists lg,
    RunTests.run_search c sched fl kws n p
    = (inl (with_results (init c fl kws)
              (sort (all_matches (RunTests.fs_now p) kws fl))),
       RunTests.mkProgress (RunTests.fs_now p)
         (RunTests.records p ++ map (RunTests.Logged RunTests.ERROR) lg
          ++ RunTests.print_results
               (with_results (init c fl kws)
                  (sort (all_matches (RunTests.fs_now p) kws fl))) false)
         (RunTests.written p)) /\
    Permutation lg
      (map SearcherBase.not_found_msg (missing_files (RunTests.fs_now p) fl)).
Proof.
  intros HQ Hn HN.
  destruct (search_no_faults (RunTests.fs_now p) sched (init c fl kws) n
              HQ Hn HN)
    as (lg & Hs & HP).
  exists lg. split; [|exact HP].
  unfold RunTests.run_search. now rewrite Hs.
Qed.

Lemma compare_same (write_error : string -> option string)
    (test_name infix : string) (c : strategy) (a b : searcher)
    (p : RunTests.progress) :
  results a = results b ->
  RunTests.compare_results write_error test_name infix c a b p = (inl false, p).
Proof.
  intros H. unfold RunTests.compare_results, RunTests.results_differ.
  now destruct (list_eq_dec match_eq_dec (results a) (results b)).
Qed.

(** X14.  [run_tests] passes on data that can be read: when the file of
    keywords can be read, the name of the test holds no brace, none of its
    data files raises another exception than [FileNotFoundError] and there
    is at least one worker, then under any schedules of the three
    concurrent searchers in which no call of [files.get(block=False)] of
    [MultiProcessSearcher2] raises [Empty] while names are queued,
    [run_tests] returns, its last log line is the verdict PASSED, it writes
    no file, and the only errors logged are "not found" lines of data
    files. *)
Theorem run_tests_passes (write_error : string -> option string)
    (sched1 sched2 sched3 : schedule) (fs : filesystem)
    (files_number lines_number_max n_workers : Z)
    (test_name content : string) :
  fs (test_name ++ "_key_words.txt")%string = Readable content ->
  RunTests.has_brace test_name = false ->
  no_faults fs
    (map (RunTests.data_file_name test_name) (Py.range files_number)) ->
  (1 <= n_workers)%Z ->
  quiet sched3 ->
  exists recs,
    RunTests.run_tests write_error sched1 sched2 sched3 files_number
      lines_number_max n_workers test_name (RunTests.start fs)
    = (inl tt,
       RunTests.mkProgress fs
         (recs ++ [RunTests.Logged RunTests.INFO
                     ("Test '" ++ test_name ++ "': PASSED"
                      ++ String Text.LF EmptyString)%string])
         []) /\
    forall msg, In (RunTests.Logged RunTests.ERROR msg) recs ->
      exists f,
        In f (map (RunTests.data_file_name test_name)
                (Py.range files_number)) /\
        msg = SearcherBase.not_found_msg f.
Proof.
  intros Hkw Hbrace HN Hn HQ3.
  set (fl := map (RunTests.data_file_name test_name) (Py.range files_number))
    in *.
  set (kws := PyStr.split (PyStr.read_text content)).
  unfold RunTests.run_tests, RunTests.start.
  erewrite bind_ok by reflexivity.
  erewrite bind_ok by reflexivity.
  erewrite bind_ok by (apply (read_key_words_ok _ _ content); exact Hkw).
  erewrite bind_ok by (now apply data_files_plain).
  fold kws fl. cbn [RunTests.fs_now RunTests.records RunTests.written app].
  repeat
    (match goal with
     | |- context [RunTests.bind (RunTests.run_search ?c ?s ?f ?k ?n) _ ?p] =>
         let lg := fresh "lg" in
         let Hrun := fresh "Hrun" in
         let Hlg := fresh "Hlg" in
         let HQ := fresh "HQ" in
         assert (HQ : steady c s)
           by first [ intros HQ; discriminate HQ | intros _; exact HQ3 ];
         destruct (run_search_no_faults c s f k n p HQ Hn HN)
           as (lg & Hrun & Hlg);
         erewrite bind_ok by exact Hrun; clear Hrun
     | |- context [RunTests.bind (RunTests.compare_results _ _ _ _ _ _) _ _] =>
         erewrite bind_ok by (now apply compare_same)
     end; cbn [RunTests.fs_now RunTests.records RunTests.written]).
  cbn [orb]. erewrite bind_ok by reflexivity.
  unfold RunTests.log_info, RunTests.log_records.
  cbn [RunTests.fs_now RunTests.records RunTests.written] in *.
  eexists. split; [reflexivity|].
  assert (Herr : forall lg' msg,
            Permutation lg'
              (map SearcherBase.not_found_msg (missing_files fs fl)) ->
            In msg lg' ->
            exists f, In f fl /\ msg = SearcherBase.not_found_msg f).
  { intros lg' msg HP Hin. apply (Permutation_in _ HP) in Hin.
    apply in_map_iff in Hin as (f & <- & Hf).
    apply filter_In in Hf as [Hf _]. now exists f. }
  intros msg Hin. cbn [app] in Hin.
  destruct Hin as [Hin|[Hin|Hin]]; [discriminate|discriminate|].
  unfold RunTests.print_results in Hin.
  repeat (apply in_app_or in Hin as [Hin|Hin]);
    first [ apply in_map_iff in Hin as (m & [= <-] & Hm); now eauto
          | simpl in Hin; intuition discriminate ].
Qed.

Lemma run_tests_passes_witness :
  exists recs,
    RunTests.run_tests (fun _ => Some "read-only file system")
      [Child 1; Child 0] [Main; Child 0] [Child 1; Main; Child 0]
      3 20 2 "T" (RunTests.start test_fs)
    = (inl tt,
       RunTests.mkProgress test_fs
         (recs ++ [RunTests.Logged RunTests.INFO
                     ("Test '" ++ "T" ++ "': PASSED"
                      ++ String Text.LF EmptyString)%string])
         []) /\
    forall msg, In (RunTests.Logged RunTests.ERROR msg) recs ->
      exists f,
        In f (map (RunTests.data_file_name "T") (Py.range 3)) /\
        msg = SearcherBase.not_found_msg f.
Proof.
  apply (run_tests_passes (fun _ => Some "read-only file system")
           [Child 1; Child 0] [Main; Child 0] [Child 1; Main; Child 0]
           test_fs 3 20 2 "T" ("go" ++ String Text.LF "fast")%string).
  - reflexivity.
  - reflexivity.
  - repeat constructor.
  - lia.
  - repeat constructor.
Defined.



(** ** The verdict of [run_tests] *)










(** * The schedule and the results *)

(** X17.  As long as no call of [files.get(block=False)] raises [Empty]
    while names are queued, what [MultiProcessSearcher2] searches does not
    depend on the schedule: the files taken from the queue are the files of
    the list up to the [n_workers]-th one that raises another exception
    than [FileNotFoundError] (all of them when there are fewer), and the
    result is the sort of the matches of these files. *)
Theorem dynamic_searcher_deterministic (fs : filesystem) (sched : schedule)
    (fl kws : list string) (n : Z) :
  quiet sched ->
  taken_files
    (MultiProcess2.final fs sched (init MultiProcessSearcher2 fl kws) n)
  = reached_by fs (Z.to_nat n) fl /\
  search fs sched (init MultiProcessSearcher2 fl kws) n
  = Return
      (mkSearcher MultiProcessSearcher2 fl kws
         (sort (all_matches fs kws (reached_by fs (Z.to_nat n) fl))),
       MultiProcess2.log
         (MultiProcess2.final fs sched (init MultiProcessSearcher2 fl kws) n)).
Proof.
  intros HQ. split; [now apply dynamic_taken|].
  rewrite search_dynamic by reflexivity. unfold with_results.
  cbn [cls files key_words init]. do 3 f_equal.
  pose proof (dynamic_final fs sched (init MultiProcessSearcher2 fl kws) n)
    as (HP & _ & _).
  apply sort_unique. rewrite HP, dynamic_taken by exact HQ. reflexivity.
Qed.

Lemma dynamic_searcher_deterministic_witness :
  quiet [Child 1; Child 0; Main; Child 1] /\
  taken_files
    (MultiProcess2.final Demo.fs [Child 1; Child 0; Main; Child 1]
       (init MultiProcessSearcher2
          ["locked.txt"; "a.txt"; "locked.txt"; "b.txt"] Demo.kws) 2)
  = reached_by Demo.fs (Z.to_nat 2)
      ["locked.txt"; "a.txt"; "locked.txt"; "b.txt"] /\
  search Demo.fs [Child 1; Child 0; Main; Child 1]
    (init MultiProcessSearcher2
       ["locked.txt"; "a.txt"; "locked.txt"; "b.txt"] Demo.kws) 2
  = Return
      (mkSearcher MultiProcessSearcher2
         ["locked.txt"; "a.txt"; "locked.txt"; "b.txt"] Demo.kws
         (sort (all_matches Demo.fs Demo.kws
                  (reached_by Demo.fs (Z.to_nat 2)
                     ["locked.txt"; "a.txt"; "locked.txt"; "b.txt"]))),
       MultiProcess2.log
         (MultiProcess2.final Demo.fs [Child 1; Child 0; Main; Child 1]
            (init MultiProcessSearcher2
               ["locked.txt"; "a.txt"; "locked.txt"; "b.txt"] Demo.kws) 2)).
Proof.
  assert (HQ : quiet [Child 1; Child 0; Main; Child 1])
    by (repeat constructor).
  split; [exact HQ|].
  apply (dynamic_searcher_deterministic Demo.fs
           [Child 1; Child 0; Main; Child 1]
           ["locked.txt"; "a.txt"; "locked.txt"; "b.txt"] Demo.kws 2).
  exact HQ.
Defined.

(** X18.  The interleaving of the workers does not show in the result: for
    every class of searcher, files, keywords and number of workers, two
    runs of a new searcher under two schedules both raise or both return
    the same result list, whatever the files do when they are read, as long
    as in neither run a call of [files.get(block=False)] of
    [MultiProcessSearcher2] raises [Empty] while names are queued. *)
Theorem results_independent_of_schedule (fs : filesystem)
    (sched1 sched2 : schedule) (c : strategy) (fl kws : list string) (n : Z) :
  steady c sched1 -> steady c sched2 ->
  results_of (search fs sched1 (init c fl kws) n)
  = results_of (search fs sched2 (init c fl kws) n).
Proof.
  intros HQ1 HQ2.
  destruct (divides_by_zero (init c fl kws) n) eqn:Hz.
  - now rewrite !search_raises.
  - destruct (search_searched fs sched1 (init c fl kws) n Hz)
      as (fl1 & lg1 & Hr1 & _ & Hq1).
    destruct (search_searched fs sched2 (init c fl kws) n Hz)
      as (fl2 & lg2 & Hr2 & _ & Hq2).
    rewrite Hr1, Hr2, (Hq1 HQ1), (Hq2 HQ2). reflexivity.
Qed.

Lemma results_independent_of_schedule_witness :
  steady MultiProcessSearcher2 [Child 1; Child 0; Main] /\
  steady MultiProcessSearcher2 [Child 0; Child 0; Child 1] /\
  results_of
    (search Demo.fs [Child 1; Child 0; Main]
       (init MultiProcessSearcher2 ["a.txt"; "locked.txt"; "b.txt"] Demo.kws)
       2)
  = results_of
      (search Demo.fs [Child 0; Child 0; Child 1]
         (init MultiProcessSearcher2 ["a.txt"; "locked.txt"; "b.txt"]
            Demo.kws) 2).
Proof.
  assert (H1 : steady MultiProcessSearcher2 [Child 1; Child 0; Main])
    by (intros _; repeat constructor).
  assert (H2 : steady MultiProcessSearcher2 [Child 0; Child 0; Child 1])
    by (intros _; repeat constructor).
  split; [exact H1|]. split; [exact H2|].
  apply (results_independent_of_schedule Demo.fs
           [Child 1; Child 0; Main] [Child 0; Child 0; Child 1]
           MultiProcessSearcher2 ["a.txt"; "locked.txt"; "b.txt"] Demo.kws 2);
    [exact H1|exact H2].
Defined.
